(** * dcase_AE: merging and slicing of timestamped recordings

    A shallow embedding of the two scripts of the repository,

    - [process.py]: collect the recordings of a directory, group them in
      batches of [files_per_group] and write one concatenated file per batch,
      reading every input through [robust_load_audio];
    - [slice_audio.py]: cut a time window out of one recording and export it in
      chunks of fixed duration,

    together with the properties of their specification.

    Conventions of the embedding.
    - A Python [str] is a [string]; its characters are the code points below
      256.  In that range the decimal digits are exactly ['0'..'9'].
    - A Python [bytes] object is a [list byte].
    - A Python [int] is a [Z].
    - A Python [float] is a [pyfloat]: a rational number (every binary
      float is one), an infinity or NaN.  Comparisons, [round] and [int] are
      exact on them.  A product is rounded to the nearest binary64 number.
      The literals that the parser reads and the sums are kept exact: they
      are the numbers that the text denotes, which the floats of Python
      approximate.  The statements about the window of [slice_audio.py] are
      therefore made on [main_window], for any two times, and not through
      the parser.
    - A raised exception is the [Raise] case of [result].
    - [pydub] is an external library: it is an interface ([Pydub]) whose
      operations the scripts call; a small reference instance, [ToyPydub],
      serves to run the scripts on concrete inputs.
    - The file system is a finite map from the paths that can be read to
      their content.  What the operating system decides alone, whether a
      write or a removal goes through, is a parameter ([OS.faults]).
    - A run leaves a trace of the calls it makes: reads, writes, removals,
      decodes, exports, log records and printed lines.  An export and a log
      record are calls of the trace only: the output files and the log file
      are not in the map of the files, and an export does not fail.

    Left out: the command line parser, the creation of directories, and the
    text of log records. *)

From Stdlib Require Import ZArith QArith Qround Qabs Lia List Sorted Ascii String.
From Equations Require Import Equations.
From stdpp Require Import base option list gmap strings pretty.
Import ListNotations.

Open Scope Z_scope.

(** ** Python values and built-ins *)

Module Py.

(** *** Exceptions *)

Inductive value_error :=
| BadTimeFormat        (* raise ValueError("cannot parse the time format") *)
| BadIntLiteral        (* int(s) on a malformed literal *)
| BadFloatLiteral      (* float(s) on a malformed literal *)
| EmptyWindow          (* raise ValueError("window out of range or empty") *)
| RangeStepZero        (* range(_, _, 0) *)
| NaNToInt             (* round(nan) *)
| Unsupported.         (* a conversion that the audio library refuses *)

Inductive exn :=
| ValueError (why : value_error)
| AssertionError
| OverflowError
| IndexError
| OSError
| DecodeError.

Inductive result (A : Type) :=
| Ok (a : A)
| Raise (e : exn).
Arguments Ok {A} a.
Arguments Raise {A} e.

Definition rbind {A B} (r : result A) (k : A -> result B) : result B :=
  match r with
  | Ok a => k a
  | Raise e => Raise e
  end.

Definition of_option {A} (e : exn) (o : option A) : result A :=
  match o with
  | Some a => Ok a
  | None => Raise e
  end.

Definition is_ok {A} (r : result A) : bool :=
  match r with Ok _ => true | Raise _ => false end.

(** *** Characters *)

Definition code (c : ascii) : Z := Z.of_N (N_of_ascii c).

(** [str.isspace] on the code points below 256. *)
Definition is_space (c : ascii) : bool :=
  let n := code c in
  ((9 <=? n) && (n <=? 13)) || ((28 <=? n) && (n <=? 32))
  || (n =? 133) || (n =? 160).

(** The white space that [int] and [float] skip around a literal: the ASCII
    white space, and the code points above 127 that are white space.  The
    separators 28 to 31, which [str.strip] removes, are not skipped. *)
Definition is_literal_space (c : ascii) : bool :=
  let n := code c in
  ((9 <=? n) && (n <=? 13)) || (n =? 32) || (n =? 133) || (n =? 160).

(** [\d], and the digits that [int] and [float] read. *)
Definition is_digit (c : ascii) : bool :=
  let n := code c in (48 <=? n) && (n <=? 57).

Definition digit_val (c : ascii) : Z := code c - 48.

Definition ascii_lower (c : ascii) : ascii :=
  let n := code c in
  if (65 <=? n) && (n <=? 90) then ascii_of_N (Z.to_N (n + 32)) else c.

(** *** Strings *)

Fixpoint lstrip (s : string) : string :=
  match s with
  | String c s' => if is_space c then lstrip s' else s
  | EmptyString => EmptyString
  end.

Fixpoint rstrip (s : string) : string :=
  match s with
  | String c s' =>
      match rstrip s' with
      | EmptyString => if is_space c then EmptyString else String c EmptyString
      | r => String c r
      end
  | EmptyString => EmptyString
  end.

(** [s.strip()] *)
Definition strip (s : string) : string := rstrip (lstrip s).

(** What [int] and [float] read of a string: the literal between the white
    space that they skip. *)
Fixpoint lstrip_literal (s : string) : string :=
  match s with
  | String c s' => if is_literal_space c then lstrip_literal s' else s
  | EmptyString => EmptyString
  end.

Fixpoint rstrip_literal (s : string) : string :=
  match s with
  | String c s' =>
      match rstrip_literal s' with
      | EmptyString =>
          if is_literal_space c then EmptyString else String c EmptyString
      | r => String c r
      end
  | EmptyString => EmptyString
  end.

Definition strip_literal (s : string) : string :=
  rstrip_literal (lstrip_literal s).

(** [s.split(sep)] for a separator of one character. *)
Fixpoint split (sep : ascii) (s : string) : list string :=
  match s with
  | EmptyString => [EmptyString]
  | String c s' =>
      if Ascii.eqb c sep then EmptyString :: split sep s'
      else match split sep s' with
           | h :: t => String c h :: t
           | [] => [String c EmptyString]
           end
  end.

(** [s.lower()] *)
Fixpoint lower (s : string) : string :=
  match s with
  | EmptyString => EmptyString
  | String c s' => String (ascii_lower c) (lower s')
  end.

(** [$] of a regular expression: the end of the string, or a last line feed. *)
Definition at_end (s : string) : bool :=
  match s with
  | EmptyString => true
  | String c EmptyString => Ascii.eqb c "010"
  | _ => false
  end.

(** The longest prefix of digits, and what follows it. *)
Fixpoint take_digits (s : string) : string * string :=
  match s with
  | String c s' =>
      if is_digit c then
        let '(d, r) := take_digits s' in (String c d, r)
      else (EmptyString, s)
  | EmptyString => (EmptyString, EmptyString)
  end.

Fixpoint all_digits (s : string) : bool :=
  match s with
  | EmptyString => true
  | String c s' => is_digit c && all_digits s'
  end.

(** Value of a digit string read from the left, starting from [acc]. *)
Fixpoint digits_value (acc : Z) (s : string) : Z :=
  match s with
  | EmptyString => acc
  | String c s' => digits_value (acc * 10 + digit_val c) s'
  end.

(** Underscores in numeric literals: one is allowed only between two digits.
    [prev] is the previous character.  The result is the literal without its
    underscores. *)
Definition is_underscore (c : ascii) : bool := Ascii.eqb c "_".

Fixpoint drop_underscores (prev : option ascii) (s : string) : option string :=
  match s with
  | EmptyString =>
      match prev with
      | Some p => if is_underscore p then None else Some EmptyString
      | None => Some EmptyString
      end
  | String c s' =>
      if is_underscore c then
        match prev with
        | Some p => if is_digit p then drop_underscores (Some c) s' else None
        | None => None
        end
      else
        let ok := match prev with
                  | Some p => if is_underscore p then is_digit c else true
                  | None => true
                  end in
        if ok then option_map (String c) (drop_underscores (Some c) s')
        else None
  end.

(** An optional sign: [true] for a minus. *)
Definition take_sign (s : string) : bool * string :=
  match s with
  | String c s' =>
      if Ascii.eqb c "-" then (true, s')
      else if Ascii.eqb c "+" then (false, s')
      else (false, s)
  | EmptyString => (false, s)
  end.

(** [int(s)] for a [str], base 10. *)
Definition int_of_str (s : string) : result Z :=
  match drop_underscores None (strip_literal s) with
  | None => Raise (ValueError BadIntLiteral)
  | Some t =>
      let '(neg, body) := take_sign t in
      match body with
      | EmptyString => Raise (ValueError BadIntLiteral)
      | _ =>
          if all_digits body then
            let v := digits_value 0 body in
            Ok (if neg then - v else v)
          else Raise (ValueError BadIntLiteral)
      end
  end.

(** *** Floats *)

Inductive pyfloat :=
| Finite (q : Q)
| Infinity (neg : bool)
| NaN.

(** [mant * 10 ^ e] *)
Definition scale10 (mant e : Z) : Q :=
  if 0 <=? e then inject_Z (mant * 10 ^ e)
  else Qmake mant (Z.to_pos (10 ^ (- e))).

(** The exponent part of a float literal: empty, or [e], a sign, digits. *)
Definition float_exponent (s : string) : option Z :=
  match s with
  | EmptyString => Some 0
  | String c s' =>
      if Ascii.eqb (ascii_lower c) "e" then
        let '(neg, t) := take_sign s' in
        let '(ds, rest) := take_digits t in
        match ds, rest with
        | String _ _, EmptyString =>
            let v := digits_value 0 ds in Some (if neg then - v else v)
        | _, _ => None
        end
      else None
  end.

(** The numbers that round to [2 ^ 1024] or more are beyond the floats. *)
Definition float_max_int : Z := 2 ^ 1024 - 2 ^ 970.

(** [float(s)] for a [str]: the number that the literal denotes, and infinity
    for a literal beyond the floats. *)
Definition float_of_str (s : string) : result pyfloat :=
  match drop_underscores None (strip_literal s) with
  | None => Raise (ValueError BadFloatLiteral)
  | Some t =>
      let '(neg, body) := take_sign t in
      let low := lower body in
      if (String.eqb low "inf" || String.eqb low "infinity")%bool
      then Ok (Infinity neg)
      else if String.eqb low "nan" then Ok NaN
      else
        let '(ip, r1) := take_digits body in
        let '(fp, r2) :=
          match r1 with
          | String c r =>
              if Ascii.eqb c "." then take_digits r else (EmptyString, r1)
          | EmptyString => (EmptyString, r1)
          end in
        match ip, fp with
        | EmptyString, EmptyString => Raise (ValueError BadFloatLiteral)
        | _, _ =>
            match float_exponent r2 with
            | None => Raise (ValueError BadFloatLiteral)
            | Some e =>
                let mant := digits_value (digits_value 0 ip) fp in
                let q := scale10 mant (e - Z.of_nat (String.length fp)) in
                if Qle_bool (inject_Z float_max_int) q then Ok (Infinity neg)
                else Ok (Finite (if neg then Qopp q else q))
            end
        end
  end.

(** To the nearest integer, ties to even: [round(x)] of a finite float, and
    the rounding of a significand. *)
Definition round_half_even (q : Q) : Z :=
  let f := Qfloor q in
  let d := (q - inject_Z f)%Q in
  match Qcompare d (1 # 2) with
  | Lt => f
  | Gt => f + 1
  | Eq => if Z.even f then f else f + 1
  end.

(** [2 ^ e] *)
Definition pow2 (e : Z) : Q :=
  if 0 <=? e then inject_Z (2 ^ e) else 1 # Z.to_pos (2 ^ (- e)).

(** The exponent of a positive number [q]: [2 ^ e <= q < 2 ^ (e + 1)]. *)
Definition binary_exponent (q : Q) : Z :=
  let n := Qnum q in
  let d := Zpos (Qden q) in
  let l := Z.log2 n - Z.log2 d in
  if (if 0 <=? l then d * 2 ^ l <=? n else d <=? n * 2 ^ (- l)) then l
  else l - 1.

(** The result of an arithmetic operation whose exact value is [q]: the
    nearest number with a significand of 53 bits and an exponent of -1074 at
    least (IEEE 754 binary64), ties to the even significand; infinity from
    [2 ^ 1024] on.  The sign of a zero is not kept. *)
Definition round_to_double (q : Q) : pyfloat :=
  if Qeq_bool q 0 then Finite 0
  else
    let e := Z.max (binary_exponent (Qabs q) - 52) (-1074) in
    let m := round_half_even (q * pow2 (- e)) in
    let v := (inject_Z m * pow2 e)%Q in
    if Qle_bool (pow2 1024) (Qabs v) then Infinity (negb (Qle_bool 0 q))
    else Finite v.

(** [x * y] on floats, rounded as the processor rounds it; [x + y] as it is
    used by the parser and for the tags, where the sum is kept exact. *)
Definition fmul (x y : pyfloat) : pyfloat :=
  match x, y with
  | Finite a, Finite b => round_to_double (a * b)
  | NaN, _ | _, NaN => NaN
  | Infinity n, Finite b =>
      if Qeq_bool b 0 then NaN else Infinity (xorb n (negb (Qle_bool 0 b)))
  | Finite a, Infinity n =>
      if Qeq_bool a 0 then NaN else Infinity (xorb n (negb (Qle_bool 0 a)))
  | Infinity n, Infinity m => Infinity (xorb n m)
  end.

Definition fadd (x y : pyfloat) : pyfloat :=
  match x, y with
  | Finite a, Finite b => Finite (a + b)
  | NaN, _ | _, NaN => NaN
  | Infinity n, Finite _ => Infinity n
  | Finite _, Infinity n => Infinity n
  | Infinity n, Infinity m => if Bool.eqb n m then Infinity n else NaN
  end.

(** Conversion of an [int] operand to [float]: the integers that round to
    2^1024 or more raise [OverflowError]. *)
Definition of_int (n : Z) : result pyfloat :=
  if Z.abs n <? float_max_int then Ok (Finite (inject_Z n))
  else Raise OverflowError.

(** [n + x] for an [int] [n] and a [float] [x] *)
Definition int_plus_float (n : Z) (x : pyfloat) : result pyfloat :=
  rbind (of_int n) (fun y => Ok (fadd y x)).

(** [x > y] and [x <= y]; every comparison with NaN is false. *)
Definition fgt (x y : pyfloat) : bool :=
  match x, y with
  | NaN, _ | _, NaN => false
  | Finite a, Finite b => negb (Qle_bool a b)
  | Infinity n, Finite _ => negb n
  | Finite _, Infinity m => m
  | Infinity n, Infinity m => negb n && m
  end.

Definition fle (x y : pyfloat) : bool :=
  match x, y with
  | NaN, _ | _, NaN => false
  | Finite a, Finite b => Qle_bool a b
  | Infinity n, Finite _ => n
  | Finite _, Infinity m => negb m
  | Infinity n, Infinity m => n || negb m
  end.

(** [round(x)] *)
Definition round (x : pyfloat) : result Z :=
  match x with
  | Finite q => Ok (round_half_even q)
  | Infinity _ => Raise OverflowError
  | NaN => Raise (ValueError NaNToInt)
  end.

(** [int(x)] of a finite float: truncation towards zero. *)
Definition trunc (q : Q) : Z :=
  if Qle_bool 0 q then Qfloor q else Qceiling q.

(** *** Lists *)

Definition len {A} (l : list A) : Z := Z.of_nat (List.length l).

(** A slice bound, as [slice.indices] adjusts it for a sequence of length [n]. *)
Definition clamp_index (n i : Z) : Z :=
  if i <? 0 then Z.max (i + n) 0 else Z.min i n.

(** [l[lo:hi]]; an absent bound is [None]. *)
Definition slice {A} (l : list A) (lo hi : option Z) : list A :=
  let n := len l in
  let a := match lo with Some i => clamp_index n i | None => 0 end in
  let b := match hi with Some i => clamp_index n i | None => n end in
  take (Z.to_nat (b - a)) (drop (Z.to_nat a) l).

(** [l[i]] *)
Definition index {A} (l : list A) (i : Z) : result A :=
  let j := if i <? 0 then i + len l else i in
  if (j <? 0) || (len l <=? j) then Raise IndexError
  else of_option IndexError (l !! Z.to_nat j).

(** [range(i, stop, step)] for a positive step *)
Equations? range_up (i stop step : Z) (Hstep : 0 < step) : list Z
  by wf (Z.to_nat (stop - i)) lt :=
  range_up i stop step Hstep with Z_lt_dec i stop => {
    | left _ := i :: range_up (i + step) stop step Hstep
    | right _ := [] }.
Proof. lia. Qed.

(** [range(i, stop, step)] for a negative step *)
Equations? range_down (i stop step : Z) (Hstep : step < 0) : list Z
  by wf (Z.to_nat (i - stop)) lt :=
  range_down i stop step Hstep with Z_lt_dec stop i => {
    | left _ := i :: range_down (i + step) stop step Hstep
    | right _ := [] }.
Proof. lia. Qed.

(** [list(range(start, stop, step))] *)
Definition range (start stop step : Z) : result (list Z) :=
  match Z_dec' 0 step with
  | inleft (left Hpos) => Ok (range_up start stop step Hpos)
  | inleft (right Hneg) => Ok (range_down start stop step Hneg)
  | inright _ => Raise (ValueError RangeStepZero)
  end.

(** *** Bytes *)

Definition bytes := list Byte.byte.

Fixpoint starts_with (needle hay : bytes) : bool :=
  match needle, hay with
  | [], _ => true
  | _ :: _, [] => false
  | x :: needle', y :: hay' => Byte.eqb x y && starts_with needle' hay'
  end.

(** Position of the first occurrence of [needle] in [hay], counted from [k]. *)
Fixpoint find_from (k : Z) (needle hay : bytes) : Z :=
  if starts_with needle hay then k
  else match hay with
       | [] => -1
       | _ :: hay' => find_from (k + 1) needle hay'
       end.

(** [hay.find(needle)] *)
Definition find (hay needle : bytes) : Z := find_from 0 needle hay.

(** *** Formatting *)

(** [f"{n:02d}"] *)
Definition format_02d (n : Z) : string :=
  match n with
  | Zneg p => String "-" (pretty (Zpos p))   (* the sign counts in the width *)
  | _ =>
      let d := pretty n in
      if (String.length d <? 2)%nat then String "0" d else d
  end.

(** *** Vocabulary for statements about strings and numbers *)

(** The ceiling of [a / b] for a positive [b]. *)
Definition ceil_div (a b : Z) : Z := Qceiling (a # Z.to_pos b).

(** Every character of [s] is in the class [p]. *)
Fixpoint chars (p : ascii -> bool) (s : string) : bool :=
  match s with
  | EmptyString => true
  | String c s' => p c && chars p s'
  end.

(** The characters of an unsigned decimal number. *)
Definition plain_char (c : ascii) : bool := is_digit c || Ascii.eqb c ".".



End Py.

(** ** The audio library

    [pydub.AudioSegment] as the scripts use it.  Decoders take the content of
    the file they are asked to read; [None] stands for a raised exception. *)

Class Pydub := {
  segment : Type;
  (** [AudioSegment.from_wav], on the bytes of the file *)
  decode_wav : Py.bytes -> option segment;
  (** [AudioSegment.from_raw], with [sample_width], [frame_rate], [channels] *)
  decode_raw : Z -> Z -> Z -> Py.bytes -> option segment;
  (** [AudioSegment.from_file] *)
  decode_file : Py.bytes -> option segment;
  frame_rate : segment -> Z;
  channels : segment -> Z;
  sample_width : segment -> Z;
  set_frame_rate : Z -> segment -> Py.result segment;
  set_channels : Z -> segment -> Py.result segment;
  set_sample_width : Z -> segment -> Py.result segment;
  (** [AudioSegment.silent(duration=d)] *)
  silent : Z -> segment;
  (** [a + b] *)
  seg_add : segment -> segment -> segment;
  (** [len(a)], in milliseconds *)
  seg_len : segment -> Z;
  (** [a[lo:hi]], bounds in milliseconds *)
  seg_slice : segment -> Z -> Z -> segment
}.

(** What the scripts rely on: a conversion that succeeds sets its own
    parameter and keeps the other two. *)
Class PydubLaws (P : Pydub) : Prop := {
  set_frame_rate_format : forall r s s',
    set_frame_rate r s = Py.Ok s' ->
    frame_rate s' = r /\ channels s' = channels s
    /\ sample_width s' = sample_width s;
  set_channels_format : forall c s s',
    set_channels c s = Py.Ok s' ->
    frame_rate s' = frame_rate s /\ channels s' = c
    /\ sample_width s' = sample_width s;
  set_sample_width_format : forall w s s',
    set_sample_width w s = Py.Ok s' ->
    frame_rate s' = frame_rate s /\ channels s' = channels s
    /\ sample_width s' = w
}.

(** ** The file system and the calls made on it *)

Module OS.
Import Py.

(** How an [open(path, "wb")] followed by a [write] ends: the file is written;
    the file cannot be opened; or the file is created and the write raises
    after [written] bytes. *)
Inductive write_outcome :=
| WriteOk
| WriteDenied
| WriteTorn (written : nat).

(** The behaviour of the operating system that the scripts do not control. *)
Record faults := {
  write_outcome_of : string -> write_outcome;
  remove_denied : string -> bool
}.

Definition no_faults : faults :=
  {| write_outcome_of := fun _ => WriteOk; remove_denied := fun _ => false |}.

Inductive log_level := LogInfo | LogWarning | LogError.

(** The calls a run makes, in order. *)
Inductive event {segment : Type} :=
| EvFromWav (path : string)
| EvFromRaw (path : string)
| EvRead (path : string)
| EvWrite (path : string) (data : bytes)
| EvRemove (path : string)
| EvExport (path : string) (seg : segment)
| EvLog (level : log_level) (subject : string)
| EvSaved (path : string) (ms : Z)      (* print: a chunk and its duration *)
| EvDone (out_root : string) (n : Z).   (* print: the final count *)
Arguments event : clear implicits.

Record world {segment : Type} := {
  files : gmap string bytes;
  trace : list (event segment)
}.
Arguments world : clear implicits.

(** A computation with effects on the world that returns or raises. *)
Definition io (segment A : Type) : Type :=
  world segment -> result A * world segment.

Section Monad.
Context {segment : Type}.
Local Abbreviation io := (io segment).

Definition ret {A} (a : A) : io A := fun w => (Ok a, w).

Definition raise {A} (e : exn) : io A := fun w => (Raise e, w).

Definition bind {A B} (m : io A) (k : A -> io B) : io B :=
  fun w => match m w with
           | (Ok a, w') => k a w'
           | (Raise e, w') => (Raise e, w')
           end.

(** [try: m except Exception: ...]: the outcome of [m] as a value. *)
Definition attempt {A} (m : io A) : io (result A) :=
  fun w => let '(r, w') := m w in (Ok r, w').

Definition lift {A} (r : result A) : io A := fun w => (r, w).

Definition emit (ev : event segment) : io unit :=
  fun w => (Ok tt, {| files := files w; trace := trace w ++ [ev] |}).

Definition set_files (fs : gmap string bytes) : io unit :=
  fun w => (Ok tt, {| files := fs; trace := trace w |}).

Definition get_files : io (gmap string bytes) :=
  fun w => (Ok (files w), w).

Definition logging (level : log_level) (subject : string) : io unit :=
  emit (EvLog level subject).

(** The world after the calls [evs]. *)
Definition extend (w : world segment) (evs : list (event segment))
    : world segment :=
  {| files := files w; trace := trace w ++ evs |}.

End Monad.

(** The calls made between the worlds [w] and [w']. *)
Definition new_events {segment} (w w' : world segment)
    : list (event segment) :=
  drop (List.length (trace w)) (trace w').

(** The paths of the exports of a trace, in order, and what was exported. *)
Definition exported_paths {segment} (t : list (event segment)) : list string :=
  omap (fun ev => match ev with EvExport p _ => Some p | _ => None end) t.

Definition exported_segments {segment} (t : list (event segment))
    : list segment :=
  omap (fun ev => match ev with EvExport _ s => Some s | _ => None end) t.

#[global] Instance io_ret {segment} : MRet (io segment) := @ret segment.
#[global] Instance io_bind {segment} : MBind (io segment) :=
  fun A B k m => bind m k.

Section Calls.
Context {segment : Type} (os : faults).
Local Abbreviation io := (io segment).

(** [with open(path, "rb") as f: f.read()] *)
Definition read_file (path : string) : io bytes :=
  emit (EvRead path) ;;
  fs ← get_files ;
  lift (of_option OSError (fs !! path)).

(** [with open(path, "wb") as g: g.write(data)] *)
Definition write_file (path : string) (data : bytes) : io unit :=
  emit (EvWrite path data) ;;
  fs ← get_files ;
  match write_outcome_of os path with
  | WriteOk => set_files (<[path := data]> fs)
  | WriteDenied => raise OSError
  | WriteTorn n => set_files (<[path := take n data]> fs) ;; raise OSError
  end.

(** [os.remove(path)] *)
Definition remove (path : string) : io unit :=
  emit (EvRemove path) ;;
  fs ← get_files ;
  if remove_denied os path then raise OSError
  else match fs !! path with
       | Some _ => set_files (delete path fs)
       | None => raise OSError
       end.

End Calls.
End OS.

(** ** process.py *)

Module Process.
Import Py OS.

(** *** Parameters *)

Definition input_dir : string := "Data".
Definition output_dir : string := "combinedall".
Definition files_per_group : Z := 200.
Definition TARGET_SR : Z := 32000.
Definition TARGET_CHANNELS : Z := 1.
Definition TARGET_WIDTH : Z := 2.

(** *** File names *)

(** [s] without the prefix [p], when it has it. *)
Fixpoint strip_prefix (p s : string) : option string :=
  match p, s with
  | EmptyString, _ => Some s
  | String a p', String b s' => if Ascii.eqb a b then strip_prefix p' s' else None
  | String _ _, EmptyString => None
  end.

(** [\d{n}]: exactly [n] digits at the head of [s], and what follows. *)
Fixpoint take_n_digits (n : nat) (s : string) : option (string * string) :=
  match n with
  | O => Some (EmptyString, s)
  | S n' =>
      match s with
      | String c s' =>
          if is_digit c then
            match take_n_digits n' s' with
            | Some (d, r) => Some (String c d, r)
            | None => None
            end
          else None
      | EmptyString => None
      end
  end.

(** [re.match(pattern, f)] with
    [pattern = r'^SBW1520_(\d{8})_(\d{6})\.wav$']; the two groups. *)
Definition match_pattern (f : string) : option (string * string) :=
  r0 ← strip_prefix "SBW1520_" f;
  '(date_str, r1) ← take_n_digits 8 r0;
  r2 ← strip_prefix "_" r1;
  '(time_str, r3) ← take_n_digits 6 r2;
  r4 ← strip_prefix ".wav" r3;
  if at_end r4 then Some (date_str, time_str) else None.

(** [s.rfind(c)], counted from [k]; -1 when [c] does not occur. *)
Fixpoint rfind_from (k : Z) (c : ascii) (s : string) : Z :=
  match s with
  | EmptyString => -1
  | String a s' =>
      let r := rfind_from (k + 1) c s' in
      if 0 <=? r then r else if Ascii.eqb a c then k else -1
  end.

Definition rfind (c : ascii) (s : string) : Z := rfind_from 0 c s.

Fixpoint all_dots (s : string) : bool :=
  match s with
  | EmptyString => true
  | String c s' => Ascii.eqb c "." && all_dots s'
  end.

(** [os.path.splitext(p)]: the extension starts at the last dot of the last
    component, unless only dots precede it there. *)
Definition splitext (p : string) : string * string :=
  let sepIndex := rfind "/" p in
  let dotIndex := rfind "." p in
  let n := String.length p in
  if (sepIndex <? dotIndex)
     && negb (all_dots (substring (Z.to_nat (sepIndex + 1))
                                  (Z.to_nat (dotIndex - (sepIndex + 1))) p))
  then (substring 0 (Z.to_nat dotIndex) p,
        substring (Z.to_nat dotIndex) (n - Z.to_nat dotIndex) p)
  else (p, EmptyString).

(** [os.path.join(a, b)] of [posixpath]: [b] alone when it is absolute;
    [a] and [b] put together when [a] is empty or ends with the separator;
    else [a], the separator and [b]. *)
Definition starts_with_sep (s : string) : bool :=
  match s with
  | String c _ => Ascii.eqb c "/"
  | EmptyString => false
  end.

Fixpoint ends_with_sep (s : string) : bool :=
  match s with
  | EmptyString => false
  | String c EmptyString => Ascii.eqb c "/"
  | String _ s' => ends_with_sep s'
  end.

Definition path_join (a b : string) : string :=
  if starts_with_sep b then b
  else
    match a with
    | EmptyString => b
    | _ => if ends_with_sep a then a +:+ b else a +:+ "/" +:+ b
    end.

Definition RIFF : bytes := [Byte.x52; Byte.x49; Byte.x46; Byte.x46].

Definition trimmed_suffix : string := ".__trimmed__.wav".

Section WithLibrary.
Context {P : Pydub} (os : faults).
Local Abbreviation io := (io segment).

(** *** Reading one file *)

(** [AudioSegment.from_wav(path)] *)
Definition from_wav (path : string) : io segment :=
  emit (EvFromWav path) ;;
  fs ← get_files ;
  match fs !! path with
  | Some b => lift (of_option DecodeError (decode_wav b))
  | None => raise OSError
  end.

(** [AudioSegment.from_raw(path, sample_width=.., frame_rate=.., channels=..)] *)
Definition from_raw (path : string) (width sr chans : Z) : io segment :=
  emit (EvFromRaw path) ;;
  fs ← get_files ;
  match fs !! path with
  | Some b => lift (of_option DecodeError (decode_raw width sr chans b))
  | None => raise OSError
  end.

(** The second tier of [robust_load_audio], lines 45 to 68.  [Some seg] is
    [return seg]; [None] falls through to the third tier. *)
Definition riff_repair (path : string) : io (option segment) :=
  blob ← read_file path ;
  let riff_pos := find blob RIFF in
  if 0 <=? riff_pos then
    let trimmed_path := path +:+ trimmed_suffix in
    write_file os trimmed_path (slice blob (Some riff_pos) None) ;;
    r ← attempt (from_wav trimmed_path) ;
    match r with
    | Ok seg =>
        attempt (remove os trimmed_path) ;;
        mret (Some seg)
    | Raise e2 =>
        logging LogWarning path ;;
        attempt (remove os trimmed_path) ;;
        mret None
    end
  else mret None.

(** The third tier, lines 71 to 75. *)
Definition raw_fallback (path : string) (raw_sr raw_channels raw_width : Z)
    : io segment :=
  r3 ← attempt (from_raw path raw_width raw_sr raw_channels) ;
  match r3 with
  | Ok seg => mret seg
  | Raise e => logging LogError path ;; raise e
  end.

(** [robust_load_audio(path, raw_sr, raw_channels, raw_width)] *)
Definition robust_load_audio_with (path : string)
    (raw_sr raw_channels raw_width : Z) : io segment :=
  r1 ← attempt (from_wav path) ;
  match r1 with
  | Ok seg => mret seg
  | Raise e =>
      logging LogWarning path ;;
      r2 ← attempt (riff_repair path) ;
      match r2 with
      | Ok (Some seg) => mret seg
      | Ok None => raw_fallback path raw_sr raw_channels raw_width
      | Raise e =>
          logging LogWarning path ;;
          raw_fallback path raw_sr raw_channels raw_width
      end
  end.

Definition robust_load_audio (path : string) : io segment :=
  robust_load_audio_with path TARGET_SR TARGET_CHANNELS TARGET_WIDTH.

(** *** Normalising a segment *)

(** [normalize(seg, target_sr, target_channels, target_width)] *)
Definition normalize_to (seg : segment)
    (target_sr target_channels target_width : Z) : result segment :=
  rbind (if frame_rate seg =? target_sr then Ok seg
         else set_frame_rate target_sr seg) (fun seg =>
  rbind (if channels seg =? target_channels then Ok seg
         else set_channels target_channels seg) (fun seg =>
  if sample_width seg =? target_width then Ok seg
  else set_sample_width target_width seg)).

Definition normalize (seg : segment) : result segment :=
  normalize_to seg TARGET_SR TARGET_CHANNELS TARGET_WIDTH.

(** *** Groups *)

(** The slices [sorted_files[i:i + files_per_group]] that the loop of line 114
    visits, in order; the empty ones are skipped (line 116). *)
Definition group_slices {A} (sorted_files : list A) (per_group : Z)
    : result (list (list A)) :=
  rbind (range 0 (len sorted_files) per_group) (fun starts =>
  Ok (List.filter (fun g => negb (len g =? 0))
        (List.map (fun i => slice sorted_files (Some i) (Some (i + per_group)))
                  starts))).

(** The state of the loop over the files of one group, lines 122 to 134. *)
Record group_state := {
  combined : segment;
  ok_count : Z;
  failed_files : list string
}.

(** One iteration of the loop of line 125. *)
Definition load_one (st : group_state) (filename : string) : io group_state :=
  let path := path_join input_dir filename in
  r ← attempt (seg ← robust_load_audio path ;
               seg ← lift (normalize seg) ;
               mret seg) ;
  match r with
  | Ok seg =>
      mret {| combined := seg_add (combined st) seg;
              ok_count := ok_count st + 1;
              failed_files := failed_files st |}
  | Raise _ =>
      logging LogError filename ;;
      mret {| combined := combined st;
              ok_count := ok_count st;
              failed_files := failed_files st ++ [filename] |}
  end.

Fixpoint load_all (st : group_state) (group_files : list string)
    : io group_state :=
  match group_files with
  | [] => mret st
  | filename :: rest => st' ← load_one st filename ; load_all st' rest
  end.

(** Lines 141 to 148: the name of the output of a group. *)
Definition out_name (group_files : list string) (ok_count : Z)
    : result string :=
  rbind (index group_files 0) (fun first =>
  rbind (if ok_count =? len group_files
         then index group_files (ok_count - 1)
         else index group_files (-1)) (fun last =>
  let first_base := fst (splitext first) in
  let end_tag := match match_pattern last with
                 | Some (_, time_str) => time_str
                 | None => fst (splitext last)
                 end in
  Ok (first_base +:+ "_TO_" +:+ end_tag +:+ ".wav"))).

(** The body of the loop of line 114 for a group that is not empty.  The
    result is the list of failed files, extended. *)
Definition combine_group (failed : list string) (group_files : list string)
    : io (list string) :=
  logging LogInfo "group" ;;
  st ← load_all {| combined := silent 0; ok_count := 0;
                   failed_files := failed |} group_files ;
  if ok_count st =? 0 then
    logging LogError "group" ;;
    mret (failed_files st)
  else
    name ← lift (out_name group_files (ok_count st)) ;
    let out_path := path_join output_dir name in
    emit (EvExport out_path (combined st)) ;;
    logging LogInfo out_path ;;
    mret (failed_files st).

Fixpoint combine_groups (failed : list string) (groups : list (list string))
    : io (list string) :=
  match groups with
  | [] => mret failed
  | g :: rest => failed' ← combine_group failed g ; combine_groups failed' rest
  end.

(** Lines 111 to 151, from the sorted list of names. *)
Definition combine_all (sorted_files : list string) (per_group : Z)
    : io (list string) :=
  groups ← lift (group_slices sorted_files per_group) ;
  combine_groups [] groups.

End WithLibrary.

(** *** Vocabulary for statements about the loader and the groups *)

(** The temporary file of the second tier. *)
Definition tmp_of (path : string) : string := path +:+ trimmed_suffix.

(** The second tier ran: the trace has the write of the temporary file. *)
Definition tier2_attempted {segment} (path : string)
    (t : list (event segment)) : bool :=
  existsb (fun ev => match ev with
                     | EvWrite p _ => String.eqb p (tmp_of path)
                     | _ => false
                     end) t.

(** The files of a group that were read, given those that failed. *)
Definition loaded (group_files new_failed : list string) : list string :=
  filter (fun f => f ∉ new_failed) group_files.

(** The groups that the loop visits from index [i] on. *)
Definition groups_from {A} (l : list A) (N : Z) (HN : 0 < N) (i : Z)
    : list (list A) :=
  List.filter (fun g => negb (len g =? 0))
    (List.map (fun j => slice l (Some j) (Some (j + N)))
              (range_up i (len l) N HN)).

(** The size of the last group when [r] files remain. *)
Definition last_size (N r : Z) : Z := if r mod N =? 0 then N else r mod N.

Definition sizes_ok {A} (N r : Z) (gs : list (list A)) : Prop :=
  forall k g, gs !! k = Some g ->
    len g = if (S k <? List.length gs)%nat then N else last_size N r.

(** The second tier as the specification words it: attempted exactly when
    the direct decode failed and the signature is at an offset [k > 0]. *)
Definition claimed_tier2 {P : Pydub} (os : faults) (path : string)
    (w : world segment) : Prop :=
  let '(_, w') := robust_load_audio os path w in
  tier2_attempted path (new_events w w') = true <->
  exists blob, files w !! path = Some blob
               /\ decode_wav blob = None
               /\ 0 < find blob RIFF.

(** The clean-up as the specification words it: when the second tier ran,
    its temporary file does not exist when the loader returns. *)
Definition claimed_cleanup {P : Pydub} (os : faults) (path : string)
    (w : world segment) : Prop :=
  let '(_, w') := robust_load_audio os path w in
  tier2_attempted path (new_events w w') = true ->
  files w' !! tmp_of path = None.

(** The output name as the specification words it: the base name of the
    first file and the time of the last file that was read. *)
Definition claimed_out_name (group_files new_failed : list string)
    : option string :=
  first ← head group_files;
  last_ok ← last (loaded group_files new_failed);
  '(_, time_str) ← match_pattern last_ok;
  Some ((splitext first).1 +:+ "_TO_" +:+ time_str +:+ ".wav").

Definition claimed_group_export {P : Pydub} (os : faults)
    (failed group_files : list string) (w : world segment) : Prop :=
  let '(r, w') := combine_group os failed group_files w in
  match r with
  | Ok all_failed =>
      forall p, p ∈ exported_paths (new_events w w') ->
        Some p = path_join output_dir
                   <$> claimed_out_name group_files
                         (drop (List.length failed) all_failed)
  | Raise _ => True
  end.

End Process.

(** ** slice_audio.py *)

Module SliceAudio.
Import Py OS.

(** [re.match(r"^\d+(\.\d+)?$", s)] *)
Definition is_plain_seconds (s : string) : bool :=
  let '(ip, r1) := take_digits s in
  match ip with
  | EmptyString => false
  | _ =>
      at_end r1
      || match r1 with
         | String c r =>
             Ascii.eqb c "."
             && let '(fp, r2) := take_digits r in
                match fp with
                | EmptyString => false
                | _ => at_end r2
                end
         | EmptyString => false
         end
  end.

(** [parse_hms_or_seconds(s)] *)
Definition parse_hms_or_seconds (s : string) : result pyfloat :=
  let s := strip s in
  if is_plain_seconds s then float_of_str s
  else
    match split ":" s with
    | [mm; ss] =>
        rbind (int_of_str mm) (fun m =>
        rbind (float_of_str ss) (fun x =>
        int_plus_float (m * 60) x))
    | [hh; mm; ss] =>
        rbind (int_of_str hh) (fun h =>
        rbind (int_of_str mm) (fun m =>
        rbind (float_of_str ss) (fun x =>
        int_plus_float (h * 3600 + m * 60) x)))
    | _ => Raise (ValueError BadTimeFormat)
    end.

(** [int(x)] for a float *)
Definition int_of_float (x : pyfloat) : result Z :=
  match x with
  | Finite q => Ok (trunc q)
  | Infinity _ => Raise OverflowError
  | NaN => Raise (ValueError NaNToInt)
  end.

(** The tag of a whole number of seconds. *)
Definition hms_tag (x_int : Z) : string :=
  let h := x_int / 3600 in
  let r := x_int mod 3600 in
  let m := r / 60 in
  let s := r mod 60 in
  format_02d h +:+ "h" +:+ format_02d m +:+ "m" +:+ format_02d s +:+ "s".

(** [hms_from_seconds(x)] *)
Definition hms_from_seconds (x : pyfloat) : result string :=
  rbind (int_of_float x) (fun x_int => Ok (hms_tag x_int)).

Record args := {
  input : string;
  start : string;
  end_ : string;
  outdir : string;
  name : string;
  chunk : pyfloat;
  drop_last : bool;
  force_format : string;
  sr : option Z;
  arg_channels : option Z;
  width : option Z
}.

Section WithLibrary.
Context {P : Pydub}.
Local Abbreviation io := (io segment).

(** [AudioSegment.from_file(path)] *)
Definition from_file (path : string) : io segment :=
  emit (EvRead path) ;;
  fs ← get_files ;
  match fs !! path with
  | Some b => lift (of_option DecodeError (decode_file b))
  | None => raise OSError
  end.

(** The name of the chunk that starts [pos] milliseconds into the window. *)
Definition chunk_name (a : args) (start_sec : pyfloat) (pos : Z)
    : result string :=
  let start_abs := fadd start_sec (Finite (pos # 1000)) in
  rbind (hms_from_seconds start_abs) (fun start_tag =>
  Ok (name a +:+ "_" +:+ start_tag +:+ "." +:+ force_format a)).

(** The file name of a chunk for a finite start time [q], and the calls of
    one iteration: the export of [window[pos:nxt]] and the line printed. *)
Definition chunk_file (a : args) (q : Q) (pos : Z) : string :=
  name a +:+ "_" +:+ hms_tag (trunc (q + (pos # 1000))%Q)
  +:+ "." +:+ force_format a.

Definition chunk_events (a : args) (q : Q) (out_root : string)
    (window : segment) (pos nxt : Z) : list (event segment) :=
  let p := Process.path_join out_root (chunk_file a q pos) in
  [EvExport p (seg_slice window pos nxt); EvSaved p (nxt - pos)].

(** The calls of the iterations that start at the positions [starts]. *)
Definition events_at (a : args) (q : Q) (out_root : string)
    (window : segment) (chunk_ms : Z) (starts : list Z)
    : list (event segment) :=
  concat (List.map (fun p => chunk_events a q out_root window p
                               (Z.min (p + chunk_ms) (seg_len window)))
                   starts).

(** The loop of lines 74 to 88, for at most [fuel] iterations.  The result is
    the final [n]; [None] when the loop is still running after [fuel]
    iterations. *)
Fixpoint chunk_loop (fuel : nat) (a : args) (start_sec : pyfloat)
    (out_root : string) (window : segment) (chunk_ms : Z) (n pos : Z)
    : io (option Z) :=
  match fuel with
  | O => mret None
  | S fuel' =>
      if pos <? seg_len window then
        let nxt := Z.min (pos + chunk_ms) (seg_len window) in
        if drop_last a && (nxt - pos <? chunk_ms) then mret (Some n)
        else
          let seg := seg_slice window pos nxt in
          out_name ← lift (chunk_name a start_sec pos) ;
          let out_path := Process.path_join out_root out_name in
          emit (EvExport out_path seg) ;;
          emit (EvSaved out_path (nxt - pos)) ;;
          chunk_loop fuel' a start_sec out_root window chunk_ms (n + 1) nxt
      else mret (Some n)
  end.

(** An optional conversion, lines 60 to 65. *)
Definition override (o : option Z) (f : Z -> segment -> result segment)
    (window : segment) : result segment :=
  match o with
  | Some v => f v window
  | None => Ok window
  end.

(** [main()] from line 50 on, when the input is loaded and the two times
    are parsed. *)
Definition main_window (fuel : nat) (a : args) (audio : segment)
    (start_sec end_sec : pyfloat) : io (option Z) :=
  let total_ms := seg_len audio in
  if negb (fgt end_sec start_sec) then raise AssertionError
  else
    start_r ← lift (round (fmul start_sec (Finite 1000))) ;
    let start_ms := Z.max 0 start_r in
    end_r ← lift (round (fmul end_sec (Finite 1000))) ;
    let end_ms := Z.min total_ms end_r in
    if end_ms <=? start_ms then raise (ValueError EmptyWindow)
    else
      let window := seg_slice audio start_ms end_ms in
      window ← lift (override (sr a) set_frame_rate window) ;
      window ← lift (override (arg_channels a) set_channels window) ;
      window ← lift (override (width a) set_sample_width window) ;
      let out_root := Process.path_join (outdir a) (name a) in
      chunk_ms ← lift (round (fmul (chunk a) (Finite 1000))) ;
      r ← chunk_loop fuel a start_sec out_root window chunk_ms 0 0 ;
      match r with
      | Some n => emit (EvDone out_root n) ;; mret (Some n)
      | None => mret None
      end.

(** [main()], after the command line is read. *)
Definition main (fuel : nat) (a : args) : io (option Z) :=
  audio ← from_file (input a) ;
  start_sec ← lift (parse_hms_or_seconds (start a)) ;
  end_sec ← lift (parse_hms_or_seconds (end_ a)) ;
  main_window fuel a audio start_sec end_sec.

End WithLibrary.

(** The durations that a trace reports for its chunks, in milliseconds. *)
Definition reported_lengths {segment} (t : list (event segment)) : list Z :=
  omap (fun ev => match ev with EvSaved _ ms => Some ms | _ => None end) t.

(** *** The time formats as the specification words them *)





(** The names of the chunks as the specification words them: for every
    positive chunk duration no two exports of a run have the same name. *)
Definition claimed_distinct_names {P : Pydub} (a : args) (q : Q)
    (out_root : string) (window : segment) (chunk_ms : Z) (fuel : nat)
    (w : world segment) : Prop :=
  0 < chunk_ms ->
  let '(_, w') :=
    chunk_loop fuel a (Finite q) out_root window chunk_ms 0 0 w in
  NoDup (exported_paths (new_events w w')).

End SliceAudio.

(** ** A reference audio library

    Segments carry their format and their duration only.  A file decodes as
    WAV when it starts with the RIFF signature and has a complete 44-byte
    header; every file decodes as raw PCM. *)

Module Toy.

Record toy_segment := {
  t_rate : Z;
  t_channels : Z;
  t_width : Z;
  t_ms : Z
}.

Definition toy_wav (b : Py.bytes) : option toy_segment :=
  if Py.starts_with Process.RIFF b && (44 <=? Py.len b)
  then Some {| t_rate := 32000; t_channels := 1; t_width := 2;
               t_ms := Py.len b - 44 |}
  else None.

Definition toy_raw (w sr ch : Z) (b : Py.bytes) : option toy_segment :=
  Some {| t_rate := sr; t_channels := ch; t_width := w; t_ms := Py.len b |}.

#[global] Instance ToyPydub : Pydub := {|
  segment := toy_segment;
  decode_wav := toy_wav;
  decode_raw := toy_raw;
  decode_file := toy_wav;
  frame_rate := t_rate;
  channels := t_channels;
  sample_width := t_width;
  set_frame_rate r s :=
    Py.Ok {| t_rate := r; t_channels := t_channels s; t_width := t_width s;
             t_ms := t_ms s |};
  set_channels c s :=
    if (1 <=? c) && (c <=? 2)
    then Py.Ok {| t_rate := t_rate s; t_channels := c; t_width := t_width s;
                  t_ms := t_ms s |}
    else Py.Raise (Py.ValueError Py.Unsupported);
  set_sample_width w s :=
    Py.Ok {| t_rate := t_rate s; t_channels := t_channels s; t_width := w;
             t_ms := t_ms s |};
  silent d := {| t_rate := 11025; t_channels := 1; t_width := 2; t_ms := d |};
  seg_add a b :=
    {| t_rate := t_rate b; t_channels := t_channels b; t_width := t_width b;
       t_ms := t_ms a + t_ms b |};
  seg_len := t_ms;
  seg_slice s lo hi :=
    {| t_rate := t_rate s; t_channels := t_channels s; t_width := t_width s;
       t_ms := Z.min hi (t_ms s) - Z.min lo (t_ms s) |}
|}.

#[global] Instance ToyLaws : PydubLaws ToyPydub.
Proof.
  split; simpl; intros.
  - inversion H; subst; simpl; auto.
  - destruct ((1 <=? c) && (c <=? 2)); inversion H; subst; simpl; auto.
  - inversion H; subst; simpl; auto.
Qed.

End Toy.

(** ** Concrete inputs *)

Module Examples.
Import Py OS Toy.

Definition zeros (n : Z) : bytes := replicate (Z.to_nat n) Byte.x00.

(** A complete file in the toy format, of [ms] milliseconds: the signature,
    the rest of a header of 44 bytes, and the samples. *)
Definition good_wav (ms : Z) : bytes := Process.RIFF ++ zeros (40 + ms).

(** A directory with one recording; the second name of the listing cannot
    be read. *)
Definition first_file : string := "SBW1520_20160813_222435.wav".
Definition second_file : string := "SBW1520_20160813_222535.wav".

Definition one_readable : world (@segment ToyPydub) :=
  {| files := {[ "Data/SBW1520_20160813_222435.wav" := good_wav 10 ]};
     trace := [] |}.

(** A file that is cut after the signature. *)
Definition riff_only : world (@segment ToyPydub) :=
  {| files := {[ "x.wav" := Process.RIFF ]}; trace := [] |}.

(** A complete file behind one byte of garbage. *)
Definition shifted : world (@segment ToyPydub) :=
  {| files := {[ "x.wav" := Byte.x00 :: good_wav 10 ]}; trace := [] |}.

(** An operating system that refuses every [os.remove]. *)
Definition remove_refused : faults :=
  {| write_outcome_of := fun _ => WriteOk; remove_denied := fun _ => true |}.

(** An operating system on which a write stops after two bytes. *)
Definition disk_full : faults :=
  {| write_outcome_of := fun _ => WriteTorn 2;
     remove_denied := fun _ => false |}.

(** A recording of one second in the toy format, and the command line
    [--input in.wav --start s --end e --outdir out --name seg --chunk c]. *)
Definition one_second : world (@segment ToyPydub) :=
  {| files := {[ "in.wav" := good_wav 1000 ]}; trace := [] |}.

(** A recording of forty seconds. *)
Definition forty_seconds : world (@segment ToyPydub) :=
  {| files := {[ "in.wav" := good_wav 40000 ]}; trace := [] |}.

Definition command (s e : string) (c : pyfloat) (drop : bool)
    : SliceAudio.args :=
  {| SliceAudio.input := "in.wav"; SliceAudio.start := s;
     SliceAudio.end_ := e; SliceAudio.outdir := "out";
     SliceAudio.name := "seg"; SliceAudio.chunk := c;
     SliceAudio.drop_last := drop; SliceAudio.force_format := "wav";
     SliceAudio.sr := None; SliceAudio.arg_channels := None;
     SliceAudio.width := None |}.

Definition window_of (ms : Z) : @segment ToyPydub :=
  {| t_rate := 32000; t_channels := 1; t_width := 2; t_ms := ms |}.

End Examples.


(** ** process.py, from the listing of the directory

    Lines 91 to 108 and the script as a whole.  [datetime] is an interface,
    like [pydub]: the time stamps and their order. *)

Class Datetime := {
  datetime : Type;
  (** [datetime.strptime(s, "%Y%m%d%H%M%S")] *)
  strptime : string -> Py.result datetime;
  (** [a < b] *)
  dt_lt : datetime -> datetime -> bool
}.

(** The order of time stamps: [<] is asymmetric, and [>=] is transitive. *)
Class DatetimeLaws (D : Datetime) : Prop := {
  dt_lt_asym : forall a b, dt_lt a b = true -> dt_lt b a = false;
  dt_ge_trans : forall a b c,
    dt_lt b a = false -> dt_lt c b = false -> dt_lt c a = false
}.

Module Listing.
Import Py OS Process.

(** [c.lower()] for a code point below 256 *)
Definition lower_char (c : ascii) : ascii :=
  let n := code c in
  if ((65 <=? n) && (n <=? 90))
     || ((192 <=? n) && (n <=? 222) && negb (n =? 215))
  then ascii_of_N (Z.to_N (n + 32)) else c.

(** [s.lower()] *)
Fixpoint str_lower (s : string) : string :=
  match s with
  | EmptyString => EmptyString
  | String c s' => String (lower_char c) (str_lower s')
  end.

(** [s.endswith(suffix)] *)
Definition endswith (s suffix : string) : bool :=
  let n := String.length s in
  let m := String.length suffix in
  (m <=? n)%nat && String.eqb (substring (n - m) m s) suffix.

(** Line 91: the names of the listing that are kept. *)
Definition is_wav (f : string) : bool := endswith (str_lower f) ".wav".

Definition all_files (listing : list string) : list string :=
  List.filter is_wav listing.

(** The names that the pattern accepts, and those that lines 91 to 102 keep. *)
Definition matched (f : string) : bool :=
  match match_pattern f with Some _ => true | None => false end.

Definition accepted (f : string) : bool := is_wav f && matched f.

Definition refused (f : string) : bool := is_wav f && negb (matched f).

Section WithDatetime.
Context {D : Datetime}.

(** The loop of lines 95 to 102, on what is left of [all_files]. *)
Fixpoint scan_loop (files : list string)
    (file_times : list (string * datetime)) (skipped_badname : list string)
    : result (list (string * datetime) * list string) :=
  match files with
  | [] => Ok (file_times, skipped_badname)
  | f :: rest =>
      match match_pattern f with
      | None => scan_loop rest file_times (skipped_badname ++ [f])
      | Some (date_str, time_str) =>
          rbind (strptime (date_str +:+ time_str)) (fun ts =>
          scan_loop rest (file_times ++ [(f, ts)]) skipped_badname)
      end
  end.

(** [list.sort(key=...)] is stable: an element goes in front of the first
    element that is not before it. *)
Fixpoint insert_by_time (x : string * datetime)
    (l : list (string * datetime)) : list (string * datetime) :=
  match l with
  | [] => [x]
  | y :: l' =>
      if dt_lt (snd y) (snd x) then y :: insert_by_time x l'
      else x :: y :: l'
  end.

(** [file_times.sort(key=lambda x: x[1])]: the elements are inserted from the
    last to the first, so that equal time stamps keep their order. *)
Definition sort_by_time (file_times : list (string * datetime))
    : list (string * datetime) :=
  List.fold_right insert_by_time [] file_times.

(** The time stamp that line 101 reads in a name. *)
Definition timestamp (f : string) : result datetime :=
  match match_pattern f with
  | Some (date_str, time_str) => strptime (date_str +:+ time_str)
  | None => Raise (ValueError Unsupported)
  end.

(** Two time stamps of which none is before the other. *)
Definition same_time (a b : datetime) : bool :=
  negb (dt_lt a b) && negb (dt_lt b a).

(** [b] is not before [a]. *)
Definition not_after (a b : string * datetime) : Prop :=
  dt_lt b.2 a.2 = false.

(** The names whose time stamp is neither before nor after [ts]. *)
Definition at_time (ts : datetime) (f : string) : bool :=
  match timestamp f with
  | Ok t => same_time ts t
  | Raise _ => false
  end.

(** Lines 91 to 105: [sorted_files] and [skipped_badname]. *)
Definition scan (listing : list string)
    : result (list string * list string) :=
  rbind (scan_loop (all_files listing) [] []) (fun '(file_times, skipped) =>
  Ok (List.map fst (sort_by_time file_times), skipped)).

Context {P : Pydub} (os : faults).

(** The script from line 91 on; the result is [failed_files].  The prints of
    lines 154 to 157 are left out. *)
Definition script (listing : list string) (per_group : Z)
    : io segment (list string) :=
  '(sorted_files, skipped_badname) ← lift (scan listing) ;
  (if negb (len skipped_badname =? 0)
   then logging LogWarning "skipped" else mret tt) ;;
  combine_all os sorted_files per_group.

End WithDatetime.

(** The characters other than [c]. *)
Definition is_not (c : ascii) (a : ascii) : bool := negb (Ascii.eqb a c).

(** The names that the pattern and the filter of line 91 both accept. *)
Definition recording_name (date_str time_str : string) : string :=
  "SBW1520_" +:+ date_str +:+ "_" +:+ time_str +:+ ".wav".

Definition is_recording (f : string) : Prop :=
  exists d t,
    f = recording_name d t
    /\ String.length d = 8%nat /\ String.length t = 6%nat
    /\ all_digits d = true /\ all_digits t = true.

(** A reference calendar: the time stamp is the number that the fourteen
    digits write; a month outside 1 to 12 is refused. *)
Definition toy_strptime (s : string) : result Z :=
  if all_digits s && (String.length s =? 14)%nat then
    let month := digits_value 0 (substring 4 2 s) in
    if (1 <=? month) && (month <=? 12) then Ok (digits_value 0 s)
    else Raise (ValueError Unsupported)
  else Raise (ValueError Unsupported).

#[global] Instance ToyDatetime : Datetime := {|
  datetime := Z;
  strptime := toy_strptime;
  dt_lt := Z.ltb
|}.

#[global] Instance ToyDatetimeLaws : DatetimeLaws ToyDatetime.
Proof.
  split; simpl; intros.
  - apply Z.ltb_lt in H. apply Z.ltb_ge. lia.
  - apply Z.ltb_ge in H, H0. apply Z.ltb_ge. lia.
Qed.

(** A listing of five entries: two recordings out of order, a name that the
    pattern refuses, an upper-case extension, and a text file. *)
Definition sample_listing : list string :=
  ["SBW1520_20160813_222535.wav"; "notes.txt"; "SBW1520_20160813_222435.wav";
   "other_20160813_222435.wav"; "SBW1520_20160813_222635.WAV"].

End Listing.

(** ** What a run of process.py puts in its outputs

    Vocabulary for statements about the audio of the outputs, in terms of the
    content of the input files when the run starts. *)

Module Combined.
Import Py OS Process.

Section WithLibrary.
Context {P : Pydub} (os : faults).

(** The audio that the three tiers of the loader find in the content of the
    file [path], if it has one: the first tier that succeeds. *)
Definition decoded (path : string) (content : option bytes) : result segment :=
  match content with
  | None => Raise OSError
  | Some blob =>
      match decode_wav blob with
      | Some seg => Ok seg
      | None =>
          let k := find blob RIFF in
          let repaired :=
            if 0 <=? k then
              match write_outcome_of os (tmp_of path) with
              | WriteOk => decode_wav (drop (Z.to_nat k) blob)
              | _ => None
              end
            else None in
          match repaired with
          | Some seg => Ok seg
          | None =>
              of_option DecodeError
                (decode_raw TARGET_WIDTH TARGET_SR TARGET_CHANNELS blob)
          end
      end
  end.

(** The normalised audio of the file [filename] of the input directory. *)
Definition audio_of (w : world segment) (filename : string) : result segment :=
  let path := path_join input_dir filename in
  rbind (decoded path (files w !! path)) normalize.

Definition unreadable (w : world segment) (filename : string) : bool :=
  negb (is_ok (audio_of w filename)).

(** The audio of the files of a group that can be read, in order. *)
Definition loaded_audio (w : world segment) (group_files : list string)
    : list segment :=
  omap (fun f => match audio_of w f with
                 | Ok seg => Some seg
                 | Raise _ => None
                 end) group_files.

(** [combined] after the segments [segs]: line 122, then line 129 for each. *)
Definition joined (segs : list segment) : segment :=
  fold_left seg_add segs (silent 0).

(** The state of the loop of lines 125 to 134 after the files [group_files],
    from the state [st]. *)
Definition group_end (w : world segment) (st : group_state)
    (group_files : list string) : group_state :=
  {| combined := fold_left seg_add (loaded_audio w group_files) (combined st);
     ok_count := ok_count st + len (loaded_audio w group_files);
     failed_files :=
       failed_files st ++ List.filter (unreadable w) group_files |}.

(** The output of a group: none when no file can be read. *)
Definition export_of (w : world segment) (group_files : list string)
    : option (string * segment) :=
  let segs := loaded_audio w group_files in
  match segs, out_name group_files (len segs) with
  | _ :: _, Ok name => Some (path_join output_dir name, joined segs)
  | _, _ => None
  end.

(** The exports of a trace, in order. *)
Definition exports (t : list (event segment)) : list (string * segment) :=
  omap (fun ev => match ev with
                  | EvExport p seg => Some (p, seg)
                  | _ => None
                  end) t.

(** The file of the log records, line 24. *)
Definition log_path : string := path_join output_dir "combine_log.txt".

(** No file of the list is the temporary file of another. *)
Definition no_clash (names : list string) : Prop :=
  forall f f', f ∈ names -> f' ∈ names ->
    path_join input_dir f <> tmp_of (path_join input_dir f').

End WithLibrary.
End Combined.

(** ** The chunks of slice_audio.py

    Vocabulary for statements about the loop of lines 74 to 88 as a whole. *)

Module Chunks.
Import Py.

(** The number of chunks of a window of [total] milliseconds cut every
    [chunk_ms] milliseconds: the short last chunk is counted unless it is
    dropped. *)
Definition chunk_count (drop : bool) (total chunk_ms : Z) : Z :=
  Z.max 0 (if drop then total / chunk_ms else ceil_div total chunk_ms).

(** The positions at which [k] chunks start, from [pos] on. *)
Definition chunk_starts (pos chunk_ms : Z) (k : Z) : list Z :=
  List.map (fun i => pos + Z.of_nat i * chunk_ms) (List.seq 0 (Z.to_nat k)).

(** The floats that are numbers. *)
Definition is_finite (x : pyfloat) : bool :=
  match x with Finite _ => true | _ => false end.

(** The sum of a list of durations. *)
Definition total_of (l : list Z) : Z := List.fold_right Z.add 0 l.


End Chunks.

(** * Properties *)

Ltac io_unfold :=
  unfold mbind, OS.io_bind, mret, OS.io_ret, OS.bind, OS.ret, OS.raise,
    OS.attempt, OS.lift, OS.emit, OS.logging, OS.get_files, OS.set_files in *.

(** ** Worlds and traces *)

Module OSFacts.
Import Py OS.

Lemma extend_extend {segment} (w : world segment) e1 e2 :
  extend (extend w e1) e2 = extend w (e1 ++ e2).
Proof. unfold extend; simpl. now rewrite app_assoc. Qed.

Lemma extend_nil {segment} (w : world segment) : extend w [] = w.
Proof. destruct w; unfold extend; simpl. now rewrite app_nil_r. Qed.

Lemma exported_paths_app {segment} (t1 t2 : list (event segment)) :
  exported_paths (t1 ++ t2) = exported_paths t1 ++ exported_paths t2.
Proof. apply omap_app. Qed.

End OSFacts.

(** ** Strings, lists and numbers *)

Module PyFacts.
Import Py.

(** *** Concatenation *)

Lemma app_empty (s : string) : EmptyString +:+ s = s.
Proof. reflexivity. Qed.

Lemma app_cons c (a b : string) : String c a +:+ b = String c (a +:+ b).
Proof. reflexivity. Qed.

Lemma app_empty_r (s : string) : s +:+ EmptyString = s.
Proof.
  induction s as [|c s IH]; [reflexivity|]. rewrite app_cons. now rewrite IH.
Qed.

Lemma app_assoc_str (a b c : string) : (a +:+ b) +:+ c = a +:+ (b +:+ c).
Proof.
  induction a as [|x a IH]; [reflexivity|].
  rewrite !app_cons. now rewrite IH.
Qed.

Lemma string_app_length (a b : string) :
  String.length (a +:+ b) = (String.length a + String.length b)%nat.
Proof.
  induction a as [|c a IH]; [reflexivity|].
  rewrite app_cons. simpl. now rewrite IH.
Qed.

(** *** Classes of characters *)

Lemma chars_app p a b : chars p (a +:+ b) = chars p a && chars p b.
Proof.
  induction a as [|c a IH]; [reflexivity|].
  rewrite app_cons. simpl. rewrite IH. now rewrite andb_assoc.
Qed.

Lemma chars_impl (p q : ascii -> bool) s :
  (forall c, p c = true -> q c = true) -> chars p s = true -> chars q s = true.
Proof.
  intros H. induction s as [|c s IH]; [reflexivity|]. simpl.
  intros [Hc Hs]%andb_prop. now rewrite (H c Hc), IH.
Qed.

Lemma all_digits_chars s : all_digits s = chars is_digit s.
Proof. induction s; simpl; congruence. Qed.

Lemma is_digit_code c : is_digit c = true -> 48 <= code c <= 57.
Proof. unfold is_digit. intros [H1 H2]%andb_prop. lia. Qed.

Lemma code_eqb c d : Ascii.eqb c d = true -> code c = code d.
Proof. now intros ->%Ascii.eqb_eq. Qed.


Lemma plain_not_space c : plain_char c = true -> is_space c = false.
Proof.
  intros Hp. unfold plain_char in Hp. unfold is_space.
  apply orb_prop in Hp as [Hp|Hp].
  - apply is_digit_code in Hp.
    repeat (apply orb_false_intro); try apply andb_false_intro2; lia.
  - apply code_eqb in Hp. change (code ".") with 46 in Hp. rewrite Hp. reflexivity.
Qed.




(** *** Stripping and splitting *)



Lemma lstrip_plain s : chars plain_char s = true -> lstrip s = s.
Proof.
  destruct s as [|c s]; [reflexivity|]. simpl.
  intros [Hc _]%andb_prop. now rewrite (plain_not_space c Hc).
Qed.

Lemma rstrip_plain s : chars plain_char s = true -> rstrip s = s.
Proof.
  induction s as [|c s IH]; [reflexivity|]. simpl.
  intros [Hc Hs]%andb_prop. rewrite (IH Hs), (plain_not_space c Hc).
  now destruct s.
Qed.

Lemma strip_plain s : chars plain_char s = true -> strip s = s.
Proof.
  intros H. unfold strip. rewrite (lstrip_plain s H). now apply rstrip_plain.
Qed.






(** *** Digits *)



Lemma take_digits_app d r :
  all_digits d = true ->
  match r with String c _ => is_digit c = false | EmptyString => True end ->
  take_digits (d +:+ r) = (d, r).
Proof.
  intros Hd Hr. induction d as [|c d IH].
  - rewrite app_empty. destruct r as [|c r]; [reflexivity|].
    simpl. now rewrite Hr.
  - simpl in Hd. apply andb_prop in Hd as [Hc Hd].
    rewrite app_cons. simpl. rewrite Hc, (IH Hd). reflexivity.
Qed.






(** *** Decimal printing *)

Lemma digit_val_char x :
  (x < 10)%N ->
  is_digit (pretty_N_char x) = true /\ digit_val (pretty_N_char x) = Z.of_N x.
Proof.
  intros H.
  assert (x = 0 \/ x = 1 \/ x = 2 \/ x = 3 \/ x = 4 \/ x = 5 \/ x = 6
          \/ x = 7 \/ x = 8 \/ x = 9)%N as Hx by lia.
  repeat (destruct Hx as [->|Hx]; [split; reflexivity|]). subst; split; reflexivity.
Qed.

Lemma pretty_go_digits x : forall s,
  all_digits s = true -> all_digits (pretty_N_go x s) = true.
Proof.
  induction (N.lt_wf_0 x) as [x _ IH]; intros s Hs.
  destruct (N.eq_dec x 0%N) as [->|Hx]; [now rewrite pretty_N_go_0|].
  rewrite pretty_N_go_step by lia.
  apply IH; [apply N.div_lt; lia|].
  simpl. rewrite Hs.
  destruct (digit_val_char (x mod 10)%N) as [-> _]; [|reflexivity].
  apply N.mod_lt; lia.
Qed.

Lemma pretty_go_value x : forall s,
  digits_value 0 (pretty_N_go x s) = digits_value (Z.of_N x) s.
Proof.
  induction (N.lt_wf_0 x) as [x _ IH]; intros s.
  destruct (N.eq_dec x 0%N) as [->|Hx]; [now rewrite pretty_N_go_0|].
  rewrite pretty_N_go_step by lia.
  rewrite IH by (apply N.div_lt; lia).
  simpl. f_equal.
  destruct (digit_val_char (x mod 10)%N) as [_ ->]; [apply N.mod_lt; lia|].
  rewrite (N.div_mod x 10) at 3 by lia. lia.
Qed.

Lemma pretty_nonneg z :
  0 <= z ->
  all_digits (pretty z) = true /\ digits_value 0 (pretty z) = z.
Proof.
  intros Hz. destruct z as [|p|p]; [split; reflexivity| |lia].
  unfold pretty, pretty_Z, pretty, pretty_positive, pretty, pretty_N.
  destruct (decide (N.pos p = 0%N)); [discriminate|].
  split; [now apply pretty_go_digits|].
  rewrite pretty_go_value. reflexivity.
Qed.

Lemma format_02d_nonneg z :
  0 <= z ->
  all_digits (format_02d z) = true /\ digits_value 0 (format_02d z) = z.
Proof.
  intros Hz. destruct (pretty_nonneg z Hz) as [Hd Hv].
  unfold format_02d. destruct z as [|p|p]; [split; reflexivity| |lia].
  destruct (String.length (pretty (Z.pos p)) <? 2)%nat; [|now split].
  simpl. rewrite Hd. split; [reflexivity|].
  exact Hv.
Qed.

(** *** Lists, ranges and bytes *)

Lemma ceil_div_eq a b : 0 < b -> ceil_div a b = - ((- a) / b).
Proof.
  intros Hb. unfold ceil_div, Qceiling, Qfloor. simpl.
  now rewrite Z2Pos.id.
Qed.

Lemma range_up_unfold i stop step H :
  range_up i stop step H =
  if i <? stop then i :: range_up (i + step) stop step H else [].
Proof.
  rewrite range_up_equation_1.
  destruct (Z_lt_dec i stop) as [Hlt|Hge]; simpl.
  - destruct (Z.ltb_spec i stop); [reflexivity|lia].
  - destruct (Z.ltb_spec i stop); [lia|reflexivity].
Qed.

Lemma len_nonneg {A} (l : list A) : 0 <= len l.
Proof. unfold len. lia. Qed.

Lemma slice_window {A} (l : list A) i n :
  0 <= i <= len l -> 0 < n ->
  slice l (Some i) (Some (i + n)) = take (Z.to_nat n) (drop (Z.to_nat i) l).
Proof.
  intros Hi Hn. unfold slice, clamp_index.
  destruct (Z.ltb_spec i 0); [lia|].
  destruct (Z.ltb_spec (i + n) 0); [lia|].
  rewrite (Z.min_l i) by lia.
  destruct (Z.le_ge_cases (i + n) (len l)) as [Hle|Hge].
  - rewrite Z.min_l by lia. f_equal. lia.
  - rewrite Z.min_r by lia.
    rewrite (take_ge _ (Z.to_nat n)); [apply take_ge|];
      rewrite length_drop; unfold len in *; lia.
Qed.

Lemma slice_from {A} (l : list A) k :
  0 <= k -> slice l (Some k) None = drop (Z.to_nat k) l.
Proof.
  intros Hk. unfold slice, clamp_index.
  destruct (Z.ltb_spec k 0); [lia|].
  destruct (Z.le_ge_cases k (len l)).
  - rewrite Z.min_l by lia. apply take_ge. rewrite length_drop. unfold len. lia.
  - rewrite Z.min_r by lia. rewrite Z.sub_diag. simpl.
    symmetry. apply drop_ge. unfold len in *. lia.
Qed.

Lemma index_head {A} (l : list A) x : head l = Some x -> index l 0 = Ok x.
Proof.
  destruct l as [|y l]; [discriminate|]. intros [= ->].
  unfold index, len. simpl length.
  destruct (Z.leb_spec (Z.of_nat (S (List.length l))) 0); [lia|reflexivity].
Qed.

Lemma index_last {A} (l : list A) x i :
  last l = Some x -> i = len l - 1 \/ i = -1 -> index l i = Ok x.
Proof.
  intros Hl Hi.
  assert (Hn : (0 < List.length l)%nat).
  { destruct l; [discriminate|simpl; lia]. }
  rewrite last_lookup in Hl.
  unfold index, len in *.
  assert ((if i <? 0 then i + Z.of_nat (List.length l) else i)
          = Z.of_nat (Nat.pred (List.length l))) as ->.
  { destruct Hi as [->| ->]; [destruct (Z.ltb_spec (Z.of_nat (List.length l) - 1) 0)|simpl]; lia. }
  destruct (Z.ltb_spec (Z.of_nat (Nat.pred (List.length l))) 0); [lia|].
  destruct (Z.leb_spec (Z.of_nat (List.length l)) (Z.of_nat (Nat.pred (List.length l)))); [lia|].
  simpl. rewrite Nat2Z.id, Hl. reflexivity.
Qed.

Lemma find_from_spec needle hay : forall k0,
  let r := find_from k0 needle hay in
  r = -1 \/ (k0 <= r /\ starts_with needle (drop (Z.to_nat (r - k0)) hay) = true).
Proof.
  induction hay as [|b hay IH]; intros k0; simpl.
  - destruct (starts_with needle []) eqn:E; [|now left].
    right. split; [lia|]. now rewrite Z.sub_diag.
  - destruct (starts_with needle (b :: hay)) eqn:E.
    + right. split; [lia|]. now rewrite Z.sub_diag.
    + destruct (IH (k0 + 1)) as [H|[H1 H2]]; [now left|right].
      split; [lia|].
      replace (Z.to_nat (find_from (k0 + 1) needle hay - k0))
        with (S (Z.to_nat (find_from (k0 + 1) needle hay - (k0 + 1)))) by lia.
      exact H2.
Qed.

Lemma find_spec hay needle :
  0 <= find hay needle ->
  starts_with needle (drop (Z.to_nat (find hay needle)) hay) = true.
Proof.
  intros H. unfold find in *.
  destruct (find_from_spec needle hay 0) as [E|[_ E]]; [lia|].
  now rewrite Z.sub_0_r in E.
Qed.

(** *** Numbers *)

Lemma fle_not_fgt x y : fle x y = true -> fgt x y = false.
Proof.
  destruct x as [a|[]|], y as [b|[]|]; simpl; try congruence.
  intros ->. reflexivity.
Qed.

Lemma trunc_nonneg (x : Q) : (0 <= x)%Q -> trunc x = Qfloor x.
Proof.
  intros H. unfold trunc. now rewrite (proj2 (Qle_bool_iff 0 x) H).
Qed.



End PyFacts.

(** ** process.py *)

Module ProcessFacts.
Import Py PyFacts OS OSFacts Process Toy Examples.

(** *** The groups *)

Section Groups.
Context {A : Type} (l : list A) (N : Z) (HN : 0 < N).
Local Abbreviation groups_from := (groups_from l N HN).
Local Abbreviation sizes_ok := (sizes_ok N).
Local Abbreviation last_size := (last_size N).

Lemma groups_from_unfold i :
  0 <= i < len l ->
  groups_from i = take (Z.to_nat N) (drop (Z.to_nat i) l) :: groups_from (i + N).
Proof.
  intros Hi. unfold Process.groups_from at 1. rewrite range_up_unfold.
  destruct (Z.ltb_spec i (len l)); [|lia]. simpl.
  rewrite slice_window by lia.
  assert (Hne : negb (len (take (Z.to_nat N) (drop (Z.to_nat i) l)) =? 0) = true).
  { unfold len. rewrite length_take, length_drop.
    unfold len in *. destruct (Z.eqb_spec (Z.of_nat (Z.to_nat N `min` (List.length l - Z.to_nat i))) 0); [lia|reflexivity]. }
  rewrite Hne. reflexivity.
Qed.

Lemma groups_from_end i : len l <= i -> groups_from i = [].
Proof.
  intros Hi. unfold Process.groups_from. rewrite range_up_unfold.
  destruct (Z.ltb_spec i (len l)); [lia|reflexivity].
Qed.

Lemma groups_from_spec (m : nat) :
  forall i, 0 <= i <= len l -> (Z.to_nat (len l - i) <= m)%nat ->
    concat (groups_from i) = drop (Z.to_nat i) l
    /\ len (groups_from i) = ceil_div (len l - i) N
    /\ sizes_ok (len l - i) (groups_from i).
Proof.
  induction m as [|m IH]; intros i Hi Hm.
  - assert (i = len l) by lia. subst i.
    rewrite groups_from_end by lia. simpl.
    rewrite ceil_div_eq by lia. rewrite Z.sub_diag. simpl.
    split; [|split].
    + unfold len. rewrite Nat2Z.id. now rewrite drop_all.
    + unfold len. simpl. reflexivity.
    + intros k g Hk. now rewrite lookup_nil in Hk.
  - destruct (Z.eq_dec i (len l)) as [->|Hne].
    { apply IH; lia. }
    rewrite groups_from_unfold by lia.
    set (g := take (Z.to_nat N) (drop (Z.to_nat i) l)).
    assert (Hg : len g = Z.min N (len l - i)).
    { unfold g, len. rewrite length_take, length_drop. unfold len in *. lia. }
    destruct (Z_lt_dec (i + N) (len l)) as [Hlt|Hge].
    + destruct (IH (i + N)) as (Hc & Hl & Hs); [lia|lia|].
      split; [|split].
      * simpl. rewrite Hc. unfold g.
        replace (Z.to_nat (i + N)) with (Z.to_nat i + Z.to_nat N)%nat by lia.
        rewrite <- drop_drop. apply take_drop.
      * unfold len in *. simpl length. rewrite Nat2Z.inj_succ, Hl.
        rewrite !ceil_div_eq by lia.
        replace (- (Z.of_nat (List.length l) - i))
          with (- (Z.of_nat (List.length l) - (i + N)) + (-1) * N) by lia.
        rewrite Z.div_add by lia. lia.
      * intros k g' Hk. destruct k as [|k]; simpl in Hk.
        -- injection Hk as <-. simpl length.
           assert (0 < len (groups_from (i + N))).
           { rewrite Hl, ceil_div_eq by lia.
             assert (- (len l - (i + N)) / N < 0); [|lia].
             apply Z.div_lt_upper_bound; lia. }
           unfold len in H.
           destruct (Nat.ltb_spec 1 (S (List.length (groups_from (i + N))))); [|lia].
           lia.
        -- apply Hs in Hk. rewrite Hk. simpl length.
           change (S (S k) <? S (List.length (groups_from (i + N))))%nat
             with (S k <? List.length (groups_from (i + N)))%nat.
           destruct (S k <? _)%nat; [reflexivity|].
           unfold Process.last_size.
           replace (len l - i) with ((len l - (i + N)) + 1 * N) by lia.
           now rewrite Z.mod_add by lia.
    + rewrite groups_from_end by lia.
      split; [|split].
      * simpl. rewrite app_nil_r. unfold g. apply take_ge.
        rewrite length_drop. unfold len in *. lia.
      * unfold len at 1. simpl. rewrite ceil_div_eq by lia.
        assert (- (len l - i) / N = -1); [|lia].
        symmetry. apply (Z.div_unique _ _ _ (N - (len l - i))); lia.
      * intros k g' Hk. destruct k as [|k]; simpl in Hk; [|now rewrite lookup_nil in Hk].
        injection Hk as <-. simpl. rewrite Hg. unfold Process.last_size.
        destruct (Z.eq_dec (len l - i) N) as [Heq|Hneq].
        -- rewrite Heq, Z.mod_same by lia. simpl. lia.
        -- rewrite Z.mod_small by lia.
           destruct (Z.eqb_spec (len l - i) 0); lia.
Qed.

End Groups.

(** C5.  For a list of [L] files and a group size [N > 0] the grouping loop
    makes [ceil(L / N)] groups; every group has [N] files, except that the
    last has [L mod N] when [N] does not divide [L]; the groups in order,
    put end to end, are the list itself. *)
Theorem group_slices_partition {A : Type} (sorted_files : list A) (N : Z) :
  0 < N ->
  exists groups,
    group_slices sorted_files N = Ok groups
    /\ len groups = ceil_div (len sorted_files) N
    /\ concat groups = sorted_files
    /\ forall k g, groups !! k = Some g ->
         len g = if (S k <? List.length groups)%nat then N
                 else if len sorted_files mod N =? 0 then N
                      else len sorted_files mod N.
Proof.
  intros HN.
  exists (groups_from sorted_files N HN 0).
  destruct (groups_from_spec sorted_files N HN (List.length sorted_files) 0)
    as (Hc & Hl & Hs).
  { pose proof (len_nonneg sorted_files). lia. }
  { unfold len. lia. }
  rewrite Z.sub_0_r in *.
  split; [|split; [|split]]; try assumption.
  unfold group_slices, range.
  destruct (Z_dec' 0 N) as [[Hpos|Hneg]|Hz]; try lia.
  simpl. unfold Process.groups_from. f_equal.
  now rewrite (proof_irrel Hpos HN).
Qed.

Lemma group_slices_partition_witness :
  0 < 2
  /\ exists groups,
       group_slices [1; 2; 3; 4; 5] 2 = Ok groups
       /\ len groups = ceil_div (len [1; 2; 3; 4; 5]) 2
       /\ concat groups = [1; 2; 3; 4; 5]
       /\ forall k g, groups !! k = Some g ->
            len g = if (S k <? List.length groups)%nat then 2
                    else if len [1; 2; 3; 4; 5] mod 2 =? 0 then 2
                         else len [1; 2; 3; 4; 5] mod 2.
Proof.
  split; [lia|]. apply (group_slices_partition [1; 2; 3; 4; 5] 2). lia.
Defined.

(** *** The loader *)

Lemma tmp_of_neq path : tmp_of path <> path.
Proof.
  intros H. apply (f_equal String.length) in H.
  unfold tmp_of in H. rewrite string_app_length in H. simpl in H. lia.
Qed.

Arguments starts_with : simpl never.

Section Loader.
Context {P : Pydub} (os : faults).

Ltac loader_unfold :=
  unfold robust_load_audio, robust_load_audio_with, riff_repair, raw_fallback,
    from_wav, from_raw, read_file, write_file, remove;
  io_unfold; simpl.

Ltac loader_step :=
  first
    [ rewrite lookup_insert_eq
    | rewrite lookup_insert_ne by apply tmp_of_neq
    | rewrite lookup_delete_ne by apply tmp_of_neq
    | rewrite lookup_delete_eq
    | rewrite delete_insert_eq
    | progress simpl in *
    | progress simplify_eq
    | match goal with
      | |- context [match ?x with _ => _ end] =>
          lazymatch x with
          | context [match _ with _ => _ end] => fail
          | _ => destruct x eqn:?
          end
      end ].


(** C2, as amended.  The second tier runs exactly when the direct decode
    failed, the file could be read and the signature occurs in it at an offset
    [k >= 0], the offset 0 included.  When it runs, the bytes from the first
    occurrence on are what is written to the temporary path; and when that
    write succeeds the decode is retried on the temporary file, so that a
    trimmed content that decodes is what the loader returns. *)
Theorem tier2_exactly_when path w :
  let '(r, w') := robust_load_audio os path w in
  exists evs,
    trace w' = trace w ++ evs
    /\ (tier2_attempted path evs = true <->
        exists blob, files w !! path = Some blob
                     /\ decode_wav blob = None
                     /\ 0 <= find blob RIFF)
    /\ (forall blob, files w !! path = Some blob ->
          decode_wav blob = None -> 0 <= find blob RIFF ->
          let trimmed := drop (Z.to_nat (find blob RIFF)) blob in
          starts_with RIFF trimmed = true
          /\ In (EvWrite (tmp_of path) trimmed) evs
          /\ (write_outcome_of os (tmp_of path) = WriteOk ->
              In (EvFromWav (tmp_of path)) evs
              /\ forall seg, decode_wav trimmed = Some seg -> r = Ok seg)).
Proof.
  loader_unfold. fold (tmp_of path).
  repeat loader_step.
  all: try (eexists; rewrite <- ?app_assoc; split; [reflexivity|]).
  all: simpl; rewrite ?String.eqb_refl; simpl.
  all: repeat match goal with
       | H : of_option _ ?o = _ |- _ =>
           destruct o eqn:?; simpl in H; simplify_eq
       | H : (0 <=? _) = true |- _ => apply Z.leb_le in H
       | H : (0 <=? _) = false |- _ => apply Z.leb_gt in H
       end.
  all: rewrite ?slice_from in * by assumption.
  all: (split; [split|]);
    [ intros ?; try discriminate; eexists; split_and!; eauto
    | intros (blob & ? & ? & ?); simplify_eq; try lia; reflexivity
    | intros blob ? ? ?; simplify_eq; try lia ].
  all: split_and!; try (apply find_spec; assumption); auto 10.
  all: intros; try discriminate.
  all: split; [auto 10|intros; congruence].
Qed.

Lemma robust_load_audio_quiet path w :
  exists evs, trace (robust_load_audio os path w).2 = trace w ++ evs
              /\ exported_paths evs = [].
Proof.
  loader_unfold. fold (tmp_of path).
  repeat loader_step.
  all: eexists; rewrite <- ?app_assoc; split; reflexivity.
Qed.

Lemma load_one_run st filename w :
  exists st' evs new,
    (load_one os st filename w).1 = Ok st'
    /\ trace (load_one os st filename w).2 = trace w ++ evs
    /\ exported_paths evs = []
    /\ failed_files st' = failed_files st ++ new
    /\ sublist new [filename]
    /\ ok_count st' = ok_count st + 1 - len new.
Proof.
  unfold load_one. io_unfold.
  destruct (robust_load_audio_quiet (path_join input_dir filename) w)
    as (evs & Ht & He).
  destruct (robust_load_audio os (path_join input_dir filename) w) as [r w1].
  simpl in Ht.
  destruct r as [seg|e]; simpl.
  - destruct (normalize seg) as [seg'|e]; simpl.
    + exists {| combined := seg_add (combined st) seg';
                ok_count := ok_count st + 1;
                failed_files := failed_files st |}, evs, [].
      rewrite app_nil_r. simpl. split_and!; auto.
      * apply sublist_nil_l.
      * unfold len; simpl; lia.
    + eexists _, (evs ++ [EvLog LogError filename]), [filename].
      rewrite Ht, exported_paths_app, He, <- app_assoc. simpl.
      split_and!; auto. unfold len; simpl; lia.
  - eexists _, (evs ++ [EvLog LogError filename]), [filename].
    rewrite Ht, exported_paths_app, He, <- app_assoc. simpl.
    split_and!; auto. unfold len; simpl; lia.
Qed.

Lemma load_all_run group_files : forall st w,
  exists st' w' evs new,
    load_all os st group_files w = (Ok st', w')
    /\ trace w' = trace w ++ evs
    /\ exported_paths evs = []
    /\ failed_files st' = failed_files st ++ new
    /\ sublist new group_files
    /\ ok_count st' = ok_count st + len group_files - len new.
Proof.
  induction group_files as [|f rest IH]; intros st w; simpl.
  - exists st, w, [], []. io_unfold. rewrite !app_nil_r.
    unfold len; simpl. split_and!; auto. lia.
  - io_unfold.
    destruct (load_one_run st f w)
      as (st1 & evs1 & new1 & Hr & Ht & He & Hf & Hs & Hc).
    destruct (load_one os st f w) as [r w1]. simpl in Hr, Ht. subst r.
    destruct (IH st1 w1)
      as (st2 & w2 & evs2 & new2 & Hrun & Ht2 & He2 & Hf2 & Hs2 & Hc2).
    exists st2, w2, (evs1 ++ evs2), (new1 ++ new2).
    rewrite Hrun, Ht2, Ht, Hf2, Hf, exported_paths_app, He, He2, !app_assoc.
    split_and!; auto.
    + change (f :: rest) with ([f] ++ rest). now apply sublist_app.
    + rewrite Hc2, Hc. unfold len. rewrite length_app. simpl length. lia.
Qed.

End Loader.

Lemma tier2_exactly_when_witness :
  let '(r, w') := robust_load_audio no_faults "x.wav" shifted in
  exists evs,
    trace w' = trace shifted ++ evs
    /\ (tier2_attempted "x.wav" evs = true <->
        exists blob, files shifted !! "x.wav" = Some blob
                     /\ decode_wav blob = None
                     /\ 0 <= find blob RIFF)
    /\ (forall blob, files shifted !! "x.wav" = Some blob ->
          decode_wav blob = None -> 0 <= find blob RIFF ->
          let trimmed := drop (Z.to_nat (find blob RIFF)) blob in
          starts_with RIFF trimmed = true
          /\ In (EvWrite (tmp_of "x.wav") trimmed) evs
          /\ (write_outcome_of no_faults (tmp_of "x.wav") = WriteOk ->
              In (EvFromWav (tmp_of "x.wav")) evs
              /\ forall seg, decode_wav trimmed = Some seg -> r = Ok seg)).
Proof. apply (tier2_exactly_when no_faults "x.wav" shifted). Defined.

Lemma tier2_at_offset_zero_counterexample :
  ~ claimed_tier2 no_faults "x.wav" riff_only.
Proof.
  unfold claimed_tier2.
  destruct (robust_load_audio no_faults "x.wav" riff_only) as [r w'] eqn:E.
  assert (Ht : tier2_attempted "x.wav" (new_events riff_only w') = true).
  { replace w' with (robust_load_audio no_faults "x.wav" riff_only).2
      by (now rewrite E).
    vm_compute. reflexivity. }
  intros [H _]. destruct (H Ht) as (blob & Hb & _ & Hk).
  vm_compute in Hb. injection Hb as <-. vm_compute in Hk. discriminate Hk.
Qed.



(** A write that is cut short leaves its file as well: the clean-up is after
    the write, inside the same [try]. *)
Example temp_file_left_by_torn_write :
  ~ claimed_cleanup disk_full "x.wav" shifted.
Proof.
  unfold claimed_cleanup.
  destruct (robust_load_audio disk_full "x.wav" shifted) as [r w'] eqn:E.
  replace w' with (robust_load_audio disk_full "x.wav" shifted).2
    by (now rewrite E).
  intros H.
  assert (Ht : tier2_attempted "x.wav"
                 (new_events shifted
                    (robust_load_audio disk_full "x.wav" shifted).2) = true)
    by (vm_compute; reflexivity).
  specialize (H Ht). vm_compute in H. discriminate H.
Qed.

(** *** The name of the output *)

Lemma out_name_ok group_files ok first last_f d t :
  head group_files = Some first ->
  last group_files = Some last_f ->
  match_pattern last_f = Some (d, t) ->
  out_name group_files ok
  = Ok ((splitext first).1 +:+ "_TO_" +:+ t +:+ ".wav").
Proof.
  intros Hh Hl Hm. unfold out_name.
  rewrite (index_head _ _ Hh). simpl.
  destruct (ok =? len group_files) eqn:E.
  - apply Z.eqb_eq in E. rewrite (index_last _ last_f) by (auto; lia).
    simpl. now rewrite Hm.
  - rewrite (index_last _ last_f) by auto. simpl. now rewrite Hm.
Qed.

Lemma last_loaded group_files new last_f :
  last group_files = Some last_f -> last_f ∉ new ->
  last (loaded group_files new) = Some last_f.
Proof.
  intros Hl Hn.
  destruct (last_Some group_files last_f) as [[l' ->] _]; [assumption|].
  unfold loaded. rewrite filter_app, filter_cons_True by assumption.
  rewrite filter_nil. apply last_snoc.
Qed.

Section GroupExport.
Context {P : Pydub} (os : faults).

(** C1, as amended.  For every group that is exported, the name of the output
    is the base name of the first file of the group, ["_TO_"], and the time
    of the last file of the group in the sorted order, whether that file was
    read or not.  A group is exported when one of its files at least was
    read.  When the last file of the group was read, it is the last file that
    was read, and the name is the one of the specification. *)
Theorem out_name_first_to_last failed group_files first last_f d t w :
  head group_files = Some first ->
  last group_files = Some last_f ->
  match_pattern last_f = Some (d, t) ->
  let expected :=
    path_join output_dir ((splitext first).1 +:+ "_TO_" +:+ t +:+ ".wav") in
  exists new evs w',
    combine_group os failed group_files w = (Ok (failed ++ new), w')
    /\ trace w' = trace w ++ evs
    /\ sublist new group_files
    /\ exported_paths evs
       = (if len new <? len group_files then [expected] else [])
    /\ (last_f ∉ new -> last (loaded group_files new) = Some last_f).
Proof.
  intros Hh Hl Hm expected.
  unfold combine_group. io_unfold.
  destruct (load_all_run os group_files
              {| combined := silent 0; ok_count := 0; failed_files := failed |}
              {| files := files w;
                 trace := trace w ++ [EvLog LogInfo "group"] |})
    as (st & w1 & evs & new & Hrun & Ht & He & Hf & Hs & Hc).
  simpl in *. rewrite Hrun.
  exists new.
  assert (Hlen : len new <= len group_files).
  { unfold len. apply sublist_length in Hs. lia. }
  destruct (Z.eqb_spec (ok_count st) 0) as [Hz|Hnz].
  - eexists _, _. simpl. rewrite Ht, <- !app_assoc, Hf.
    split_and!; [reflexivity|reflexivity|assumption| |now apply last_loaded].
    rewrite !exported_paths_app, He. simpl.
    destruct (Z.ltb_spec (len new) (len group_files)); [lia|reflexivity].
  - rewrite (out_name_ok _ _ _ _ _ _ Hh Hl Hm). simpl.
    eexists _, _. rewrite Ht, <- !app_assoc, Hf.
    split_and!; [reflexivity|reflexivity|assumption| |now apply last_loaded].
    rewrite !exported_paths_app, He. simpl.
    destruct (Z.ltb_spec (len new) (len group_files)); [reflexivity|lia].
Qed.

End GroupExport.

Lemma out_name_first_to_last_witness :
  head [first_file; second_file] = Some first_file
  /\ last [first_file; second_file] = Some second_file
  /\ match_pattern second_file = Some ("20160813", "222535")
  /\ exists new evs w',
       combine_group no_faults [] [first_file; second_file] one_readable
       = (Ok ([] ++ new), w')
       /\ trace w' = trace one_readable ++ evs
       /\ sublist new [first_file; second_file]
       /\ exported_paths evs
          = (if len new <? len [first_file; second_file]
             then [path_join output_dir
                     ((splitext first_file).1 +:+ "_TO_" +:+ "222535" +:+ ".wav")]
             else [])
       /\ (second_file ∉ new ->
           last (loaded [first_file; second_file] new) = Some second_file).
Proof.
  split; [reflexivity|]. split; [reflexivity|]. split; [reflexivity|].
  apply (out_name_first_to_last no_faults [] [first_file; second_file]
           first_file second_file "20160813" "222535" one_readable);
    reflexivity.
Defined.

Lemma last_loaded_name_counterexample :
  ~ claimed_group_export no_faults [] [first_file; second_file] one_readable.
Proof.
  unfold claimed_group_export.
  destruct (combine_group no_faults [] [first_file; second_file] one_readable)
    as [r w'] eqn:E.
  assert (Hr : r = Ok [second_file]).
  { replace r with
      (combine_group no_faults [] [first_file; second_file] one_readable).1
      by (now rewrite E).
    vm_compute. reflexivity. }
  assert (Hp : exported_paths (new_events one_readable w')
               = ["combinedall/SBW1520_20160813_222435_TO_222535.wav"]).
  { replace w' with
      (combine_group no_faults [] [first_file; second_file] one_readable).2
      by (now rewrite E).
    vm_compute. reflexivity. }
  rewrite Hr, Hp. intros H.
  specialize (H _ (list_elem_of_here _ _)).
  vm_compute in H. discriminate H.
Qed.

(** *** Normalising *)

Section Normalize.
Context {P : Pydub} {L : PydubLaws P}.

(** C8.  A segment whose sample rate, channel count and sample width are the
    targets is returned as it is, no conversion applied; and normalising
    twice is normalising once, an exception of the first pass included. *)
Theorem normalize_idempotent (seg : segment) (sr ch wd : Z) :
  (frame_rate seg = sr -> channels seg = ch -> sample_width seg = wd ->
   normalize_to seg sr ch wd = Ok seg)
  /\ rbind (normalize_to seg sr ch wd) (fun s => normalize_to s sr ch wd)
     = normalize_to seg sr ch wd.
Proof.
  split.
  - intros <- <- <-. unfold normalize_to.
    rewrite Z.eqb_refl. simpl. rewrite Z.eqb_refl. simpl.
    now rewrite Z.eqb_refl.
  - assert (Hconf : forall s, normalize_to seg sr ch wd = Ok s ->
              frame_rate s = sr /\ channels s = ch /\ sample_width s = wd).
    { unfold normalize_to. intros s.
      destruct (Z.eqb_spec (frame_rate seg) sr) as [E1|E1]; simpl.
      - destruct (Z.eqb_spec (channels seg) ch) as [E2|E2]; simpl.
        + destruct (Z.eqb_spec (sample_width seg) wd) as [E3|E3].
          * intros [= <-]. auto.
          * intros H. apply set_sample_width_format in H. intuition congruence.
        + destruct (set_channels ch seg) as [s2|] eqn:H2; simpl; [|discriminate].
          apply set_channels_format in H2.
          destruct (Z.eqb_spec (sample_width s2) wd) as [E3|E3].
          * intros [= <-]. intuition congruence.
          * intros H. apply set_sample_width_format in H. intuition congruence.
      - destruct (set_frame_rate sr seg) as [s1|] eqn:H1; simpl; [|discriminate].
        apply set_frame_rate_format in H1.
        destruct (Z.eqb_spec (channels s1) ch) as [E2|E2]; simpl.
        + destruct (Z.eqb_spec (sample_width s1) wd) as [E3|E3].
          * intros [= <-]. intuition congruence.
          * intros H. apply set_sample_width_format in H. intuition congruence.
        + destruct (set_channels ch s1) as [s2|] eqn:H2; simpl; [|discriminate].
          apply set_channels_format in H2.
          destruct (Z.eqb_spec (sample_width s2) wd) as [E3|E3].
          * intros [= <-]. intuition congruence.
          * intros H. apply set_sample_width_format in H. intuition congruence. }
    destruct (normalize_to seg sr ch wd) as [s|e] eqn:E; [|reflexivity].
    simpl. destruct (Hconf s eq_refl) as (<- & <- & <-).
    unfold normalize_to.
    rewrite Z.eqb_refl. simpl. rewrite Z.eqb_refl. simpl.
    now rewrite Z.eqb_refl.
Qed.

End Normalize.

Lemma normalize_idempotent_witness :
  frame_rate (window_of 5) = 32000 /\ channels (window_of 5) = 1
  /\ sample_width (window_of 5) = 2
  /\ normalize_to (window_of 5) 32000 1 2 = Ok (window_of 5)
  /\ rbind (normalize_to (silent 5) 32000 1 2)
          (fun s => normalize_to s 32000 1 2)
     = normalize_to (silent 5) 32000 1 2.
Proof.
  split; [reflexivity|]. split; [reflexivity|]. split; [reflexivity|].
  split.
  - apply (proj1 (normalize_idempotent (window_of 5) 32000 1 2)); reflexivity.
  - apply (proj2 (normalize_idempotent (silent 5) 32000 1 2)).
Defined.

End ProcessFacts.

(** ** slice_audio.py *)

Module SliceFacts.
Import Py PyFacts OS OSFacts SliceAudio Toy Examples.

(** *** The time parser *)




















(** *** The window *)

Section Main.
Context {P : Pydub}.

(** C9.  When the end time that is parsed is not after the start time that
    is parsed, the run ends with the assertion error of line 50 and makes no
    call after the parsing: nothing is exported.  The statement is on the
    part of [main] that follows the parsing, for every recording that is
    loaded and every two floats that the parser may return, so that it does
    not depend on how the floats of the parser are rounded. *)
Theorem main_rejects_reversed_window (fuel : nat) (a : args)
    (audio : segment) (start_sec end_sec : pyfloat) (w : world segment) :
  fle end_sec start_sec = true ->
  main_window fuel a audio start_sec end_sec w = (Raise AssertionError, w).
Proof.
  intros Hle. unfold main_window. io_unfold.
  now rewrite (fle_not_fgt _ _ Hle).
Qed.

(** *** The loop *)

Lemma chunk_name_finite a q pos :
  chunk_name a (Finite q) pos = Ok (chunk_file a q pos).
Proof. reflexivity. Qed.

Lemma chunk_loop_S fuel a q out_root window chunk_ms n pos w :
  chunk_loop (S fuel) a (Finite q) out_root window chunk_ms n pos w =
  if pos <? seg_len window then
    let nxt := Z.min (pos + chunk_ms) (seg_len window) in
    if drop_last a && (nxt - pos <? chunk_ms) then (Ok (Some n), w)
    else chunk_loop fuel a (Finite q) out_root window chunk_ms (n + 1) nxt
           (extend w (chunk_events a q out_root window pos nxt))
  else (Ok (Some n), w).
Proof.
  simpl. destruct (pos <? seg_len window); [|reflexivity].
  destruct (drop_last a && _); [reflexivity|].
  rewrite chunk_name_finite. io_unfold. simpl.
  unfold chunk_events, extend. simpl. now rewrite <- app_assoc.
Qed.

Lemma chunk_loop_terminates a q out_root window chunk_ms :
  1 <= chunk_ms ->
  forall fuel n pos w,
    (Z.to_nat (seg_len window - pos) < fuel)%nat ->
    exists n' w',
      chunk_loop fuel a (Finite q) out_root window chunk_ms n pos w
      = (Ok (Some n'), w').
Proof.
  intros Hc fuel. induction fuel as [|fuel IH]; intros n pos w Hfuel; [lia|].
  rewrite chunk_loop_S.
  destruct (Z.ltb_spec pos (seg_len window)) as [Hlt|Hge]; [|eauto].
  cbv zeta. destruct (drop_last a && _); [eauto|].
  apply IH. lia.
Qed.

Lemma chunk_loop_more_fuel a q out_root window chunk_ms fuel :
  forall n pos w n' w',
    chunk_loop fuel a (Finite q) out_root window chunk_ms n pos w
    = (Ok (Some n'), w') ->
    chunk_loop (S fuel) a (Finite q) out_root window chunk_ms n pos w
    = (Ok (Some n'), w').
Proof.
  induction fuel as [|fuel IH]; intros n pos w n' w' H; [discriminate|].
  rewrite chunk_loop_S in H. rewrite chunk_loop_S.
  destruct (pos <? seg_len window); [|assumption].
  cbv zeta in *. destruct (drop_last a && _); [assumption|].
  now apply IH.
Qed.

Lemma chunk_loop_fuel_le a q out_root window chunk_ms fuel fuel' :
  (fuel <= fuel')%nat ->
  forall n pos w n' w',
    chunk_loop fuel a (Finite q) out_root window chunk_ms n pos w
    = (Ok (Some n'), w') ->
    chunk_loop fuel' a (Finite q) out_root window chunk_ms n pos w
    = (Ok (Some n'), w').
Proof.
  induction 1 as [|fuel' _ IH]; intros n pos w n' w' H; [assumption|].
  apply chunk_loop_more_fuel. now apply IH.
Qed.

Lemma chunk_loop_stuck a q out_root window :
  drop_last a = false -> 0 < seg_len window ->
  forall fuel n w,
    exists w', chunk_loop fuel a (Finite q) out_root window 0 n 0 w
               = (Ok None, w').
Proof.
  intros Hd Hw fuel. induction fuel as [|fuel IH]; intros n w.
  - simpl. io_unfold. eauto.
  - rewrite chunk_loop_S. rewrite Hd.
    destruct (Z.ltb_spec 0 (seg_len window)); [|lia].
    cbv zeta. simpl andb. cbv iota.
    replace (Z.min (0 + 0) (seg_len window)) with 0 by lia.
    apply IH.
Qed.

(** C10.  When the chunk duration is at least one millisecond, every
    iteration moves [pos] forward, never beyond the length of the window, and
    the loop ends: from some amount of fuel on it returns, always the same
    result.  With a chunk duration of 0 ms, [drop_last] unset and a window
    that is not empty, [pos] stays at 0 and the loop is still running after
    any number of iterations. *)
Theorem chunk_loop_termination a q out_root window :
  (forall chunk_ms, 1 <= chunk_ms ->
     (forall pos, pos < seg_len window ->
        pos < Z.min (pos + chunk_ms) (seg_len window) <= seg_len window)
     /\ (forall n pos w, exists fuel n' w',
          forall fuel', (fuel <= fuel')%nat ->
            chunk_loop fuel' a (Finite q) out_root window chunk_ms n pos w
            = (Ok (Some n'), w')))
  /\ (drop_last a = false -> 0 < seg_len window ->
      Z.min (0 + 0) (seg_len window) = 0
      /\ forall fuel n w, exists w',
           chunk_loop fuel a (Finite q) out_root window 0 n 0 w
           = (Ok None, w')).
Proof.
  split.
  - intros chunk_ms Hc. split; [intros; lia|].
    intros n pos w.
    destruct (chunk_loop_terminates a q out_root window chunk_ms Hc
                (S (Z.to_nat (seg_len window - pos))) n pos w)
      as (n' & w' & Hrun); [lia|].
    exists (S (Z.to_nat (seg_len window - pos))), n', w'.
    intros fuel' Hle. now apply (chunk_loop_fuel_le _ _ _ _ _ _ _ Hle).
  - intros Hd Hw. split; [lia|]. now apply chunk_loop_stuck.
Qed.

Arguments extend : simpl never.
Arguments chunk_events : simpl never.

Ltac loop_step Hlen Hd :=
  rewrite chunk_loop_S, Hlen, ?Hd; simpl Z.ltb; cbv iota zeta;
  simpl Z.min; simpl Z.sub; simpl Z.ltb; simpl andb; cbv iota.

(** C7.  For a window of 40 seconds and chunks of 15 seconds the loop exports
    three chunks, [window[0:15000]], [window[15000:30000]] and
    [window[30000:40000]], of 15 s, 15 s and 10 s in that order; with
    [drop_last] it exports the first two only. *)
Theorem forty_seconds_by_fifteen (a : args) q out_root window n0 w fuel :
  seg_len window = 40000 ->
  chunk a = Finite 15 ->
  (4 <= fuel)%nat ->
  exists chunk_ms evs,
    round (fmul (chunk a) (Finite 1000)) = Ok chunk_ms
    /\ chunk_loop fuel a (Finite q) out_root window chunk_ms n0 0 w
       = (Ok (Some (n0 + if drop_last a then 2 else 3)), extend w evs)
    /\ reported_lengths evs
       = (if drop_last a then [15000; 15000] else [15000; 15000; 10000])
    /\ exported_segments evs
       = if drop_last a
         then [seg_slice window 0 15000; seg_slice window 15000 30000]
         else [seg_slice window 0 15000; seg_slice window 15000 30000;
               seg_slice window 30000 40000].
Proof.
  intros Hlen Hchunk Hfuel.
  do 4 (destruct fuel as [|fuel]; [lia|]). clear Hfuel.
  exists 15000. rewrite Hchunk.
  destruct (drop_last a) eqn:Hd.
  - eexists. split; [reflexivity|].
    do 3 loop_step Hlen Hd.
    rewrite !extend_extend.
    split; [f_equal; f_equal; f_equal; lia|]. split; reflexivity.
  - eexists. split; [reflexivity|].
    do 4 loop_step Hlen Hd.
    rewrite !extend_extend.
    split; [f_equal; f_equal; f_equal; lia|]. split; reflexivity.
Qed.

End Main.

Lemma main_rejects_reversed_window_witness :
  fle (Finite 30) (Finite 40) = true
  /\ main_window 10 (command "40" "0:30" (Finite 15) false) (window_of 1000)
       (Finite 40) (Finite 30) (extend one_second [EvRead "in.wav"])
     = (Raise AssertionError, extend one_second [EvRead "in.wav"]).
Proof.
  split; [reflexivity|].
  apply (main_rejects_reversed_window 10
           (command "40" "0:30" (Finite 15) false) (window_of 1000)
           (Finite 40) (Finite 30) (extend one_second [EvRead "in.wav"])).
  reflexivity.
Defined.

Lemma chunk_loop_termination_witness :
  1 <= 15000
  /\ (exists fuel n' w', forall fuel', (fuel <= fuel')%nat ->
        chunk_loop fuel' (command "0" "40" (Finite 15) false) (Finite 0)
          "out/seg" (window_of 40000) 15000 0 0 one_second
        = (Ok (Some n'), w'))
  /\ drop_last (command "0" "40" (Finite 0) false) = false
  /\ 0 < seg_len (window_of 40000)
  /\ (forall fuel n w, exists w',
        chunk_loop fuel (command "0" "40" (Finite 0) false) (Finite 0)
          "out/seg" (window_of 40000) 0 n 0 w
        = (Ok None, w')).
Proof.
  split; [lia|]. split.
  - apply (proj1 (chunk_loop_termination
                    (command "0" "40" (Finite 15) false) 0 "out/seg"
                    (window_of 40000)) 15000 ltac:(lia)).
  - split; [reflexivity|]. split; [reflexivity|].
    apply (proj2 (chunk_loop_termination
                    (command "0" "40" (Finite 0) false) 0 "out/seg"
                    (window_of 40000)) eq_refl eq_refl).
Defined.

Lemma forty_seconds_by_fifteen_witness :
  seg_len (window_of 40000) = 40000
  /\ chunk (command "0" "40" (Finite 15) false) = Finite 15
  /\ (4 <= 4)%nat
  /\ exists chunk_ms evs,
       round (fmul (chunk (command "0" "40" (Finite 15) false)) (Finite 1000))
       = Ok chunk_ms
       /\ chunk_loop 4 (command "0" "40" (Finite 15) false) (Finite 0) "out/seg"
            (window_of 40000) chunk_ms 0 0 one_second
          = (Ok (Some (0 + if drop_last (command "0" "40" (Finite 15) false)
                           then 2 else 3)), extend one_second evs)
       /\ reported_lengths evs
          = (if drop_last (command "0" "40" (Finite 15) false)
             then [15000; 15000] else [15000; 15000; 10000])
       /\ exported_segments evs
          = if drop_last (command "0" "40" (Finite 15) false)
            then [seg_slice (window_of 40000) 0 15000;
                  seg_slice (window_of 40000) 15000 30000]
            else [seg_slice (window_of 40000) 0 15000;
                  seg_slice (window_of 40000) 15000 30000;
                  seg_slice (window_of 40000) 30000 40000].
Proof.
  split; [reflexivity|]. split; [reflexivity|]. split; [lia|].
  apply (forty_seconds_by_fifteen (command "0" "40" (Finite 15) false) 0
           "out/seg" (window_of 40000) 0 one_second 4);
    [reflexivity|reflexivity|lia].
Defined.

(** *** The names of the chunks *)

Lemma hms_tag_inj x y r r' :
  0 <= x -> 0 <= y ->
  hms_tag x +:+ String "." r = hms_tag y +:+ String "." r' -> x = y.
Proof.
  intros Hx Hy. unfold hms_tag.
  set (hx := x / 3600). set (mx := x mod 3600 / 60). set (sx := x mod 3600 mod 60).
  set (hy := y / 3600). set (my := y mod 3600 / 60). set (sy := y mod 3600 mod 60).
  assert (0 <= hx /\ 0 <= mx /\ 0 <= sx /\ 0 <= hy /\ 0 <= my /\ 0 <= sy)
    as (H1 & H2 & H3 & H4 & H5 & H6).
  { unfold hx, mx, sx, hy, my, sy.
    repeat split; try apply Z.div_pos; try apply Z.mod_pos_bound; try lia;
      apply Z.mod_pos_bound; lia. }
  destruct (format_02d_nonneg hx H1) as [Dhx Vhx].
  destruct (format_02d_nonneg mx H2) as [Dmx Vmx].
  destruct (format_02d_nonneg sx H3) as [Dsx Vsx].
  destruct (format_02d_nonneg hy H4) as [Dhy Vhy].
  destruct (format_02d_nonneg my H5) as [Dmy Vmy].
  destruct (format_02d_nonneg sy H6) as [Dsy Vsy].
  rewrite !app_assoc_str. intros E.
  pose proof (f_equal take_digits E) as E1.
  rewrite !take_digits_app in E1 by (assumption || reflexivity).
  injection E1 as Eh E1.
  rewrite ?app_empty in E1.
  pose proof (f_equal take_digits E1) as E2.
  rewrite !take_digits_app in E2 by (assumption || reflexivity).
  injection E2 as Em E2.
  rewrite ?app_empty in E2.
  pose proof (f_equal take_digits E2) as E3.
  rewrite !take_digits_app in E3 by (assumption || reflexivity).
  injection E3 as Es _.
  assert (hx = hy) by congruence.
  assert (mx = my) by congruence.
  assert (sx = sy) by congruence.
  unfold hx, mx, sx, hy, my, sy in *.
  rewrite (Z.div_mod x 3600), (Z.div_mod y 3600) by lia.
  rewrite (Z.div_mod (x mod 3600) 60), (Z.div_mod (y mod 3600) 60) by lia.
  congruence.
Qed.

(** C4.  The claim fails on the code.  With [--start 0 --end 1 --chunk 0.5]
    on a recording of one second the run exports two chunks, [window[0:500]]
    and [window[500:1000]], to one and the same path: the tag of the second
    is the tag of the first, [00h00m00s], and the second file replaces the
    first.  The comment of line 80 announces a sequence number after the tag
    in the name; line 83 writes the name without it.  The numbers of this
    run, 0, 1, 0.5, 500 and 1000, are binary floats: nothing is rounded. *)
Theorem half_second_chunks_share_a_path :
  let '(r, w') :=
    main 10 (command "0" "1" (Finite (1 # 2)) false) one_second in
  r = Ok (Some 2)
  /\ exported_paths (trace w')
     = ["out/seg/seg_00h00m00s.wav"; "out/seg/seg_00h00m00s.wav"]%string
  /\ exported_segments (trace w')
     = [seg_slice (window_of 1000) 0 500; seg_slice (window_of 1000) 500 1000]
  /\ reported_lengths (trace w') = [500; 500].
Proof. vm_compute. repeat split. Qed.

(** At that input the names of the exported chunks are not distinct, as the
    claim has them. *)
Lemma half_second_chunks_counterexample :
  round (fmul (Finite (1 # 2)) (Finite 1000)) = Ok 500
  /\ ~ claimed_distinct_names (command "0" "1" (Finite (1 # 2)) false) 0
         "out/seg" (window_of 1000) 500 5 one_second.
Proof.
  split; [reflexivity|].
  unfold claimed_distinct_names. intros H. specialize (H ltac:(lia)).
  destruct (chunk_loop 5 _ _ _ _ _ _ _ _) as [r w'] eqn:E.
  assert (Hp : exported_paths (new_events one_second w')
               = ["out/seg/seg_00h00m00s.wav"; "out/seg/seg_00h00m00s.wav"]).
  { replace w' with
      (chunk_loop 5 (command "0" "1" (Finite (1 # 2)) false) (Finite 0)
         "out/seg" (window_of 1000) 500 0 0 one_second).2 by (now rewrite E).
    vm_compute. reflexivity. }
  rewrite Hp in H. apply NoDup_cons in H as [H _].
  apply H. apply list_elem_of_here.
Qed.

(** With chunks of one second, a start time between -1 and 0 gives the tag
    of second 0 to two chunks: truncation is towards zero. *)
Example negative_start_repeats_tag :
  parse_hms_or_seconds "-0:-0.5" = Ok (Finite (inject_Z 0 + - (5 # 10)))
  /\ ~ claimed_distinct_names (command "-0:-0.5" "2" (Finite 1) false)
         (inject_Z 0 + - (5 # 10)) "out/seg" (window_of 2000) 1000 5 one_second.
Proof.
  split; [vm_compute; reflexivity|].
  unfold claimed_distinct_names. intros H. specialize (H ltac:(lia)).
  destruct (chunk_loop 5 _ _ _ _ _ _ _ _) as [r w'] eqn:E.
  assert (Hp : exported_paths (new_events one_second w')
               = ["out/seg/seg_00h00m00s.wav"; "out/seg/seg_00h00m00s.wav"]).
  { replace w' with
      (chunk_loop 5 (command "-0:-0.5" "2" (Finite 1) false)
         (Finite (inject_Z 0 + - (5 # 10)))
         "out/seg" (window_of 2000) 1000 0 0 one_second).2 by (now rewrite E).
    vm_compute. reflexivity. }
  rewrite Hp in H. apply NoDup_cons in H as [H _].
  apply H. apply list_elem_of_here.
Qed.

(** The example of the specification for the tag. *)
Example hms_from_seconds_3661 :
  hms_from_seconds (Finite 3661) = Ok "01h01m01s"%string.
Proof. reflexivity. Qed.

(** A whole run on a recording of forty seconds. *)
Example main_forty_seconds :
  let '(r, w') :=
    main 10 (command "0" "40" (Finite 15) false) forty_seconds in
  r = Ok (Some 3)
  /\ exported_paths (trace w')
     = ["out/seg/seg_00h00m00s.wav"; "out/seg/seg_00h00m15s.wav";
        "out/seg/seg_00h00m30s.wav"]%string
  /\ reported_lengths (trace w') = [15000; 15000; 10000].
Proof. vm_compute. repeat split. Qed.

End SliceFacts.

(** ** More on process.py *)

Module LoaderFacts.
Import Py PyFacts OS OSFacts Process ProcessFacts Combined Toy Examples.

Section Loader.
Context {P : Pydub} (os : faults).

Ltac load_unfold :=
  unfold robust_load_audio, robust_load_audio_with, riff_repair, raw_fallback,
    from_wav, from_raw, read_file, write_file, remove;
  io_unfold; simpl.

Ltac load_step :=
  first
    [ rewrite lookup_insert_eq
    | rewrite lookup_insert_ne by apply tmp_of_neq
    | rewrite lookup_delete_ne by apply tmp_of_neq
    | rewrite lookup_delete_eq
    | rewrite delete_insert_eq
    | progress simpl in *
    | progress simplify_eq
    | match goal with
      | |- context [match ?x with _ => _ end] =>
          lazymatch x with
          | context [match _ with _ => _ end] => fail
          | _ => destruct x eqn:?
          end
      end ].

Lemma loader_frame path w p :
  p <> tmp_of path ->
  files (robust_load_audio os path w).2 !! p = files w !! p.
Proof.
  intros Hp. load_unfold. fold (tmp_of path).
  repeat load_step.
  all: rewrite ?lookup_delete_ne, ?lookup_insert_ne by congruence; reflexivity.
Qed.

(** X1.  A file that cannot be read: the three tiers fail in turn, nothing is
    written or removed, and the loader raises the error of the last tier. *)
Theorem loader_missing_file path w :
  files w !! path = None ->
  robust_load_audio os path w
  = (Raise OSError,
     extend w [EvFromWav path; EvLog LogWarning path; EvRead path;
               EvLog LogWarning path; EvFromRaw path; EvLog LogError path]).
Proof.
  intros Hf. load_unfold. rewrite Hf. simpl. rewrite Hf. simpl.
  rewrite Hf. simpl. unfold extend. now rewrite <- !app_assoc.
Qed.

Lemma loader_readable path w blob :
  files w !! path = Some blob ->
  (robust_load_audio os path w).1 = decoded os path (Some blob).
Proof.
  intros Hf. load_unfold. fold (tmp_of path). rewrite Hf. simpl.
  destruct (decode_wav blob) as [seg|] eqn:Hd; simpl; [reflexivity|].
  rewrite Hf. simpl.
  destruct (Z.leb_spec 0 (find blob RIFF)) as [Hk|Hk]; simpl.
  - rewrite slice_from by assumption.
    destruct (write_outcome_of os (tmp_of path)); simpl.
    + rewrite lookup_insert_eq. simpl.
      destruct (decode_wav (drop _ blob)) as [seg|]; simpl.
      * destruct (remove_denied os (tmp_of path)); simpl;
          rewrite ?lookup_insert_eq; reflexivity.
      * destruct (remove_denied os (tmp_of path)); simpl;
          rewrite ?lookup_insert_eq; simpl;
          rewrite ?delete_insert_eq, ?lookup_delete_ne, ?lookup_insert_ne
            by apply tmp_of_neq;
          rewrite Hf; simpl; destruct (decode_raw _ _ _ _); reflexivity.
    + rewrite Hf. simpl. destruct (decode_raw _ _ _ _); reflexivity.
    + rewrite lookup_insert_ne by apply tmp_of_neq.
      rewrite Hf. simpl. destruct (decode_raw _ _ _ _); reflexivity.
  - rewrite Hf. simpl. destruct (decode_raw _ _ _ _); reflexivity.
Qed.


Lemma loader_result path w :
  (robust_load_audio os path w).1 = decoded os path (files w !! path).
Proof.
  destruct (files w !! path) as [blob|] eqn:Hf.
  - now apply loader_readable.
  - load_unfold. rewrite Hf. simpl. rewrite Hf. simpl. now rewrite Hf.
Qed.

(** X2.  For a file that can be read, the result is that of the first tier
    that succeeds: the direct decode; else the decode of the content from the
    signature on, when the signature is there and the temporary file could be
    written; else the raw decode, whose failure is the failure of the loader.
    A refusal of [os.remove] does not change the result. *)
Theorem loader_first_success path w blob :
  files w !! path = Some blob ->
  (robust_load_audio os path w).1
  = match decode_wav blob with
    | Some seg => Ok seg
    | None =>
        let k := find blob RIFF in
        let repaired :=
          if 0 <=? k then
            match write_outcome_of os (tmp_of path) with
            | WriteOk => decode_wav (drop (Z.to_nat k) blob)
            | _ => None
            end
          else None in
        match repaired with
        | Some seg => Ok seg
        | None =>
            of_option DecodeError
              (decode_raw TARGET_WIDTH TARGET_SR TARGET_CHANNELS blob)
        end
    end.
Proof. intros Hf. now rewrite loader_result, Hf. Qed.

End Loader.

Lemma loader_missing_file_witness :
  files one_readable !! "Data/SBW1520_20160813_222535.wav" = None
  /\ robust_load_audio no_faults "Data/SBW1520_20160813_222535.wav" one_readable
     = (Raise OSError,
        extend one_readable
          [EvFromWav "Data/SBW1520_20160813_222535.wav";
           EvLog LogWarning "Data/SBW1520_20160813_222535.wav";
           EvRead "Data/SBW1520_20160813_222535.wav";
           EvLog LogWarning "Data/SBW1520_20160813_222535.wav";
           EvFromRaw "Data/SBW1520_20160813_222535.wav";
           EvLog LogError "Data/SBW1520_20160813_222535.wav"]).
Proof.
  split; [reflexivity|].
  apply (loader_missing_file no_faults "Data/SBW1520_20160813_222535.wav"
           one_readable).
  reflexivity.
Defined.

Lemma loader_first_success_witness :
  files shifted !! "x.wav" = Some (Byte.x00 :: good_wav 10)
  /\ (robust_load_audio remove_refused "x.wav" shifted).1
     = Ok (window_of 10).
Proof.
  split; [reflexivity|].
  rewrite (loader_first_success remove_refused "x.wav" shifted
             (Byte.x00 :: good_wav 10) eq_refl).
  vm_compute. reflexivity.
Defined.

End LoaderFacts.

Module NameFacts.
Import Py PyFacts OS OSFacts Process ProcessFacts Listing.

Lemma strip_prefix_spec p : forall s r,
  strip_prefix p s = Some r <-> s = p +:+ r.
Proof.
  induction p as [|a p IH]; intros s r; simpl.
  - rewrite app_empty. split; [now intros [= ->]|now intros ->].
  - rewrite app_cons. destruct s as [|b s].
    + split; discriminate.
    + destruct (Ascii.eqb_spec a b) as [->|Hne].
      * rewrite IH. split; [now intros ->|now intros [= ->]].
      * split; [discriminate|intros [= ? ?]; congruence].
Qed.

Lemma take_n_digits_spec n : forall s d r,
  take_n_digits n s = Some (d, r)
  <-> s = d +:+ r /\ String.length d = n /\ all_digits d = true.
Proof.
  induction n as [|n IH]; intros s d r; simpl.
  - split.
    + intros [= <- <-]. now rewrite app_empty.
    + intros (-> & Hl & _). destruct d; [|discriminate].
      now rewrite app_empty.
  - destruct s as [|c s].
    + split; [discriminate|].
      intros (H & Hl & _). destruct d; [discriminate|].
      rewrite app_cons in H. discriminate.
    + destruct (is_digit c) eqn:Hc.
      * destruct (take_n_digits n s) as [[d' r']|] eqn:E.
        -- apply IH in E as (-> & Hl & Hd). split.
           ++ intros [= <- <-]. rewrite app_cons. simpl. rewrite Hc, Hd.
              auto.
           ++ intros (H & Hl' & Hd'). destruct d as [|c' d]; [discriminate|].
              rewrite app_cons in H. injection H as -> H.
              simpl in Hl', Hd'. apply andb_true_iff in Hd' as [_ Hd'].
              assert (E : take_n_digits n (d' +:+ r') = Some (d, r)).
              { apply IH. split_and!; auto. }
              assert (E' : take_n_digits n (d' +:+ r') = Some (d', r')).
              { apply IH. split_and!; auto. }
              congruence.
        -- split; [discriminate|].
           intros (H & Hl' & Hd'). destruct d as [|c' d]; [discriminate|].
           rewrite app_cons in H. injection H as -> H.
           simpl in Hl', Hd'. apply andb_true_iff in Hd' as [_ Hd'].
           assert (E' : take_n_digits n s = Some (d, r)).
           { apply IH. split_and!; auto. }
           congruence.
      * split; [discriminate|].
        intros (H & Hl' & Hd'). destruct d as [|c' d]; [discriminate|].
        rewrite app_cons in H. injection H as -> H.
        simpl in Hd'. rewrite Hc in Hd'. discriminate.
Qed.

Lemma match_pattern_shape f d t :
  match_pattern f = Some (d, t)
  <-> String.length d = 8%nat /\ String.length t = 6%nat
      /\ all_digits d = true /\ all_digits t = true
      /\ (f = recording_name d t
          \/ f = recording_name d t +:+ String "010" EmptyString).
Proof.
  unfold match_pattern, recording_name. split.
  - intros H. unfold mbind, option_bind in H.
    destruct (strip_prefix "SBW1520_" f) as [r0|] eqn:E0; [|discriminate].
    destruct (take_n_digits 8 r0) as [[d' r1]|] eqn:E1; [|discriminate].
    destruct (strip_prefix "_" r1) as [r2|] eqn:E2; [|discriminate].
    destruct (take_n_digits 6 r2) as [[t' r3]|] eqn:E3; [|discriminate].
    destruct (strip_prefix ".wav" r3) as [r4|] eqn:E4; [|discriminate].
    destruct (at_end r4) eqn:E5; [|discriminate].
    injection H as -> ->.
    apply strip_prefix_spec in E0, E2, E4.
    apply take_n_digits_spec in E1 as (E1 & Hld & Hd).
    apply take_n_digits_spec in E3 as (E3 & Hlt & Ht).
    subst. split_and!; auto.
    destruct r4 as [|c [|c' r]]; try discriminate.
    + left. now rewrite app_empty_r.
    + right. simpl in E5. apply Ascii.eqb_eq in E5 as ->.
      now rewrite !app_assoc_str.
  - intros (Hld & Hlt & Hd & Ht & Hf).
    assert (Hgen : forall r4, at_end r4 = true ->
              f = "SBW1520_" +:+ d +:+ "_" +:+ t +:+ ".wav" +:+ r4 ->
              (r0 ← strip_prefix "SBW1520_" f;
               '(date_str, r1) ← take_n_digits 8 r0;
               r2 ← strip_prefix "_" r1;
               '(time_str, r3) ← take_n_digits 6 r2;
               r4 ← strip_prefix ".wav" r3;
               if at_end r4 then Some (date_str, time_str) else None)
              = Some (d, t)).
    { intros r4 He ->. unfold mbind, option_bind.
      rewrite (proj2 (strip_prefix_spec "SBW1520_" _ _) eq_refl).
      rewrite (proj2 (take_n_digits_spec 8 _ d _) (conj eq_refl (conj Hld Hd))).
      rewrite (proj2 (strip_prefix_spec "_" _ _) eq_refl).
      rewrite (proj2 (take_n_digits_spec 6 _ t _) (conj eq_refl (conj Hlt Ht))).
      rewrite (proj2 (strip_prefix_spec ".wav" _ _) eq_refl).
      now rewrite He. }
    destruct Hf as [->| ->].
    + apply (Hgen EmptyString); [reflexivity|].
      now rewrite app_empty_r.
    + apply (Hgen (String "010" EmptyString)); [reflexivity|].
      now rewrite !app_assoc_str.
Qed.

(** *** Substrings *)

Lemma substring_app_l a : forall b,
  substring 0 (String.length a) (a +:+ b) = a.
Proof.
  induction a as [|c a IH]; intros b.
  - rewrite app_empty. now destruct b.
  - rewrite app_cons. simpl. now rewrite IH.
Qed.

Lemma substring_all s : substring 0 (String.length s) s = s.
Proof. rewrite <- (app_empty_r s) at 2. apply substring_app_l. Qed.

Lemma substring_app_r a : forall b n,
  substring (String.length a) n (a +:+ b) = substring 0 n b.
Proof.
  induction a as [|c a IH]; intros b n.
  - now rewrite app_empty.
  - rewrite app_cons. simpl. apply IH.
Qed.

Lemma substring_split s : forall k, (k <= String.length s)%nat ->
  substring 0 k s +:+ substring k (String.length s - k) s = s.
Proof.
  induction s as [|c s IH]; intros k Hk; simpl in *.
  - destruct k; [reflexivity|lia].
  - destruct k as [|k].
    + rewrite app_empty. simpl. now rewrite substring_all.
    + rewrite app_cons. simpl. rewrite IH by lia. reflexivity.
Qed.

Lemma app_inj_length a : forall c b d,
  a +:+ b = c +:+ d -> String.length b = String.length d -> a = c /\ b = d.
Proof.
  induction a as [|x a IH]; intros c b d H Hl.
  - rewrite app_empty in H. destruct c as [|y c].
    + now rewrite app_empty in H.
    + subst b. rewrite app_cons in Hl. simpl in Hl.
      rewrite string_app_length in Hl. lia.
  - rewrite app_cons in H. destruct c as [|y c].
    + rewrite app_empty in H. subst d. simpl in Hl.
      rewrite string_app_length in Hl. lia.
    + rewrite app_cons in H. injection H as -> H.
      destruct (IH _ _ _ H Hl) as [-> ->]. auto.
Qed.

Lemma app_eq_split a : forall a' x y,
  a +:+ x = a' +:+ y -> (String.length a' <= String.length a)%nat ->
  exists m, a = a' +:+ m /\ y = m +:+ x.
Proof.
  induction a as [|c a IH]; intros a' x y H Hl.
  - destruct a'; [|simpl in Hl; lia].
    exists EmptyString. rewrite !app_empty in *. auto.
  - destruct a' as [|c' a'].
    + exists (String c a). rewrite !app_empty in *. auto.
    + rewrite !app_cons in H. injection H as -> H. simpl in Hl.
      destruct (IH a' x y H) as (m & -> & ->); [lia|].
      exists m. now rewrite app_cons.
Qed.

Lemma endswith_spec s suffix :
  endswith s suffix = true <-> exists p, s = p +:+ suffix.
Proof.
  unfold endswith. split.
  - intros [Hm He]%andb_true_iff. apply Nat.leb_le in Hm.
    apply String.eqb_eq in He.
    exists (substring 0 (String.length s - String.length suffix) s).
    rewrite <- He at 2.
    rewrite <- (substring_split s (String.length s - String.length suffix))
      at 1 by lia.
    do 2 f_equal. lia.
  - intros [p ->]. rewrite string_app_length.
    apply andb_true_iff. split; [apply Nat.leb_le; lia|].
    replace (String.length p + String.length suffix - String.length suffix)%nat
      with (String.length p) by lia.
    rewrite substring_app_r, substring_all. apply String.eqb_refl.
Qed.

Lemma str_lower_app a b : str_lower (a +:+ b) = str_lower a +:+ str_lower b.
Proof.
  induction a as [|c a IH].
  - now rewrite !app_empty.
  - rewrite !app_cons. simpl. now rewrite IH.
Qed.

Lemma is_wav_suffix x : is_wav (x +:+ ".wav") = true.
Proof.
  unfold is_wav. apply endswith_spec. exists (str_lower x).
  now rewrite str_lower_app.
Qed.

Lemma is_wav_newline x : is_wav (x +:+ String "010" EmptyString) = false.
Proof.
  unfold is_wav. apply not_true_is_false. intros [p Hp]%endswith_spec.
  rewrite str_lower_app in Hp. simpl in Hp.
  change (p +:+ ".wav") with (p +:+ (".wa" +:+ "v")) in Hp.
  rewrite <- app_assoc_str in Hp.
  apply app_inj_length in Hp as [_ Hp]; [discriminate|reflexivity].
Qed.

Lemma wav_match_recording f d t :
  is_wav f = true -> match_pattern f = Some (d, t) -> f = recording_name d t.
Proof.
  intros Hw (_ & _ & _ & _ & [->| ->])%match_pattern_shape; [reflexivity|].
  now rewrite is_wav_newline in Hw.
Qed.

(** X3.  The pattern matches exactly the names [SBW1520_], eight digits, [_],
    six digits, [.wav], and the same names followed by one line feed. *)
Theorem match_pattern_accepts_exactly f :
  is_Some (match_pattern f)
  <-> is_recording f
      \/ exists g, is_recording g /\ f = g +:+ String "010" EmptyString.
Proof.
  split.
  - intros [[d t] H]. apply match_pattern_shape in H
      as (Hd & Ht & Hdd & Htd & [->| ->]).
    + left. exists d, t. auto.
    + right. exists (recording_name d t). split; [|reflexivity].
      exists d, t. auto.
  - intros [(d & t & -> & Hd & Ht & Hdd & Htd)
           |(g & (d & t & -> & Hd & Ht & Hdd & Htd) & ->)];
      exists (d, t); apply match_pattern_shape; auto 10.
Qed.

Lemma recording_accepted d t :
  String.length d = 8%nat -> String.length t = 6%nat ->
  all_digits d = true -> all_digits t = true ->
  is_wav (recording_name d t) = true
  /\ match_pattern (recording_name d t) = Some (d, t).
Proof.
  intros Hld Hlt Hd Ht. split.
  - unfold recording_name. rewrite <- !app_assoc_str. apply is_wav_suffix.
  - apply match_pattern_shape. split_and!; auto.
Qed.

(** *** [rfind] and [splitext] *)

Lemma rfind_from_none c s : forall k,
  chars (is_not c) s = true -> rfind_from k c s = -1.
Proof.
  induction s as [|a s IH]; intros k H; simpl in *; [reflexivity|].
  apply andb_true_iff in H as [Ha Hs]. rewrite (IH _ Hs). simpl.
  unfold is_not in Ha. now destruct (Ascii.eqb a c).
Qed.

Lemma rfind_from_last c b a : forall k,
  0 <= k -> chars (is_not c) b = true ->
  rfind_from k c (a +:+ String c b) = k + Z.of_nat (String.length a).
Proof.
  induction a as [|x a IH]; intros k Hk Hb.
  - rewrite app_empty. simpl. rewrite (rfind_from_none _ _ _ Hb). simpl.
    rewrite Ascii.eqb_refl. lia.
  - rewrite app_cons. simpl rfind_from. rewrite IH by (auto; lia).
    destruct (Z.leb_spec 0 (k + 1 + Z.of_nat (String.length a))); [|lia].
    simpl String.length. lia.
Qed.

Lemma rfind_from_spec c s : forall k, 0 <= k ->
  (rfind_from k c s = -1 /\ chars (is_not c) s = true)
  \/ exists a b, s = a +:+ String c b
                 /\ rfind_from k c s = k + Z.of_nat (String.length a)
                 /\ chars (is_not c) b = true.
Proof.
  induction s as [|x s IH]; intros k Hk.
  - left. auto.
  - destruct (IH (k + 1)) as [[Hr Hs]|(a & b & -> & Hr & Hb)]; [lia| |].
    + simpl. rewrite Hr. simpl. destruct (Ascii.eqb_spec x c) as [->|Hne].
      * right. exists EmptyString, s. rewrite app_empty. simpl.
        split_and!; auto. lia.
      * left. split; [reflexivity|]. rewrite Hs. unfold is_not.
        apply Ascii.eqb_neq in Hne. now rewrite Hne.
    + right. exists (String x a), b. rewrite app_cons. split; [reflexivity|].
      split; [|assumption].
      simpl rfind_from. rewrite Hr.
      destruct (Z.leb_spec 0 (k + 1 + Z.of_nat (String.length a))); [|lia].
      simpl String.length. lia.
Qed.

(** X4.  [os.path.splitext] cuts a path in two parts that put together are
    the path; the second is empty, or it is a dot followed by characters that
    are neither a dot nor a slash. *)
Theorem splitext_parts p :
  (splitext p).1 +:+ (splitext p).2 = p
  /\ ((splitext p).2 = EmptyString
      \/ exists e, (splitext p).2 = String "." e
                   /\ chars (is_not ".") e = true
                   /\ chars (is_not "/") e = true).
Proof.
  unfold splitext.
  destruct (_ && _) eqn:E; simpl; [|rewrite app_empty_r; auto].
  apply andb_true_iff in E as [Hlt _]. apply Z.ltb_lt in Hlt.
  unfold rfind in *.
  destruct (rfind_from_spec "." p 0) as [[Hr _]|(a & b & -> & Hr & Hb)];
    [lia| |].
  { destruct (rfind_from_spec "/" p 0) as [[Hs _]|(a' & b' & _ & Hs & _)];
      lia. }
  rewrite Hr in *. rewrite Z.add_0_l in *. rewrite Nat2Z.id.
  rewrite substring_app_l.
  replace (String.length (a +:+ String "." b) - String.length a)%nat
    with (String.length (String "." b))
    by (rewrite string_app_length; lia).
  rewrite substring_app_r, substring_all.
  split; [reflexivity|]. right. exists b. split_and!; auto.
  destruct (rfind_from_spec "/" (a +:+ String "." b) 0)
    as [[_ Hs]|(a' & b' & He & Hs & Hb')]; [lia| |].
  - rewrite chars_app in Hs. simpl in Hs.
    now apply andb_true_iff in Hs as [_ Hs].
  - rewrite Hs in Hlt.
    apply app_eq_split in He as (m & -> & Hm); [|lia].
    rewrite string_app_length in Hlt.
    destruct m as [|x m]; [simpl in Hlt; lia|].
    rewrite app_cons in Hm. injection Hm as <- ->.
    rewrite chars_app in Hb'. simpl in Hb'.
    now apply andb_true_iff in Hb' as [_ Hb'].
Qed.

Lemma splitext_simple s e :
  chars (is_not "/") s = true -> all_dots s = false ->
  chars (is_not ".") e = true -> chars (is_not "/") e = true ->
  splitext (s +:+ String "." e) = (s, String "." e).
Proof.
  intros Hs Hd He He'. unfold splitext, rfind.
  rewrite rfind_from_last by (auto; lia).
  rewrite rfind_from_none
    by (rewrite chars_app; simpl; now rewrite Hs, He').
  rewrite Z.add_0_l. rewrite Nat2Z.id.
  change (-1 + 1) with 0. rewrite Z.sub_0_r, Nat2Z.id.
  destruct (Z.ltb_spec (-1) (Z.of_nat (String.length s))); [|lia]. simpl.
  rewrite substring_app_l, Hd. simpl.
  replace (String.length (s +:+ String "." e) - String.length s)%nat
    with (String.length (String "." e))
    by (rewrite string_app_length; lia).
  now rewrite substring_app_r, substring_all, substring_app_l.
Qed.

Lemma digits_no_slash s : all_digits s = true -> chars (is_not "/") s = true.
Proof.
  rewrite all_digits_chars. apply chars_impl. intros c Hc.
  apply is_digit_code in Hc. unfold is_not.
  destruct (Ascii.eqb_spec c "/") as [->|]; [|reflexivity].
  destruct Hc as [Hc _]. vm_compute in Hc. now destruct Hc.
Qed.

Lemma splitext_recording d t :
  all_digits d = true -> all_digits t = true ->
  splitext (recording_name d t)
  = ("SBW1520_" +:+ d +:+ "_" +:+ t, ".wav"%string).
Proof.
  intros Hd Ht. unfold recording_name.
  rewrite <- !app_assoc_str. apply splitext_simple; try reflexivity.
  rewrite !chars_app, (digits_no_slash _ Hd), (digits_no_slash _ Ht).
  reflexivity.
Qed.

End NameFacts.

Module ListingFacts.
Import Py PyFacts OS OSFacts Process ProcessFacts Listing NameFacts.

Section Scan.
Context {D : Datetime}.

Lemma matched_timestamp f d t :
  match_pattern f = Some (d, t) -> timestamp f = strptime (d +:+ t).
Proof. intros H. unfold timestamp. now rewrite H. Qed.

Lemma scan_loop_ok files : forall ft sk ft' sk',
  scan_loop files ft sk = Ok (ft', sk') ->
  exists new,
    ft' = ft ++ new
    /\ List.map fst new = List.filter matched files
    /\ Forall (fun p => timestamp p.1 = Ok p.2) new
    /\ sk' = sk ++ List.filter (fun f => negb (matched f)) files.
Proof.
  induction files as [|f rest IH]; intros ft sk ft' sk' H; simpl in H.
  - injection H as <- <-. exists []. rewrite !app_nil_r. auto.
  - assert (Hmd : matched f
                  = match match_pattern f with Some _ => true | None => false end)
      by reflexivity.
    simpl. rewrite Hmd.
    destruct (match_pattern f) as [[d t]|] eqn:Hm; simpl.
    + destruct (strptime (d +:+ t)) as [ts|e] eqn:Hts; [|discriminate].
      simpl in H. apply IH in H as (new & -> & Hn & Hf & ->).
      exists ((f, ts) :: new). rewrite <- app_assoc. simpl.
      split_and!; auto; [now rewrite Hn|].
      constructor; [|assumption]. simpl.
      now rewrite (matched_timestamp _ _ _ Hm).
    + apply IH in H as (new & -> & Hn & Hf & ->).
      exists new. rewrite <- app_assoc. auto.
Qed.

Lemma scan_loop_runs files : forall ft sk,
  Forall (fun f => matched f = true -> is_ok (timestamp f) = true) files ->
  exists r, scan_loop files ft sk = Ok r.
Proof.
  induction files as [|f rest IH]; intros ft sk H; simpl.
  - eauto.
  - inversion H as [|? ? Hf Hrest]; subst.
    unfold matched, timestamp in Hf.
    destruct (match_pattern f) as [[d t]|]; [|now apply IH].
    destruct (strptime (d +:+ t)) as [ts|e]; simpl.
    + now apply IH.
    + now specialize (Hf eq_refl).
Qed.

Lemma scan_loop_aborts files : forall ft sk,
  Exists (fun f => matched f = true /\ is_ok (timestamp f) = false) files ->
  exists e, scan_loop files ft sk = Raise e.
Proof.
  induction files as [|f rest IH]; intros ft sk H; simpl.
  - inversion H.
  - inversion H as [? ? [Hf1 Hf2]|? ? Hrest]; subst.
    + unfold matched, timestamp in Hf1, Hf2.
      destruct (match_pattern f) as [[d t]|]; [|discriminate].
      destruct (strptime (d +:+ t)) as [ts|e]; [discriminate|].
      simpl. eauto.
    + destruct (match_pattern f) as [[d t]|]; [|now apply IH].
      destruct (strptime (d +:+ t)) as [ts|e]; simpl; [now apply IH|eauto].
Qed.

(** *** The sort *)

Lemma insert_by_time_perm x l : insert_by_time x l ≡ₚ x :: l.
Proof.
  induction l as [|y l IH]; simpl; [reflexivity|].
  destruct (dt_lt y.2 x.2); [|reflexivity].
  rewrite IH. apply Permutation_swap.
Qed.

Lemma sort_by_time_perm l : sort_by_time l ≡ₚ l.
Proof.
  induction l as [|x l IH]; simpl; [reflexivity|].
  fold (sort_by_time l). now rewrite insert_by_time_perm, IH.
Qed.

Context {L : DatetimeLaws D}.

Lemma insert_by_time_sorted x l :
  StronglySorted not_after l -> StronglySorted not_after (insert_by_time x l).
Proof.
  induction 1 as [|y l Hs IH Hy]; simpl.
  - repeat constructor.
  - destruct (dt_lt y.2 x.2) eqn:E.
    + constructor; [assumption|].
      rewrite insert_by_time_perm. constructor; [|assumption].
      unfold not_after. now apply dt_lt_asym.
    + constructor; [now constructor|].
      constructor; [exact E|].
      eapply List.Forall_impl; [|exact Hy].
      intros z Hz. unfold not_after in *. eapply dt_ge_trans; eassumption.
Qed.

Lemma sort_by_time_sorted l : StronglySorted not_after (sort_by_time l).
Proof.
  induction l as [|x l IH]; simpl; [constructor|].
  now apply insert_by_time_sorted.
Qed.

Lemma insert_by_time_stable ts x l :
  List.filter (fun p => same_time ts p.2) (insert_by_time x l)
  = List.filter (fun p => same_time ts p.2) (x :: l).
Proof.
  induction l as [|y l IH]; [reflexivity|].
  simpl insert_by_time. destruct (dt_lt y.2 x.2) eqn:E; [|reflexivity].
  simpl. simpl in IH. rewrite IH.
  destruct (same_time ts x.2) eqn:Ex; [|reflexivity].
  destruct (same_time ts y.2) eqn:Ey; [|reflexivity].
  unfold same_time in Ex, Ey.
  apply andb_true_iff in Ex as [Ex _], Ey as [_ Ey].
  apply negb_true_iff in Ex, Ey.
  rewrite (dt_ge_trans _ _ _ Ex Ey) in E. discriminate.
Qed.

Lemma sort_by_time_stable ts l :
  List.filter (fun p => same_time ts p.2) (sort_by_time l)
  = List.filter (fun p => same_time ts p.2) l.
Proof.
  induction l as [|x l IH]; [reflexivity|].
  simpl sort_by_time. fold (sort_by_time l).
  rewrite insert_by_time_stable. simpl. now rewrite IH.
Qed.

Lemma filter_filter {A} (f g : A -> bool) l :
  List.filter f (List.filter g l) = List.filter (fun x => g x && f x) l.
Proof.
  induction l as [|x l IH]; simpl; [reflexivity|].
  destruct (g x); simpl; [|assumption].
  destruct (f x); now rewrite IH.
Qed.

Lemma scan_ok listing sorted skipped :
  scan listing = Ok (sorted, skipped) ->
  exists ft,
    List.map fst ft = List.filter accepted listing
    /\ Forall (fun p => timestamp p.1 = Ok p.2) ft
    /\ sorted = List.map fst (sort_by_time ft)
    /\ skipped = List.filter refused listing.
Proof.
  unfold scan. intros H.
  destruct (scan_loop (all_files listing) [] []) as [[ft sk]|e] eqn:E;
    [|discriminate].
  simpl in H. injection H as <- <-.
  apply scan_loop_ok in E as (new & -> & Hn & Hf & ->).
  unfold all_files in *. rewrite filter_filter in *.
  exists new. simpl. auto.
Qed.

Lemma at_time_fst ts l :
  Forall (fun p => timestamp p.1 = Ok p.2) l ->
  List.filter (at_time ts) (List.map fst l)
  = List.map fst (List.filter (fun p => same_time ts p.2) l).
Proof.
  induction 1 as [|p l Hp Hl IH]; simpl; [reflexivity|].
  unfold at_time at 1. rewrite Hp.
  destruct (same_time ts p.2); simpl; now rewrite IH.
Qed.

Lemma sorted_snd (l : list (string * datetime)) :
  StronglySorted not_after l ->
  StronglySorted (fun a b => dt_lt b a = false) (List.map snd l).
Proof.
  induction 1 as [|x l Hs IH Hx]; simpl; constructor; [assumption|].
  apply List.Forall_map. exact Hx.
Qed.

(** X5.  When the scan ends, the names it hands to the grouping are in the
    order of their time stamps: none is before one that precedes it. *)
Theorem scan_sorted listing sorted skipped :
  scan listing = Ok (sorted, skipped) ->
  exists stamps,
    Forall2 (fun f ts => timestamp f = Ok ts) sorted stamps
    /\ StronglySorted (fun a b => dt_lt b a = false) stamps.
Proof.
  intros (ft & _ & Hf & -> & _)%scan_ok.
  exists (List.map snd (sort_by_time ft)). split.
  - rewrite <- (sort_by_time_perm ft) in Hf.
    induction Hf as [|p l Hp Hl IH]; simpl; constructor; assumption.
  - apply sorted_snd, sort_by_time_sorted.
Qed.

(** X6.  Names with the same time stamp keep the order of the listing. *)
Theorem scan_stable listing sorted skipped ts :
  scan listing = Ok (sorted, skipped) ->
  List.filter (at_time ts) sorted
  = List.filter (at_time ts) (List.filter accepted listing).
Proof.
  intros (ft & Hn & Hf & -> & _)%scan_ok.
  rewrite <- Hn, !at_time_fst, sort_by_time_stable; auto.
  now rewrite sort_by_time_perm.
Qed.

End Scan.

Section Partition.
Context {D : Datetime}.

(** X7.  When the scan ends, the sorted names are the names of the listing
    that end in [.wav], whatever the case, and match the pattern, each as
    often as the listing has it; the skipped names are those that end in
    [.wav] and do not match, in the order of the listing. *)
Theorem scan_partition listing sorted skipped :
  scan listing = Ok (sorted, skipped) ->
  sorted ≡ₚ List.filter accepted listing
  /\ skipped = List.filter refused listing.
Proof.
  intros (ft & Hn & _ & -> & ->)%scan_ok. split; [|reflexivity].
  now rewrite sort_by_time_perm, Hn.
Qed.

Lemma scanned_recording listing sorted skipped f :
  scan listing = Ok (sorted, skipped) -> f ∈ sorted ->
  f ∈ listing /\ is_recording f.
Proof.
  intros (ft & Hn & _ & -> & _)%scan_ok Hf.
  rewrite sort_by_time_perm, Hn in Hf.
  apply list_elem_of_In, List.filter_In in Hf as [Hin Hf].
  split; [now apply list_elem_of_In|].
  unfold accepted, matched in Hf. apply andb_true_iff in Hf as [Hw Hm].
  destruct (match_pattern f) as [[d t]|] eqn:E; [|discriminate].
  exists d, t. split; [now apply wav_match_recording|].
  now apply match_pattern_shape in E as (? & ? & ? & ? & _).
Qed.

(** X8.  Every name that the scan hands to the grouping is [SBW1520_], eight
    digits, [_], six digits and [.wav], with nothing after it: the name with
    a line feed at its end, which the pattern matches, is not one of them. *)
Theorem scan_keeps_recordings listing sorted skipped f :
  scan listing = Ok (sorted, skipped) -> f ∈ sorted ->
  exists d t,
    f = recording_name d t
    /\ String.length d = 8%nat /\ String.length t = 6%nat
    /\ all_digits d = true /\ all_digits t = true.
Proof. intros H Hf. exact (proj2 (scanned_recording _ _ _ _ H Hf)). Qed.

Lemma scan_runs listing :
  Forall (fun f => accepted f = true -> is_ok (timestamp f) = true) listing ->
  exists sorted skipped, scan listing = Ok (sorted, skipped).
Proof.
  intros H. unfold scan.
  destruct (scan_loop_runs (all_files listing) [] []) as [[ft sk] Hr].
  { unfold all_files. apply Forall_forall.
    intros f [Hin Hw]%list_elem_of_In%List.filter_In Hm.
    rewrite Forall_forall in H. apply H; [now apply list_elem_of_In|].
    unfold accepted. now rewrite Hw, Hm. }
  rewrite Hr. simpl. eauto.
Qed.

Lemma scan_aborts listing :
  Exists (fun f => accepted f = true /\ is_ok (timestamp f) = false) listing ->
  exists e, scan listing = Raise e.
Proof.
  intros H. unfold scan.
  destruct (scan_loop_aborts (all_files listing) [] []) as [e Hr].
  { unfold all_files. apply Exists_exists in H as (f & Hin & Ha & Hf).
    unfold accepted in Ha. apply andb_true_iff in Ha as [Hw Hm].
    apply Exists_exists. exists f. split; [|auto].
    apply list_elem_of_In, List.filter_In. split; [|assumption].
    now apply list_elem_of_In. }
  rewrite Hr. simpl. eauto.
Qed.

Lemma dates_good_or_bad listing :
  Forall (fun f => accepted f = true -> is_ok (timestamp f) = true) listing
  \/ Exists (fun f => accepted f = true /\ is_ok (timestamp f) = false)
       listing.
Proof.
  induction listing as [|f l [IH|IH]].
  - left. constructor.
  - destruct (accepted f) eqn:Ea, (is_ok (timestamp f)) eqn:Et.
    + left. constructor; [now rewrite Ea, Et|assumption].
    + right. constructor. now rewrite Ea, Et.
    + left. constructor; [rewrite Ea; discriminate|assumption].
    + left. constructor; [rewrite Ea; discriminate|assumption].
  - right. now apply Exists_cons_tl.
Qed.

(** X11.  The scan of lines 91 to 105 ends without an exception exactly when
    every name of the listing that it keeps, the names that end in [.wav]
    and match the pattern, has digits that [datetime.strptime] accepts. *)
Theorem scan_completes_iff listing :
  is_ok (scan listing) = true
  <-> Forall (fun f => accepted f = true -> is_ok (timestamp f) = true) listing.
Proof.
  split.
  - intros Hok. destruct (dates_good_or_bad listing) as [H|H]; [exact H|].
    destruct (scan_aborts listing H) as [e He].
    rewrite He in Hok. discriminate.
  - intros H. destruct (scan_runs listing H) as (sorted & skipped & Hs).
    now rewrite Hs.
Qed.

End Partition.

Lemma scan_sorted_witness :
  scan sample_listing
  = Ok (["SBW1520_20160813_222435.wav"; "SBW1520_20160813_222535.wav"],
        ["other_20160813_222435.wav"; "SBW1520_20160813_222635.WAV"])
  /\ exists stamps,
       Forall2 (fun f ts => timestamp f = Ok ts)
         ["SBW1520_20160813_222435.wav"; "SBW1520_20160813_222535.wav"]
         stamps
       /\ StronglySorted (fun a b => dt_lt b a = false) stamps.
Proof.
  split; [vm_compute; reflexivity|].
  apply (scan_sorted (L := ToyDatetimeLaws) sample_listing _
           ["other_20160813_222435.wav"; "SBW1520_20160813_222635.WAV"]).
  vm_compute. reflexivity.
Defined.

Lemma scan_stable_witness :
  scan ["SBW1520_20160813_222535.wav"; "SBW1520_20160813_222435.wav";
        "SBW1520_20160813_222535.wav"]
  = Ok (["SBW1520_20160813_222435.wav"; "SBW1520_20160813_222535.wav";
         "SBW1520_20160813_222535.wav"], [])
  /\ List.filter (at_time 20160813222535)
       ["SBW1520_20160813_222435.wav"; "SBW1520_20160813_222535.wav";
        "SBW1520_20160813_222535.wav"]
     = List.filter (at_time 20160813222535)
         (List.filter accepted
            ["SBW1520_20160813_222535.wav"; "SBW1520_20160813_222435.wav";
             "SBW1520_20160813_222535.wav"]).
Proof.
  split; [vm_compute; reflexivity|].
  apply (scan_stable (L := ToyDatetimeLaws) _ _ []).
  vm_compute. reflexivity.
Defined.

Lemma scan_partition_witness :
  scan sample_listing
  = Ok (["SBW1520_20160813_222435.wav"; "SBW1520_20160813_222535.wav"],
        ["other_20160813_222435.wav"; "SBW1520_20160813_222635.WAV"])
  /\ ["SBW1520_20160813_222435.wav"; "SBW1520_20160813_222535.wav"]
       ≡ₚ List.filter accepted sample_listing
  /\ ["other_20160813_222435.wav"; "SBW1520_20160813_222635.WAV"]
     = List.filter refused sample_listing.
Proof.
  split; [vm_compute; reflexivity|].
  apply (scan_partition sample_listing). vm_compute. reflexivity.
Defined.

Lemma scan_keeps_recordings_witness :
  scan sample_listing
  = Ok (["SBW1520_20160813_222435.wav"; "SBW1520_20160813_222535.wav"],
        ["other_20160813_222435.wav"; "SBW1520_20160813_222635.WAV"])
  /\ "SBW1520_20160813_222535.wav"
     ∈ ["SBW1520_20160813_222435.wav"; "SBW1520_20160813_222535.wav"]
  /\ exists d t,
       "SBW1520_20160813_222535.wav" = recording_name d t
       /\ String.length d = 8%nat /\ String.length t = 6%nat
       /\ all_digits d = true /\ all_digits t = true.
Proof.
  split; [vm_compute; reflexivity|].
  split; [apply list_elem_of_further, list_elem_of_here|].
  apply (scan_keeps_recordings sample_listing
           ["SBW1520_20160813_222435.wav"; "SBW1520_20160813_222535.wav"]
           ["other_20160813_222435.wav"; "SBW1520_20160813_222635.WAV"]).
  - vm_compute. reflexivity.
  - apply list_elem_of_further, list_elem_of_here.
Defined.

End ListingFacts.

Module CombinedFacts.
Import Py PyFacts OS OSFacts Process ProcessFacts Listing NameFacts
  ListingFacts LoaderFacts Combined Toy Examples.

Section Normalize.
Context {P : Pydub} {L : PydubLaws P}.

(** X9.  A segment that [normalize] returns has the three target
    parameters, whatever the segment it was given. *)
Theorem normalize_conforms (seg seg' : segment) (sr ch wd : Z) :
  normalize_to seg sr ch wd = Ok seg' ->
  frame_rate seg' = sr /\ channels seg' = ch /\ sample_width seg' = wd.
Proof.
  unfold normalize_to.
  destruct (Z.eqb_spec (frame_rate seg) sr) as [E1|E1]; simpl.
  - destruct (Z.eqb_spec (channels seg) ch) as [E2|E2]; simpl.
    + destruct (Z.eqb_spec (sample_width seg) wd) as [E3|E3].
      * intros [= <-]. auto.
      * intros H. apply set_sample_width_format in H. intuition congruence.
    + destruct (set_channels ch seg) as [s2|] eqn:H2; simpl; [|discriminate].
      apply set_channels_format in H2.
      destruct (Z.eqb_spec (sample_width s2) wd) as [E3|E3].
      * intros [= <-]. intuition congruence.
      * intros H. apply set_sample_width_format in H. intuition congruence.
  - destruct (set_frame_rate sr seg) as [s1|] eqn:H1; simpl; [|discriminate].
    apply set_frame_rate_format in H1.
    destruct (Z.eqb_spec (channels s1) ch) as [E2|E2]; simpl.
    + destruct (Z.eqb_spec (sample_width s1) wd) as [E3|E3].
      * intros [= <-]. intuition congruence.
      * intros H. apply set_sample_width_format in H. intuition congruence.
    + destruct (set_channels ch s1) as [s2|] eqn:H2; simpl; [|discriminate].
      apply set_channels_format in H2.
      destruct (Z.eqb_spec (sample_width s2) wd) as [E3|E3].
      * intros [= <-]. intuition congruence.
      * intros H. apply set_sample_width_format in H. intuition congruence.
Qed.

End Normalize.

Lemma normalize_conforms_witness :
  normalize_to (P := ToyPydub)
    {| t_rate := 44100; t_channels := 2; t_width := 1; t_ms := 7 |} 32000 1 2
  = Ok (window_of 7)
  /\ frame_rate (window_of 7) = 32000 /\ channels (window_of 7) = 1
  /\ sample_width (window_of 7) = 2.
Proof.
  split; [reflexivity|].
  apply (normalize_conforms (L := ToyLaws)
           {| t_rate := 44100; t_channels := 2; t_width := 1; t_ms := 7 |}
           (window_of 7) 32000 1 2).
  reflexivity.
Defined.

Section Run.
Context {P : Pydub} (os : faults).

Lemma exports_app (t1 t2 : list (event segment)) :
  exports (t1 ++ t2) = exports t1 ++ exports t2.
Proof. unfold exports. apply omap_app. Qed.

Lemma exports_paths (t : list (event segment)) :
  exported_paths t = (exports t).*1.
Proof.
  induction t as [|ev t IH]; [reflexivity|].
  destruct ev; simpl; try assumption.
  unfold exported_paths, exports in *. simpl. now rewrite IH.
Qed.

Lemma loader_quiet path w :
  exists evs, trace (robust_load_audio os path w).2 = trace w ++ evs
              /\ exports evs = [].
Proof.
  unfold robust_load_audio, robust_load_audio_with, riff_repair, raw_fallback,
    from_wav, from_raw, read_file, write_file, remove.
  io_unfold. simpl.
  repeat match goal with
         | |- context [match ?x with _ => _ end] =>
             lazymatch x with
             | context [match _ with _ => _ end] => fail
             | _ => destruct x eqn:?
             end
         | _ => progress simpl in *
         end.
  all: eexists; rewrite <- ?app_assoc; split; reflexivity.
Qed.

Lemma load_one_spec st f w :
  exists w' evs,
    load_one os st f w = (Ok (group_end os w st [f]), w')
    /\ (forall p, p <> tmp_of (path_join input_dir f) ->
          files w' !! p = files w !! p)
    /\ trace w' = trace w ++ evs
    /\ exports evs = [].
Proof.
  assert (Hl : loaded_audio os w [f]
               = match audio_of os w f with Ok seg => [seg] | Raise _ => [] end).
  { unfold loaded_audio. simpl. now destruct (audio_of os w f). }
  assert (Hu : List.filter (unreadable os w) [f]
               = match audio_of os w f with Ok _ => [] | Raise _ => [f] end).
  { simpl. unfold unreadable. now destruct (audio_of os w f). }
  unfold group_end. rewrite Hl, Hu. clear Hl Hu.
  unfold load_one, audio_of. io_unfold.
  pose proof (loader_result os (path_join input_dir f) w) as Hr.
  pose proof (loader_frame os (path_join input_dir f) w) as Hfr.
  destruct (loader_quiet (path_join input_dir f) w) as (evs & Ht & He).
  destruct (robust_load_audio os (path_join input_dir f) w) as [r w1].
  simpl in Hr, Hfr, Ht. rewrite <- Hr.
  destruct r as [seg|e]; simpl.
  - destruct (normalize seg) as [seg'|e]; simpl.
    + exists w1, evs. rewrite app_nil_r. unfold len. simpl. split_and!; auto.
    + eexists _, (evs ++ [EvLog LogError f]). simpl.
      unfold len. simpl.
      rewrite Z.add_0_r, Ht, exports_app, He, <- app_assoc.
      split_and!; auto.
  - eexists _, (evs ++ [EvLog LogError f]). simpl.
    unfold len. simpl.
    rewrite Z.add_0_r, Ht, exports_app, He, <- app_assoc.
    split_and!; auto.
Qed.

Lemma audio_of_same w w' f :
  files w' !! path_join input_dir f = files w !! path_join input_dir f ->
  audio_of os w' f = audio_of os w f.
Proof. unfold audio_of. now intros ->. Qed.

Lemma loaded_audio_cons w f g :
  loaded_audio os w (f :: g)
  = match audio_of os w f with Ok seg => [seg] | Raise _ => [] end
    ++ loaded_audio os w g.
Proof. unfold loaded_audio. simpl. now destruct (audio_of os w f). Qed.

Lemma loaded_audio_same w w' g :
  (forall f, f ∈ g -> audio_of os w' f = audio_of os w f) ->
  loaded_audio os w' g = loaded_audio os w g.
Proof.
  induction g as [|f g IH]; intros H; [reflexivity|].
  rewrite !loaded_audio_cons.
  rewrite (H f) by apply list_elem_of_here.
  rewrite IH; [reflexivity|].
  intros f' Hf'. apply H. now apply list_elem_of_further.
Qed.

Lemma unreadable_same w w' g :
  (forall f, f ∈ g -> audio_of os w' f = audio_of os w f) ->
  List.filter (unreadable os w') g = List.filter (unreadable os w) g.
Proof.
  intros H. apply List.filter_ext_in. intros f Hf%list_elem_of_In.
  unfold unreadable. now rewrite H.
Qed.

Lemma group_end_same w w' st g :
  (forall f, f ∈ g -> audio_of os w' f = audio_of os w f) ->
  group_end os w' st g = group_end os w st g.
Proof.
  intros H. unfold group_end.
  now rewrite (loaded_audio_same _ _ _ H), (unreadable_same _ _ _ H).
Qed.

Lemma group_end_cons w st f g :
  group_end os w (group_end os w st [f]) g = group_end os w st (f :: g).
Proof.
  unfold group_end. cbn [combined ok_count failed_files].
  rewrite (loaded_audio_cons w f g), (loaded_audio_cons w f []).
  change (loaded_audio os w []) with (@nil segment). rewrite app_nil_r.
  rewrite fold_left_app. unfold len. rewrite length_app, Nat2Z.inj_add.
  f_equal; [lia|].
  rewrite <- app_assoc. f_equal. simpl.
  now destruct (unreadable os w f).
Qed.

Lemma load_all_spec g : forall st w,
  no_clash g ->
  exists w' evs,
    load_all os st g w = (Ok (group_end os w st g), w')
    /\ (forall p, (forall f, f ∈ g -> p <> tmp_of (path_join input_dir f)) ->
          files w' !! p = files w !! p)
    /\ trace w' = trace w ++ evs
    /\ exports evs = [].
Proof.
  induction g as [|f g IH]; intros st w Hc.
  - exists w, []. simpl. io_unfold. unfold group_end. simpl.
    rewrite !app_nil_r. destruct st. simpl.
    unfold len. simpl. rewrite Z.add_0_r. auto.
  - simpl. io_unfold.
    destruct (load_one_spec st f w) as (w1 & evs1 & Hr & Hfr & Ht & He).
    rewrite Hr.
    destruct (IH (group_end os w st [f]) w1) as (w2 & evs2 & Hr2 & Hfr2 & Ht2 & He2).
    { intros a b Ha Hb. apply Hc; now apply list_elem_of_further. }
    exists w2, (evs1 ++ evs2). rewrite Hr2.
    assert (Hsame : forall f', f' ∈ g ->
              audio_of os w1 f' = audio_of os w f').
    { intros f' Hf'. apply audio_of_same, Hfr.
      apply Hc; [now apply list_elem_of_further|apply list_elem_of_here]. }
    split_and!.
    + now rewrite (group_end_same _ _ _ _ Hsame), group_end_cons.
    + intros p Hp. rewrite Hfr2, Hfr; auto.
      * apply Hp, list_elem_of_here.
      * intros f' Hf'. now apply Hp, list_elem_of_further.
    + now rewrite Ht2, Ht, app_assoc.
    + now rewrite exports_app, He, He2.
Qed.

Lemma load_all_frame g : forall st w p,
  (forall f, f ∈ g -> p <> tmp_of (path_join input_dir f)) ->
  files (load_all os st g w).2 !! p = files w !! p.
Proof.
  induction g as [|f g IH]; intros st w p Hp; [reflexivity|].
  simpl. io_unfold.
  destruct (load_one_spec st f w) as (w1 & evs1 & Hr & Hfr & _).
  rewrite Hr.
  specialize (IH (group_end os w st [f]) w1 p).
  destruct (load_all os (group_end os w st [f]) g w1) as [r w2].
  simpl in *. rewrite IH, Hfr; auto.
  - apply Hp, list_elem_of_here.
  - intros f' Hf'. now apply Hp, list_elem_of_further.
Qed.

(** X10.  The loop over the files of a group, lines 125 to 134, never
    raises.  After it [combined] is what it was, followed by the normalised
    audio of the files of the group that can be loaded, in order; [ok_count]
    has grown by their number; [failed_files] by the names of the other
    files, in order.  The audio is that of the files as they are when the
    loop starts, when no file of the group is the temporary file of another
    one. *)
Theorem group_loop_audio st g w :
  no_clash g ->
  (load_all os st g w).1
  = Ok {| combined := fold_left seg_add (loaded_audio os w g) (combined st);
          ok_count := ok_count st + len (loaded_audio os w g);
          failed_files :=
            failed_files st ++ List.filter (unreadable os w) g |}.
Proof.
  intros Hc. destruct (load_all_spec g st w Hc) as (w' & evs & Hr & _).
  now rewrite Hr.
Qed.

(** X13.  The loop over the files of a group writes and removes no file
    other than the temporary files of the loader and the file of the log
    records: every other path, the input files among them, has the content
    it had, whatever the operating system does to the writes and the
    removals. *)
Theorem group_loop_keeps_files st g w p :
  p <> log_path ->
  (forall f, f ∈ g -> p <> tmp_of (path_join input_dir f)) ->
  files (load_all os st g w).2 !! p = files w !! p.
Proof. intros _ Hp. now apply load_all_frame. Qed.

Lemma out_name_total g ok : g <> [] -> exists name, out_name g ok = Ok name.
Proof.
  intros Hg. unfold out_name.
  destruct g as [|first g']; [done|].
  destruct (last_is_Some (first :: g')) as [_ [last_f Hl]]; [eauto|].
  rewrite (index_head _ first) by reflexivity. simpl rbind.
  destruct (ok =? len (first :: g')) eqn:E.
  - apply Z.eqb_eq in E. rewrite (index_last _ last_f) by (auto; lia).
    simpl. eauto.
  - rewrite (index_last _ last_f) by auto. simpl. eauto.
Qed.

Lemma export_of_same w w' g :
  (forall f, f ∈ g -> audio_of os w' f = audio_of os w f) ->
  export_of os w' g = export_of os w g.
Proof.
  intros H. unfold export_of. now rewrite (loaded_audio_same _ _ _ H).
Qed.

Lemma combine_group_spec failed g w :
  g <> [] -> no_clash g ->
  exists w' evs,
    combine_group os failed g w
    = (Ok (failed ++ List.filter (unreadable os w) g), w')
    /\ (forall p, (forall f, f ∈ g -> p <> tmp_of (path_join input_dir f)) ->
          files w' !! p = files w !! p)
    /\ trace w' = trace w ++ evs
    /\ exports evs = option_list (export_of os w g).
Proof.
  intros Hg Hc. unfold combine_group. io_unfold. simpl.
  destruct (load_all_spec g
              {| combined := silent 0; ok_count := 0; failed_files := failed |}
              (extend w [EvLog LogInfo "group"]) Hc)
    as (w1 & evs1 & Hr & Hfr & Ht & He).
  unfold extend in Hr. rewrite Hr. unfold group_end. simpl.
  assert (Hsame : forall f, f ∈ g ->
            audio_of os (extend w [EvLog LogInfo "group"]) f = audio_of os w f)
    by reflexivity.
  fold (extend w [EvLog LogInfo "group"]).
  rewrite (loaded_audio_same _ _ _ Hsame), (unreadable_same _ _ _ Hsame).
  unfold export_of. fold (joined (loaded_audio os w g)).
  destruct (loaded_audio os w g) as [|seg segs] eqn:El.
  - simpl. eexists _, _. split; [reflexivity|]. simpl.
    rewrite Ht. simpl. rewrite <- !app_assoc.
    split_and!; [exact Hfr|reflexivity|].
    now rewrite !exports_app, He.
  - rewrite Z.add_0_l.
    destruct (Z.eqb_spec (len (seg :: segs)) 0) as [E|_];
      [unfold len in E; simpl in E; lia|].
    destruct (out_name_total g (len (seg :: segs)) Hg) as [name Hn].
    rewrite Hn. simpl.
    eexists _, _. split; [reflexivity|]. simpl.
    rewrite Ht. simpl. rewrite <- !app_assoc.
    split_and!; [exact Hfr|reflexivity|].
    now rewrite !exports_app, He.
Qed.

Lemma no_clash_app_l a b : no_clash (a ++ b) -> no_clash a.
Proof.
  intros H f f' Hf Hf'. apply H; apply elem_of_app; now left.
Qed.

Lemma no_clash_app_r a b : no_clash (a ++ b) -> no_clash b.
Proof.
  intros H f f' Hf Hf'. apply H; apply elem_of_app; now right.
Qed.

Lemma omap_same {A B} (f g : A -> option B) (l : list A) :
  (forall x, x ∈ l -> f x = g x) -> omap f l = omap g l.
Proof.
  induction l as [|x l IH]; intros H; [reflexivity|].
  assert (IH' : omap f l = omap g l).
  { apply IH. intros y Hy. apply H. now apply list_elem_of_further. }
  simpl. rewrite (H x) by apply list_elem_of_here.
  destruct (g x); [f_equal|]; exact IH'.
Qed.

Lemma export_of_all_same w w' (gs : list (list string)) :
  (forall f, f ∈ concat gs -> audio_of os w' f = audio_of os w f) ->
  omap (export_of os w') gs = omap (export_of os w) gs.
Proof.
  intros H. apply omap_same. intros g Hg. apply export_of_same.
  intros f Hf. apply H. apply list_elem_of_In, in_concat. exists g.
  split; now apply list_elem_of_In.
Qed.

Lemma combine_groups_spec gs : forall failed w,
  Forall (fun g => g <> []) gs -> no_clash (concat gs) ->
  exists w' evs,
    combine_groups os failed gs w
    = (Ok (failed ++ List.filter (unreadable os w) (concat gs)), w')
    /\ (forall p,
          (forall f, f ∈ concat gs -> p <> tmp_of (path_join input_dir f)) ->
          files w' !! p = files w !! p)
    /\ trace w' = trace w ++ evs
    /\ exports evs = omap (export_of os w) gs.
Proof.
  induction gs as [|g gs IH]; intros failed w Hne Hc.
  - exists w, []. simpl. io_unfold. rewrite !app_nil_r. auto.
  - inversion Hne as [|? ? Hg Hgs]; subst. simpl in Hc |- *. io_unfold.
    destruct (combine_group_spec failed g w Hg (no_clash_app_l _ _ Hc))
      as (w1 & evs1 & Hr & Hfr & Ht & He).
    rewrite Hr.
    destruct (IH (failed ++ List.filter (unreadable os w) g) w1 Hgs
                (no_clash_app_r _ _ Hc))
      as (w2 & evs2 & Hr2 & Hfr2 & Ht2 & He2).
    rewrite Hr2.
    assert (Hsame : forall f, f ∈ concat gs ->
              audio_of os w1 f = audio_of os w f).
    { intros f Hf. apply audio_of_same, Hfr. intros f' Hf'.
      apply Hc; apply elem_of_app; auto. }
    exists w2, (evs1 ++ evs2). split_and!.
    + rewrite (unreadable_same _ _ _ Hsame), List.filter_app, app_assoc.
      reflexivity.
    + intros p Hp. rewrite Hfr2, Hfr; auto.
      * intros f Hf. apply Hp, elem_of_app. now left.
      * intros f Hf. apply Hp, elem_of_app. now right.
    + now rewrite Ht2, Ht, app_assoc.
    + rewrite exports_app, He, He2, (export_of_all_same _ _ _ Hsame).
      now destruct (export_of os w g).
Qed.

Lemma group_slices_groups (sorted_files : list string) N (HN : 0 < N) :
  group_slices sorted_files N = Ok (groups_from sorted_files N HN 0).
Proof.
  unfold group_slices, range.
  destruct (Z_dec' 0 N) as [[Hpos|Hneg]|Hz]; try lia.
  simpl. unfold Process.groups_from. f_equal.
  now rewrite (proof_irrel Hpos HN).
Qed.

Lemma groups_from_nonempty (sorted_files : list string) N (HN : 0 < N) i :
  Forall (fun g => g <> []) (groups_from sorted_files N HN i).
Proof.
  unfold Process.groups_from. apply Forall_forall.
  intros g [_ Hg]%list_elem_of_In%List.filter_In.
  intros ->. discriminate.
Qed.

Lemma groups_from_concat (sorted_files : list string) N (HN : 0 < N) :
  concat (groups_from sorted_files N HN 0) = sorted_files.
Proof.
  destruct (groups_from_spec sorted_files N HN (List.length sorted_files) 0)
    as (Hc & _).
  { pose proof (len_nonneg sorted_files). lia. }
  { unfold len. lia. }
  exact Hc.
Qed.

Lemma new_events_extend (w w' : world segment) evs :
  trace w' = trace w ++ evs -> new_events w w' = evs.
Proof. intros H. unfold new_events. now rewrite H, drop_app_length. Qed.

Lemma combine_all_spec sorted_files N w :
  0 < N -> no_clash sorted_files ->
  exists groups w' evs,
    group_slices sorted_files N = Ok groups
    /\ concat groups = sorted_files
    /\ Forall (fun g => g <> []) groups
    /\ combine_all os sorted_files N w
       = (Ok (List.filter (unreadable os w) sorted_files), w')
    /\ (forall p,
          (forall f, f ∈ sorted_files ->
             p <> tmp_of (path_join input_dir f)) ->
          files w' !! p = files w !! p)
    /\ trace w' = trace w ++ evs
    /\ exports evs = omap (export_of os w) groups.
Proof.
  intros HN Hc.
  pose proof (groups_from_concat sorted_files N HN) as Hcat.
  destruct (combine_groups_spec (groups_from sorted_files N HN 0) [] w)
    as (w' & evs & Hr & Hfr & Ht & He).
  { apply groups_from_nonempty. }
  { now rewrite Hcat. }
  exists (groups_from sorted_files N HN 0), w', evs.
  unfold combine_all. rewrite (group_slices_groups _ _ HN). io_unfold. simpl.
  rewrite Hr, Hcat. rewrite Hcat in Hfr.
  split_and!; auto using groups_from_nonempty.
Qed.

Lemma combine_all_not_positive sorted_files N w :
  N <= 0 ->
  combine_all os sorted_files N w
  = (if N =? 0 then Raise (ValueError RangeStepZero) else Ok [], w).
Proof.
  intros HN. unfold combine_all, group_slices, range. io_unfold.
  destruct (Z_dec' 0 N) as [[Hpos|Hneg]|Hz]; [lia| |].
  - destruct (Z.eqb_spec N 0); [lia|].
    rewrite range_down_equation_1.
    pose proof (len_nonneg sorted_files).
    destruct (Z_lt_dec (len sorted_files) 0); [lia|]. reflexivity.
  - subst N. reflexivity.
Qed.

End Run.

Lemma group_loop_audio_witness :
  no_clash [first_file; second_file]
  /\ (load_all no_faults
        {| combined := silent 0; ok_count := 0; failed_files := [] |}
        [first_file; second_file] one_readable).1
     = Ok {| combined :=
               fold_left seg_add
                 (loaded_audio no_faults one_readable [first_file; second_file])
                 (silent 0);
             ok_count :=
               0 + len (loaded_audio no_faults one_readable
                          [first_file; second_file]);
             failed_files :=
               [] ++ List.filter (unreadable no_faults one_readable)
                       [first_file; second_file] |}.
Proof.
  assert (H : no_clash [first_file; second_file]).
  { intros f f' Hf Hf'.
    repeat (apply elem_of_cons in Hf as [->|Hf]);
      try (now apply elem_of_nil in Hf);
      repeat (apply elem_of_cons in Hf' as [->|Hf']);
      try (now apply elem_of_nil in Hf'); discriminate. }
  split; [exact H|].
  exact (group_loop_audio no_faults
           {| combined := silent 0; ok_count := 0; failed_files := [] |}
           [first_file; second_file] one_readable H).
Defined.

Lemma group_loop_keeps_files_witness :
  "Data/SBW1520_20160813_222435.wav"%string <> log_path
  /\ (forall f, f ∈ [first_file; second_file] ->
        "Data/SBW1520_20160813_222435.wav"%string
        <> tmp_of (path_join input_dir f))
  /\ files (load_all remove_refused
              {| combined := silent 0; ok_count := 0; failed_files := [] |}
              [first_file; second_file] one_readable).2
       !! "Data/SBW1520_20160813_222435.wav"
     = files one_readable !! "Data/SBW1520_20160813_222435.wav".
Proof.
  assert (H : forall f, f ∈ [first_file; second_file] ->
                "Data/SBW1520_20160813_222435.wav"%string
                <> tmp_of (path_join input_dir f)).
  { intros f Hf.
    repeat (apply elem_of_cons in Hf as [->|Hf]; [discriminate|]).
    now apply elem_of_nil in Hf. }
  split; [discriminate|]. split; [exact H|].
  apply (group_loop_keeps_files remove_refused
           {| combined := silent 0; ok_count := 0; failed_files := [] |}
           [first_file; second_file] one_readable
           "Data/SBW1520_20160813_222435.wav"); [discriminate|exact H].
Defined.

End CombinedFacts.

Module ScriptFacts.
Import Py PyFacts OS OSFacts Process ProcessFacts Listing NameFacts
  ListingFacts LoaderFacts Combined CombinedFacts Toy Examples.

Lemma recording_length f :
  is_recording f -> String.length f = 27%nat.
Proof.
  intros (d & t & -> & Hd & Ht & _). unfold recording_name.
  rewrite !string_app_length, Hd, Ht. reflexivity.
Qed.

Lemma path_join_recording (dir : string) f :
  is_recording f ->
  dir <> EmptyString -> ends_with_sep dir = false ->
  path_join dir f = dir +:+ "/" +:+ f.
Proof.
  intros (d & t & -> & _) Hne Hsep. unfold path_join.
  change (starts_with_sep (recording_name d t)) with false. cbv iota.
  destruct dir; [congruence|]. now rewrite Hsep.
Qed.

Lemma recordings_no_clash names :
  Forall is_recording names -> no_clash names.
Proof.
  intros H f f' Hf Hf' E. rewrite Forall_forall in H.
  apply (f_equal String.length) in E. unfold tmp_of in E.
  rewrite !path_join_recording in E by (auto; discriminate).
  rewrite !string_app_length in E.
  rewrite (recording_length f), (recording_length f') in E by auto.
  discriminate.
Qed.

Lemma app_inv_head_str p a b : p +:+ a = p +:+ b -> a = b.
Proof.
  induction p as [|c p IH]; [now rewrite !app_empty|].
  rewrite !app_cons. intros [= H]. auto.
Qed.

Lemma app_inj_length_l a : forall c b d,
  a +:+ b = c +:+ d -> String.length a = String.length c -> a = c /\ b = d.
Proof.
  induction a as [|x a IH]; intros c b d H Hl.
  - destruct c; [|discriminate]. now rewrite !app_empty in H.
  - destruct c as [|y c]; [discriminate|].
    rewrite !app_cons in H. injection H as -> H. injection Hl as Hl.
    destruct (IH _ _ _ H Hl) as [-> ->]. auto.
Qed.

(** The name of an output, from the names of the first and of the last file
    of its group. *)
Lemma output_path_inj d t t' d2 t2 t2' :
  String.length d = 8%nat -> String.length d2 = 8%nat ->
  String.length t = 6%nat -> String.length t2 = 6%nat ->
  path_join output_dir
    (("SBW1520_" +:+ d +:+ "_" +:+ t) +:+ "_TO_" +:+ t' +:+ ".wav")
  = path_join output_dir
      (("SBW1520_" +:+ d2 +:+ "_" +:+ t2) +:+ "_TO_" +:+ t2' +:+ ".wav") ->
  d = d2 /\ t = t2.
Proof.
  intros Hd Hd2 Ht Ht2 H. rewrite !app_assoc_str in H.
  assert (Hj : forall x, path_join output_dir ("SBW1520_" +:+ x)
                         = "combinedall/SBW1520_" +:+ x) by reflexivity.
  rewrite !Hj in H. apply app_inv_head_str in H.
  apply app_inj_length_l in H as [-> H]; [|congruence].
  apply app_inv_head_str in H.
  apply app_inj_length_l in H as [-> H]; [|congruence].
  auto.
Qed.

Section Script.
Context {D : Datetime} {P : Pydub} (os : faults).

Lemma export_of_recordings w g p seg :
  Forall is_recording g -> export_of os w g = Some (p, seg) ->
  exists d t rest d' t',
    g = recording_name d t :: rest
    /\ recording_name d' t' ∈ g
    /\ String.length d = 8%nat /\ String.length t = 6%nat
    /\ (all_digits d = true /\ all_digits t = true
        /\ String.length t' = 6%nat /\ all_digits t' = true)
    /\ p = path_join output_dir
             (("SBW1520_" +:+ d +:+ "_" +:+ t) +:+ "_TO_" +:+ t' +:+ ".wav").
Proof.
  intros Hg He. unfold export_of in He. cbv zeta in He.
  destruct g as [|first rest]; [discriminate|].
  destruct (last_is_Some (first :: rest)) as [_ [last_f Hl]]; [eauto|].
  pose proof Hg as Hg'. rewrite Forall_forall in Hg'.
  destruct (Hg' first) as (d & t & -> & Hd & Ht & Hdd & Htd);
    [apply list_elem_of_here|].
  assert (Hin : last_f ∈ recording_name d t :: rest).
  { apply last_Some in Hl as [l' ->]. apply elem_of_app. right.
    apply list_elem_of_here. }
  destruct (Hg' last_f Hin) as (d' & t' & -> & Hd' & Ht' & Hdd' & Htd').
  destruct (recording_accepted d' t' Hd' Ht' Hdd' Htd') as [_ Hm].
  destruct (loaded_audio os w (recording_name d t :: rest)) as [|s l];
    [discriminate|].
  rewrite (out_name_ok _ _ (recording_name d t) (recording_name d' t') d' t')
    in He by auto.
  rewrite splitext_recording in He by auto. simpl fst in He.
  injection He as <- <-.
  exists d, t, rest, d', t'. split_and!; auto.
Qed.

Lemma exports_distinct w gs :
  Forall (Forall is_recording) gs -> NoDup (concat gs) ->
  NoDup (omap (export_of os w) gs).*1.
Proof.
  induction gs as [|g gs IH]; intros Hr Hn; [constructor|].
  inversion Hr as [|? ? Hg Hgs]; subst.
  simpl in Hn. apply NoDup_app in Hn as (Hn1 & Hdis & Hn2).
  specialize (IH Hgs Hn2).
  assert (Hcons : omap (export_of os w) (g :: gs)
                  = option_list (export_of os w g)
                    ++ omap (export_of os w) gs).
  { simpl. now destruct (export_of os w g). }
  rewrite Hcons. destruct (export_of os w g) as [[p seg]|] eqn:E; [|exact IH].
  simpl. constructor; [|exact IH].
  intros ([p' seg'] & Hp & (g' & Hg' & E')%list_elem_of_omap)%list_elem_of_fmap.
  simpl in Hp. subst p'.
  destruct (export_of_recordings _ _ _ _ Hg E)
    as (d & t & rest & d' & t' & -> & _ & Hd & Ht & _ & ->).
  rewrite Forall_forall in Hgs.
  destruct (export_of_recordings _ _ _ _ (Hgs g' Hg') E')
    as (d2 & t2 & rest2 & d2' & t2' & -> & _ & Hd2 & Ht2 & _ & Hp).
  apply output_path_inj in Hp as [-> ->]; auto.
  apply (Hdis (recording_name d2 t2)); [apply list_elem_of_here|].
  apply list_elem_of_In, in_concat. eexists. split.
  - apply list_elem_of_In, Hg'.
  - now left.
Qed.


Lemma script_spec listing sorted skipped N w :
  scan listing = Ok (sorted, skipped) -> 0 < N ->
  exists groups w' evs,
    group_slices sorted N = Ok groups
    /\ concat groups = sorted
    /\ Forall (fun g => g <> []) groups
    /\ script os listing N w = (Ok (List.filter (unreadable os w) sorted), w')
    /\ (forall p,
          (forall f, f ∈ sorted -> p <> tmp_of (path_join input_dir f)) ->
          files w' !! p = files w !! p)
    /\ trace w' = trace w ++ evs
    /\ exports evs = omap (export_of os w) groups.
Proof.
  intros Hs HN.
  assert (Hc : no_clash sorted).
  { apply recordings_no_clash, Forall_forall. intros f Hf.
    exact (proj2 (scanned_recording _ _ _ _ Hs Hf)). }
  assert (Hgen : forall w0 evs0,
            files w0 = files w -> trace w0 = trace w ++ evs0 ->
            exports evs0 = [] ->
            exists groups w' evs,
              group_slices sorted N = Ok groups
              /\ concat groups = sorted
              /\ Forall (fun g => g <> []) groups
              /\ combine_all os sorted N w0
                 = (Ok (List.filter (unreadable os w) sorted), w')
              /\ (forall p,
                    (forall f, f ∈ sorted ->
                       p <> tmp_of (path_join input_dir f)) ->
                    files w' !! p = files w !! p)
              /\ trace w' = trace w ++ evs
              /\ exports evs = omap (export_of os w) groups).
  { intros w0 evs0 Hf0 Ht0 He0.
    assert (Hsame : forall f, audio_of os w0 f = audio_of os w f).
    { intros f. apply audio_of_same. now rewrite Hf0. }
    destruct (combine_all_spec os sorted N w0 HN Hc)
      as (groups & w' & evs & Hg & Hcat & Hne & Hr & Hfr & Ht & He).
    exists groups, w', (evs0 ++ evs). rewrite Hr.
    split_and!; auto.
    - f_equal. f_equal. apply unreadable_same. auto.
    - intros p Hp. rewrite Hfr, Hf0; auto.
    - now rewrite Ht, Ht0, app_assoc.
    - rewrite exports_app, He0, He. simpl. apply export_of_all_same. auto. }
  unfold script. rewrite Hs. io_unfold. simpl.
  destruct (negb (len skipped =? 0)); simpl.
  - apply (Hgen _ [EvLog LogWarning "skipped"]); reflexivity.
  - apply (Hgen w []); [reflexivity|now rewrite app_nil_r|reflexivity].
Qed.

(** X12.  A name that the scan keeps and whose digits [datetime.strptime]
    refuses ends the run with an exception before any file is opened:
    nothing is read, logged or exported. *)
Theorem script_aborts listing N w :
  Exists (fun f => accepted f = true /\ is_ok (timestamp f) = false) listing ->
  exists e, script os listing N w = (Raise e, w).
Proof.
  intros H. destruct (scan_aborts listing H) as [e He].
  exists e. unfold script. now rewrite He.
Qed.

(** X14.  Every output of a run is named [SBW1520_<date>_<time>_TO_<time>.wav]
    in the output directory, after two recordings of the listing: the first
    for the date and the first time, the second for the last time.  The
    branch of line 146 for a last name that does not match is never taken. *)
Theorem script_output_names listing sorted skipped N w p :
  scan listing = Ok (sorted, skipped) -> 0 < N ->
  p ∈ exported_paths (new_events w (script os listing N w).2) ->
  exists d t d' t',
    p = path_join output_dir
          ("SBW1520_" +:+ d +:+ "_" +:+ t +:+ "_TO_" +:+ t' +:+ ".wav")
    /\ recording_name d t ∈ listing /\ recording_name d' t' ∈ listing
    /\ String.length d = 8%nat /\ String.length t = 6%nat
    /\ String.length t' = 6%nat
    /\ all_digits d = true /\ all_digits t = true /\ all_digits t' = true.
Proof.
  intros Hs HN Hp.
  destruct (script_spec listing sorted skipped N w Hs HN)
    as (groups & w' & evs & _ & Hcat & _ & Hr & _ & Ht & He).
  rewrite Hr in Hp. simpl in Hp.
  rewrite (new_events_extend _ _ _ Ht), exports_paths, He in Hp.
  apply list_elem_of_fmap in Hp as ([p' seg] & -> & Hp).
  apply list_elem_of_omap in Hp as (g & Hg & E).
  assert (Hsub : forall f, f ∈ g -> f ∈ sorted).
  { intros f Hf. rewrite <- Hcat. apply list_elem_of_In, in_concat.
    exists g. split; now apply list_elem_of_In. }
  apply export_of_recordings in E
    as (d & t & rest & d' & t' & -> & Hl & ? & ? & (? & ? & ? & ?) & ->).
  - exists d, t, d', t'. rewrite !app_assoc_str. split; [reflexivity|].
    split_and!; auto; eapply scanned_recording; eauto.
    apply Hsub, list_elem_of_here.
  - apply Forall_forall. intros f Hf.
    exact (proj2 (scanned_recording _ _ _ _ Hs (Hsub f Hf))).
Qed.

(** X15.  When the listing has no name twice, no two outputs of a run have
    the same path: no output overwrites another. *)
Theorem script_outputs_distinct listing sorted skipped N w :
  NoDup listing -> scan listing = Ok (sorted, skipped) -> 0 < N ->
  NoDup (exported_paths (new_events w (script os listing N w).2)).
Proof.
  intros Hnd Hs HN.
  destruct (script_spec listing sorted skipped N w Hs HN)
    as (groups & w' & evs & _ & Hcat & _ & Hr & _ & Ht & He).
  rewrite Hr. simpl.
  rewrite (new_events_extend _ _ _ Ht), exports_paths, He.
  apply exports_distinct.
  - apply Forall_forall. intros g Hg. apply Forall_forall. intros f Hf.
    apply (scanned_recording _ _ _ _ Hs). rewrite <- Hcat.
    apply list_elem_of_In, in_concat. exists g.
    split; now apply list_elem_of_In.
  - rewrite Hcat.
    destruct (scan_ok _ _ _ Hs) as (ft & Hn & _ & -> & _).
    rewrite sort_by_time_perm, Hn.
    apply NoDup_ListNoDup, List.NoDup_filter, NoDup_ListNoDup, Hnd.
Qed.

(** X16.  A group size of zero ends the grouping with the [ValueError] of
    [range], before any file is opened; a group size below zero makes no
    group at all, and the run ends with nothing read and nothing exported. *)
Theorem group_size_not_positive sorted_files N w :
  N <= 0 ->
  combine_all os sorted_files N w
  = (if N =? 0 then Raise (ValueError RangeStepZero) else Ok [], w).
Proof. apply combine_all_not_positive. Qed.

End Script.

Lemma sample_scan :
  scan sample_listing
  = Ok (["SBW1520_20160813_222435.wav"; "SBW1520_20160813_222535.wav"],
        ["other_20160813_222435.wav"; "SBW1520_20160813_222635.WAV"]).
Proof. vm_compute. reflexivity. Qed.

Lemma script_aborts_witness :
  Exists (fun f => accepted f = true /\ is_ok (timestamp f) = false)
    ["SBW1520_20161313_222535.wav"]
  /\ exists e,
       script no_faults ["SBW1520_20161313_222535.wav"] 2 one_readable
       = (Raise e, one_readable).
Proof.
  assert (H : Exists (fun f => accepted f = true
                               /\ is_ok (timestamp f) = false)
                ["SBW1520_20161313_222535.wav"]).
  { constructor. split; vm_compute; reflexivity. }
  split; [exact H|].
  exact (script_aborts no_faults ["SBW1520_20161313_222535.wav"] 2
           one_readable H).
Defined.

Lemma script_output_names_witness :
  scan sample_listing
  = Ok (["SBW1520_20160813_222435.wav"; "SBW1520_20160813_222535.wav"],
        ["other_20160813_222435.wav"; "SBW1520_20160813_222635.WAV"])
  /\ 0 < 2
  /\ "combinedall/SBW1520_20160813_222435_TO_222535.wav"
     ∈ exported_paths (new_events one_readable
                         (script no_faults sample_listing 2 one_readable).2)
  /\ exists d t d' t',
       "combinedall/SBW1520_20160813_222435_TO_222535.wav"
       = path_join output_dir
           ("SBW1520_" +:+ d +:+ "_" +:+ t +:+ "_TO_" +:+ t' +:+ ".wav")
       /\ recording_name d t ∈ sample_listing
       /\ recording_name d' t' ∈ sample_listing
       /\ String.length d = 8%nat /\ String.length t = 6%nat
       /\ String.length t' = 6%nat
       /\ all_digits d = true /\ all_digits t = true
       /\ all_digits t' = true.
Proof.
  assert (H : "combinedall/SBW1520_20160813_222435_TO_222535.wav"
              ∈ exported_paths
                  (new_events one_readable
                     (script no_faults sample_listing 2 one_readable).2)).
  { vm_compute. apply list_elem_of_here. }
  split; [exact sample_scan|]. split; [lia|]. split; [exact H|].
  apply (script_output_names no_faults sample_listing _
           ["other_20160813_222435.wav"; "SBW1520_20160813_222635.WAV"]
           2 one_readable _ sample_scan); [lia|exact H].
Defined.

Lemma script_outputs_distinct_witness :
  NoDup sample_listing
  /\ scan sample_listing
     = Ok (["SBW1520_20160813_222435.wav"; "SBW1520_20160813_222535.wav"],
           ["other_20160813_222435.wav"; "SBW1520_20160813_222635.WAV"])
  /\ 0 < 1
  /\ NoDup (exported_paths
              (new_events one_readable
                 (script no_faults sample_listing 1 one_readable).2)).
Proof.
  assert (H : NoDup sample_listing).
  { apply (bool_decide_unpack _). vm_compute. reflexivity. }
  split; [exact H|]. split; [exact sample_scan|]. split; [lia|].
  apply (script_outputs_distinct no_faults sample_listing _
           ["other_20160813_222435.wav"; "SBW1520_20160813_222635.WAV"]
           1 one_readable H sample_scan).
  lia.
Defined.

Lemma group_size_not_positive_witness :
  0 <= 0
  /\ combine_all no_faults [first_file; second_file] 0 one_readable
     = (Raise (ValueError RangeStepZero), one_readable).
Proof.
  split; [lia|].
  apply (group_size_not_positive no_faults [first_file; second_file] 0
           one_readable).
  lia.
Defined.

End ScriptFacts.

(** ** More on slice_audio.py *)

Module ChunkFacts.
Import Py PyFacts OS OSFacts SliceAudio SliceFacts Chunks Toy Examples.

Lemma ceil_div_small a b : 0 < a <= b -> ceil_div a b = 1.
Proof.
  intros H. rewrite ceil_div_eq by lia.
  assert (- a / b = -1); [|lia].
  symmetry. apply (Z.div_unique _ _ _ (b - a)); lia.
Qed.

Lemma ceil_div_step a b : 0 < b -> ceil_div (a + b) b = ceil_div a b + 1.
Proof.
  intros H. rewrite !ceil_div_eq by lia.
  replace (- (a + b)) with (- a + (-1) * b) by lia.
  rewrite Z.div_add by lia. lia.
Qed.

Lemma ceil_div_nonpos a b : 0 < b -> a <= 0 -> ceil_div a b <= 0.
Proof.
  intros H Ha. rewrite ceil_div_eq by lia.
  assert (0 <= - a / b) by (apply Z.div_pos; lia). lia.
Qed.

Lemma ceil_div_pos a b : 0 < b -> 0 < a -> 0 < ceil_div a b.
Proof.
  intros H Ha. rewrite ceil_div_eq by lia.
  assert (- a / b < 0) by (apply Z.div_lt_upper_bound; lia). lia.
Qed.

Lemma chunk_count_end drop total chunk_ms :
  0 < chunk_ms -> total <= 0 -> chunk_count drop total chunk_ms = 0.
Proof.
  intros Hc Ht. unfold chunk_count. destruct drop.
  - assert (total / chunk_ms <= 0); [|lia].
    apply Z.div_le_upper_bound; lia.
  - pose proof (ceil_div_nonpos total chunk_ms Hc Ht). lia.
Qed.

Lemma chunk_count_short total chunk_ms :
  0 < total < chunk_ms ->
  chunk_count true total chunk_ms = 0 /\ chunk_count false total chunk_ms = 1.
Proof.
  intros H. unfold chunk_count.
  rewrite Z.div_small, ceil_div_small by lia. lia.
Qed.

Lemma chunk_count_step drop total chunk_ms :
  0 < chunk_ms -> chunk_ms <= total ->
  chunk_count drop total chunk_ms
  = chunk_count drop (total - chunk_ms) chunk_ms + 1.
Proof.
  intros Hc Ht.
  assert (Hr : 0 <= total - chunk_ms) by lia.
  assert (E : total = (total - chunk_ms) + chunk_ms) by lia.
  revert Hr E. generalize (total - chunk_ms). intros r Hr ->.
  unfold chunk_count. rewrite ceil_div_step by lia.
  replace (r + chunk_ms) with (r + 1 * chunk_ms) by lia.
  rewrite Z.div_add by lia.
  destruct drop.
  - assert (0 <= r / chunk_ms) by (apply Z.div_pos; lia). lia.
  - destruct (Z.eq_dec r 0) as [->|Hne].
    + rewrite (ceil_div_eq 0) by lia. change (- 0) with 0.
      rewrite Z.div_0_l by lia. lia.
    + pose proof (ceil_div_pos r chunk_ms). lia.
Qed.

Lemma chunk_count_nonneg drop total chunk_ms :
  0 <= chunk_count drop total chunk_ms.
Proof. unfold chunk_count. lia. Qed.

Lemma chunk_starts_zero pos chunk_ms : chunk_starts pos chunk_ms 0 = [].
Proof. reflexivity. Qed.

Lemma chunk_starts_succ pos chunk_ms k :
  0 <= k ->
  chunk_starts pos chunk_ms (k + 1)
  = pos :: chunk_starts (pos + chunk_ms) chunk_ms k.
Proof.
  intros Hk. unfold chunk_starts.
  replace (Z.to_nat (k + 1)) with (S (Z.to_nat k)) by lia.
  simpl. f_equal; [lia|].
  rewrite <- List.seq_shift, List.map_map.
  apply List.map_ext. intros i. lia.
Qed.

Section Loop.
Context {P : Pydub}.
Variables (a : args) (q : Q) (out_root : string) (window : segment)
  (chunk_ms : Z).
Local Abbreviation events_at := (events_at a q out_root window chunk_ms).

Lemma events_at_cons p starts :
  events_at (p :: starts)
  = chunk_events a q out_root window p (Z.min (p + chunk_ms) (seg_len window))
    ++ events_at starts.
Proof. reflexivity. Qed.

Lemma chunk_loop_run : forall fuel n pos w,
  1 <= chunk_ms ->
  (Z.to_nat (chunk_count (drop_last a) (seg_len window - pos) chunk_ms)
   < fuel)%nat ->
  chunk_loop fuel a (Finite q) out_root window chunk_ms n pos w
  = (Ok (Some (n + chunk_count (drop_last a) (seg_len window - pos) chunk_ms)),
     extend w (events_at
                 (chunk_starts pos chunk_ms
                    (chunk_count (drop_last a) (seg_len window - pos)
                       chunk_ms)))).
Proof.
  induction fuel as [|fuel IH]; intros n pos w Hc Hfuel; [lia|].
  rewrite chunk_loop_S.
  destruct (Z.ltb_spec pos (seg_len window)) as [Hlt|Hge].
  - cbv zeta.
    destruct (Z_le_dec (pos + chunk_ms) (seg_len window)) as [Hfull|Hshort].
    + replace (Z.min (pos + chunk_ms) (seg_len window)) with (pos + chunk_ms)
        by lia.
      destruct (Z.ltb_spec (pos + chunk_ms - pos) chunk_ms); [lia|].
      rewrite andb_false_r.
      rewrite (chunk_count_step _ (seg_len window - pos)) in * by lia.
      replace (seg_len window - pos - chunk_ms)
        with (seg_len window - (pos + chunk_ms)) in * by lia.
      pose proof (chunk_count_nonneg (drop_last a)
                    (seg_len window - (pos + chunk_ms)) chunk_ms).
      rewrite IH by lia.
      rewrite extend_extend, chunk_starts_succ, events_at_cons by lia.
      replace (Z.min (pos + chunk_ms) (seg_len window)) with (pos + chunk_ms)
        by lia.
      do 3 f_equal. lia.
    + replace (Z.min (pos + chunk_ms) (seg_len window)) with (seg_len window)
        by lia.
      destruct (Z.ltb_spec (seg_len window - pos) chunk_ms); [|lia].
      rewrite andb_true_r.
      destruct (chunk_count_short (seg_len window - pos) chunk_ms) as [E1 E2];
        [lia|].
      destruct (drop_last a).
      * rewrite E1, chunk_starts_zero, Z.add_0_r.
        change (events_at []) with (@nil (event segment)).
        now rewrite extend_nil.
      * rewrite E2 in *.
        assert (E0 : chunk_count false (seg_len window - seg_len window)
                       chunk_ms = 0)
          by (apply chunk_count_end; lia).
        destruct fuel as [|fuel]; [simpl in Hfuel; lia|].
        rewrite chunk_loop_S.
        destruct (Z.ltb_spec (seg_len window) (seg_len window)); [lia|].
        replace (chunk_starts pos chunk_ms 1)
          with (chunk_starts pos chunk_ms (0 + 1)) by reflexivity.
        rewrite (chunk_starts_succ pos chunk_ms 0), chunk_starts_zero by lia.
        rewrite events_at_cons.
        change (events_at []) with (@nil (event segment)).
        rewrite app_nil_r.
        replace (Z.min (pos + chunk_ms) (seg_len window)) with (seg_len window)
          by lia.
        reflexivity.
  - rewrite chunk_count_end by lia.
    rewrite chunk_starts_zero, Z.add_0_r.
    change (events_at []) with (@nil (event segment)).
    now rewrite extend_nil.
Qed.


Lemma reported_lengths_events starts :
  reported_lengths (events_at starts)
  = List.map (fun p => Z.min (p + chunk_ms) (seg_len window) - p) starts.
Proof.
  induction starts as [|p starts IH]; [reflexivity|].
  unfold SliceAudio.events_at in *. simpl. now rewrite IH.
Qed.


Lemma chunk_lengths (m : nat) : forall pos,
  1 <= chunk_ms -> pos <= seg_len window ->
  (Z.to_nat (seg_len window - pos) <= m)%nat ->
  let lengths :=
    List.map (fun p => Z.min (p + chunk_ms) (seg_len window) - p)
      (chunk_starts pos chunk_ms
         (chunk_count (drop_last a) (seg_len window - pos) chunk_ms)) in
  total_of lengths
  = (if drop_last a then chunk_ms * ((seg_len window - pos) / chunk_ms)
     else seg_len window - pos)
  /\ Forall (fun d => 0 < d <= chunk_ms) lengths.
Proof.
  induction m as [|m IH]; intros pos Hc Hpos Hm; cbv zeta.
  - assert (pos = seg_len window) by lia. subst pos.
    rewrite chunk_count_end by lia. rewrite Z.sub_diag. simpl.
    split; [|constructor]. rewrite Z.div_0_l by lia.
    destruct (drop_last a); lia.
  - destruct (Z_le_dec (pos + chunk_ms) (seg_len window)) as [Hfull|Hshort].
    + rewrite chunk_count_step by lia.
      rewrite chunk_starts_succ by apply chunk_count_nonneg.
      replace (seg_len window - pos - chunk_ms)
        with (seg_len window - (pos + chunk_ms)) by lia.
      destruct (IH (pos + chunk_ms)) as [IH1 IH2]; [lia..|].
      simpl. split.
      * unfold total_of in *. simpl. rewrite IH1.
        destruct (drop_last a); [|lia].
        replace (seg_len window - pos)
          with ((seg_len window - (pos + chunk_ms)) + 1 * chunk_ms) by lia.
        rewrite Z.div_add by lia. lia.
      * constructor; [lia|exact IH2].
    + destruct (Z.eq_dec pos (seg_len window)) as [->|Hne].
      * rewrite chunk_count_end by lia. rewrite Z.sub_diag. simpl.
        split; [|constructor]. rewrite Z.div_0_l by lia.
        destruct (drop_last a); lia.
      * destruct (chunk_count_short (seg_len window - pos) chunk_ms)
          as [E1 E2]; [lia|].
        destruct (drop_last a).
        -- rewrite E1. simpl. split; [|constructor].
           rewrite Z.div_small by lia. lia.
        -- rewrite E2. unfold chunk_starts. simpl. split.
           ++ unfold total_of. simpl. lia.
           ++ repeat constructor; lia.
Qed.

Lemma chunk_loop_hangs : forall fuel n pos w,
  chunk_ms <= 0 -> pos < seg_len window ->
  exists evs,
    chunk_loop fuel a (Finite q) out_root window chunk_ms n pos w
    = (Ok None, extend w evs)
    /\ List.length (exported_paths evs) = fuel.
Proof.
  induction fuel as [|fuel IH]; intros n pos w Hc Hpos.
  - exists []. rewrite extend_nil. split; reflexivity.
  - rewrite chunk_loop_S.
    destruct (Z.ltb_spec pos (seg_len window)); [|lia]. cbv zeta.
    replace (Z.min (pos + chunk_ms) (seg_len window)) with (pos + chunk_ms)
      by lia.
    destruct (Z.ltb_spec (pos + chunk_ms - pos) chunk_ms); [lia|].
    rewrite andb_false_r.
    destruct (IH (n + 1) (pos + chunk_ms)
                (extend w (chunk_events a q out_root window pos
                             (pos + chunk_ms))) Hc) as (evs & Hr & Hl);
      [lia|].
    rewrite Hr, extend_extend. eexists. split; [reflexivity|].
    rewrite exported_paths_app. rewrite length_app, Hl. reflexivity.
Qed.


(** X18.  For a chunk duration of one millisecond at least, every chunk
    that is exported lasts more than nothing and at most the chunk duration,
    and the durations add up to the length of the window; with [drop_last],
    to the largest multiple of the chunk duration that fits in it. *)
Theorem chunk_durations fuel n w :
  1 <= chunk_ms -> 0 <= seg_len window ->
  (Z.to_nat (chunk_count (drop_last a) (seg_len window) chunk_ms)
   < fuel)%nat ->
  exists r evs,
    chunk_loop fuel a (Finite q) out_root window chunk_ms n 0 w
    = (Ok (Some r), extend w evs)
    /\ total_of (reported_lengths evs)
       = (if drop_last a then chunk_ms * (seg_len window / chunk_ms)
          else seg_len window)
    /\ Forall (fun d => 0 < d <= chunk_ms) (reported_lengths evs).
Proof.
  intros Hc Hw Hfuel. eexists _, _. split.
  - rewrite chunk_loop_run by (rewrite ?Z.sub_0_r; assumption).
    reflexivity.
  - rewrite reported_lengths_events.
    destruct (chunk_lengths (Z.to_nat (seg_len window)) 0 Hc Hw)
      as [H1 H2]; [lia|].
    rewrite Z.sub_0_r in *. split; assumption.
Qed.

(** X19.  For a chunk duration of zero or less and a window that is not
    empty, the loop never ends, with or without [drop_last]: after any
    number of iterations it is still running, and every iteration has
    exported a file. *)
Theorem chunk_loop_never_ends fuel n w :
  chunk_ms <= 0 -> 0 < seg_len window ->
  exists evs,
    chunk_loop fuel a (Finite q) out_root window chunk_ms n 0 w
    = (Ok None, extend w evs)
    /\ List.length (exported_paths evs) = fuel.
Proof. intros Hc Hw. now apply chunk_loop_hangs. Qed.

End Loop.


Lemma chunk_durations_witness :
  1 <= 15000 /\ 0 <= seg_len (window_of 40000)
  /\ (Z.to_nat (chunk_count true (seg_len (window_of 40000)) 15000) < 5)%nat
  /\ exists r evs,
       chunk_loop 5 (command "0" "40" (Finite 15) true) (Finite 0) "out/seg"
         (window_of 40000) 15000 0 0 forty_seconds
       = (Ok (Some r), extend forty_seconds evs)
       /\ total_of (reported_lengths evs)
          = 15000 * (seg_len (window_of 40000) / 15000)
       /\ Forall (fun d => 0 < d <= 15000) (reported_lengths evs).
Proof.
  split; [lia|]. split; [vm_compute; discriminate|].
  split; [vm_compute; lia|].
  apply (chunk_durations (command "0" "40" (Finite 15) true) 0 "out/seg"
           (window_of 40000) 15000 5 0 forty_seconds); [lia| |].
  - vm_compute. discriminate.
  - vm_compute. lia.
Defined.

Lemma chunk_loop_never_ends_witness :
  -1 <= 0 /\ 0 < seg_len (window_of 40000)
  /\ exists evs,
       chunk_loop 7 (command "0" "40" (Finite (-1 # 1000)) true) (Finite 0)
         "out/seg" (window_of 40000) (-1) 0 0 forty_seconds
       = (Ok None, extend forty_seconds evs)
       /\ List.length (exported_paths evs) = 7%nat.
Proof.
  split; [lia|]. split; [reflexivity|].
  apply (chunk_loop_never_ends (command "0" "40" (Finite (-1 # 1000)) true) 0
           "out/seg" (window_of 40000) (-1) 7 0 forty_seconds); [lia|].
  reflexivity.
Defined.

End ChunkFacts.

Module MainFacts.
Import Py PyFacts OS OSFacts SliceAudio SliceFacts Chunks ChunkFacts Toy
  Examples.

(** *** White space around a time *)

Lemma lstrip_spaces l s : chars is_space l = true -> lstrip (l +:+ s) = lstrip s.
Proof.
  induction l as [|c l IH]; intros H; [now rewrite app_empty|].
  simpl in H. apply andb_true_iff in H as [Hc Hl].
  rewrite app_cons. simpl. rewrite Hc. auto.
Qed.

Lemma rstrip_only_spaces r : chars is_space r = true -> rstrip r = EmptyString.
Proof.
  induction r as [|c r IH]; intros H; [reflexivity|].
  simpl in H. apply andb_true_iff in H as [Hc Hr].
  simpl. now rewrite IH, Hc.
Qed.

Lemma rstrip_spaces s r : chars is_space r = true -> rstrip (s +:+ r) = rstrip s.
Proof.
  intros H. induction s as [|c s IH].
  - rewrite app_empty. now apply rstrip_only_spaces.
  - rewrite app_cons. simpl. now rewrite IH.
Qed.

Lemma lstrip_app s r :
  chars is_space r = true ->
  rstrip (lstrip (s +:+ r)) = rstrip (lstrip s).
Proof.
  intros H. induction s as [|c s IH].
  - rewrite app_empty. simpl.
    assert (Hl : chars is_space (lstrip r) = true).
    { induction r as [|c r IHr]; [reflexivity|].
      simpl in H |- *. apply andb_true_iff in H as [Hc Hr].
      rewrite Hc. auto. }
    now apply rstrip_only_spaces.
  - rewrite app_cons. simpl. destruct (is_space c); [exact IH|].
    rewrite <- app_cons. now apply rstrip_spaces.
Qed.

Lemma strip_padding l s r :
  chars is_space l = true -> chars is_space r = true ->
  strip (l +:+ s +:+ r) = strip s.
Proof.
  intros Hl Hr. unfold strip. rewrite lstrip_spaces by assumption.
  now apply lstrip_app.
Qed.

(** X20.  White space before and after a time does not change what the
    parser returns, result or exception. *)
Theorem parse_ignores_padding l s r :
  chars is_space l = true -> chars is_space r = true ->
  parse_hms_or_seconds (l +:+ s +:+ r) = parse_hms_or_seconds s.
Proof.
  intros Hl Hr. unfold parse_hms_or_seconds.
  now rewrite strip_padding.
Qed.

(** X21.  For times that are not negative, two times have the same tag
    exactly when they are in the same whole second: the tag drops the
    fraction of the second and nothing else; the hours are not reduced
    modulo a day. *)
Theorem hms_tag_whole_second (x y : Q) :
  (0 <= x)%Q -> (0 <= y)%Q ->
  hms_from_seconds (Finite x) = hms_from_seconds (Finite y)
  <-> Qfloor x = Qfloor y.
Proof.
  intros Hx Hy. unfold hms_from_seconds. simpl.
  rewrite !trunc_nonneg by assumption. split.
  - intros [= E]. apply (f_equal (fun s => s +:+ String "." EmptyString)) in E.
    apply hms_tag_inj in E; [exact E| |].
    + rewrite <- (Qfloor_Z 0). now apply Qfloor_resp_le.
    + rewrite <- (Qfloor_Z 0). now apply Qfloor_resp_le.
  - now intros ->.
Qed.

Section Main.
Context {P : Pydub}.




(** X22.  When the window that is asked for is empty once it is cut to the
    recording, that is when [min(total_ms, end_ms) <= max(0, start_ms)], as
    for a start at or after the end of the recording, the run ends with the
    [ValueError] of line 55 and makes no call after the parsing.  The times
    are any two floats, [start_ms] and [end_ms] are the rounded products of
    lines 52 and 53. *)
Theorem main_empty_window (fuel : nat) (a : args) (audio : segment)
    (start_sec end_sec : pyfloat) (start_r end_r : Z) (w : world segment) :
  fgt end_sec start_sec = true ->
  round (fmul start_sec (Finite 1000)) = Ok start_r ->
  round (fmul end_sec (Finite 1000)) = Ok end_r ->
  Z.min (seg_len audio) end_r <= Z.max 0 start_r ->
  main_window fuel a audio start_sec end_sec w
  = (Raise (ValueError EmptyWindow), w).
Proof.
  intros Hgt Hs He Hwin. unfold main_window. io_unfold.
  rewrite Hgt, Hs, He. simpl.
  destruct (Z.leb_spec (Z.min (seg_len audio) end_r) (Z.max 0 start_r));
    [reflexivity|lia].
Qed.

(** X23.  A start or an end time that the parser returns and that is not a
    number, as for [0:inf] or [0:nan], ends the run with an exception before
    the loop: its only call is the read of the input.  The loop runs with
    finite times only. *)
Theorem main_needs_finite_times (fuel : nat) (a : args) (w : world segment)
    (b : bytes) (audio : segment) (start_sec end_sec : pyfloat) :
  files w !! input a = Some b ->
  decode_file b = Some audio ->
  parse_hms_or_seconds (start a) = Ok start_sec ->
  parse_hms_or_seconds (end_ a) = Ok end_sec ->
  is_finite start_sec && is_finite end_sec = false ->
  exists e, main fuel a w = (Raise e, extend w [EvRead (input a)]).
Proof.
  intros Hfile Hdec Hs He Hfin.
  unfold main, main_window, from_file. io_unfold. simpl.
  rewrite Hfile, Hdec. simpl. rewrite Hs, He. simpl.
  destruct start_sec as [s|[|]|], end_sec as [e|[|]|]; try discriminate;
    simpl; eauto;
    destruct (round_to_double (s * 1000)); simpl; eauto.
Qed.


End Main.

Lemma parse_ignores_padding_witness :
  chars is_space " " = true /\ chars is_space (String "010" EmptyString) = true
  /\ parse_hms_or_seconds (" " +:+ "1:30" +:+ String "010" EmptyString)
     = parse_hms_or_seconds "1:30".
Proof.
  split; [reflexivity|]. split; [reflexivity|].
  apply (parse_ignores_padding " " "1:30" (String "010" EmptyString));
    reflexivity.
Defined.

Lemma hms_tag_whole_second_witness :
  (0 <= 3661)%Q /\ (0 <= 3661 + (1 # 2))%Q
  /\ (hms_from_seconds (Finite 3661) = hms_from_seconds (Finite (3661 + (1 # 2)))
      <-> Qfloor 3661 = Qfloor (3661 + (1 # 2))).
Proof.
  split; [discriminate|]. split; [discriminate|].
  apply (hms_tag_whole_second 3661 (3661 + (1 # 2))); discriminate.
Defined.

Lemma main_empty_window_witness :
  fgt (Finite 60) (Finite 50) = true
  /\ round (fmul (Finite 50) (Finite 1000)) = Ok 50000
  /\ round (fmul (Finite 60) (Finite 1000)) = Ok 60000
  /\ Z.min (seg_len (window_of 40000)) 60000 <= Z.max 0 50000
  /\ main_window 10 (command "50" "60" (Finite 15) false) (window_of 40000)
       (Finite 50) (Finite 60) forty_seconds
     = (Raise (ValueError EmptyWindow), forty_seconds).
Proof.
  split; [reflexivity|]. split; [vm_compute; reflexivity|].
  split; [vm_compute; reflexivity|]. split; [vm_compute; discriminate|].
  apply (main_empty_window 10 (command "50" "60" (Finite 15) false)
           (window_of 40000) (Finite 50) (Finite 60) 50000 60000
           forty_seconds).
  - reflexivity.
  - vm_compute. reflexivity.
  - vm_compute. reflexivity.
  - vm_compute. discriminate.
Defined.

Lemma main_needs_finite_times_witness :
  exists e,
    main 10 (command "0" "0:inf" (Finite 15) false) forty_seconds
    = (Raise e, extend forty_seconds [EvRead "in.wav"]).
Proof.
  apply (main_needs_finite_times 10 (command "0" "0:inf" (Finite 15) false)
           forty_seconds (good_wav 40000) (window_of 40000)
           (Finite 0) (Infinity false)).
  - reflexivity.
  - vm_compute. reflexivity.
  - vm_compute. reflexivity.
  - vm_compute. reflexivity.
  - reflexivity.
Defined.


End MainFacts.
